(** * Scoring pipeline and win-rate ledger: a shallow embedding

    Embeds the numeric core of the bot (server/indicators.ts,
    server/advanced-analysis.ts and the [WinRateTracker] class at the end of
    server/telegram.ts) and states the properties of the specification over it.

    Numbers.  A JavaScript [number] is modelled by [Js.number]: a finite
    value, kept as the rational it denotes, one of the two infinities, or
    [NaN]; the special values follow IEEE 754 as JavaScript applies it, and
    there is no negative zero.  Two arithmetics are defined on these.  The
    operations of [Js] are exact and keep every result in lowest terms: the
    indicator calculators and the scoring rules are embedded with them, and
    the theorems about those state what does not hang on how a double
    rounds (which inputs are read, the labels, ranges and orderings), with
    hypotheses that keep the values away from overflow and underflow where
    those would decide.  The operations of [F64] return the double nearest to
    the exact result, as the machine does: the risk/reward setup and the
    win-rate ledger are embedded with them, because there the result hangs
    on a threshold or on a rounding to two decimals.  A read that yields
    [undefined] in the source (an index outside an array) is a [NaN] here,
    which is what [undefined] becomes in every arithmetic context and what it
    is for truthiness.

    Environment.  [Math.random] is an explicit stream of draws threaded
    through the calls that read it; [Date.now()] is an argument of the query
    that reads it; [Math.sqrt], whose values are irrational in general, is a
    parameter [sqrtQ] of the definitions that use it.  An exception is a
    [Throw] in the [result] type.

    Objects.  Records are values: the in-place update of a stored signal is
    the replacement of its entry, and no two ids of the tracker share one
    object.

    The file has two parts: the embedding (modules [Js], [F64], [Indicators],
    [AdvancedAnalysis], [WinRate], [AnalysisRules], then the vocabulary of the
    statements and the sample inputs), and the theorems. *)

From Stdlib Require Import List String Ascii Bool Arith ZArith QArith Qround Qabs Qpower Lia Lqa Sorted Permutation.
Import ListNotations.

Set Implicit Arguments.
Set Warnings "-abstract-large-number".

(* ================================================================== *)
(** * JavaScript numbers, strings and arrays *)
(* ================================================================== *)

Module Js.

Inductive number : Type :=
| Fin (q : Q)
| PosInf
| NegInf
| NaN.

Definition of_Z (z : Z) : number := Fin (inject_Z z).
Definition of_nat (n : nat) : number := Fin (inject_Z (Z.of_nat n)).

(** Sign of a value that is not [NaN]: [Gt] positive, [Lt] negative, [Eq] zero. *)
Definition sign (a : number) : comparison :=
  match a with
  | Fin q => (q ?= 0)%Q
  | PosInf => Gt
  | NegInf => Lt
  | NaN => Eq
  end.

Definition mul_sign (c1 c2 : comparison) : comparison :=
  match c1, c2 with
  | Eq, _ | _, Eq => Eq
  | Gt, Gt | Lt, Lt => Gt
  | _, _ => Lt
  end.

(** An infinity of the given sign; sign zero is the indeterminate form. *)
Definition inf_of_sign (c : comparison) : number :=
  match c with Gt => PosInf | Lt => NegInf | Eq => NaN end.

Definition neg (a : number) : number :=
  match a with
  | Fin q => Fin (- q)
  | PosInf => NegInf
  | NegInf => PosInf
  | NaN => NaN
  end.

Definition add (a b : number) : number :=
  match a, b with
  | NaN, _ | _, NaN => NaN
  | Fin x, Fin y => Fin (Qred (x + y))
  | PosInf, NegInf | NegInf, PosInf => NaN
  | PosInf, _ | _, PosInf => PosInf
  | NegInf, _ | _, NegInf => NegInf
  end.

Definition sub (a b : number) : number := add a (neg b).

Definition mul (a b : number) : number :=
  match a, b with
  | NaN, _ | _, NaN => NaN
  | Fin x, Fin y => Fin (Qred (x * y))
  | _, _ => inf_of_sign (mul_sign (sign a) (sign b))
  end.

Definition div (a b : number) : number :=
  match a, b with
  | NaN, _ | _, NaN => NaN
  | Fin x, Fin y =>
      if Qeq_bool y 0 then inf_of_sign (x ?= 0)%Q else Fin (Qred (x / y))
  | Fin _, _ => Fin 0
  | _, Fin y =>
      inf_of_sign (mul_sign (sign a) (if Qeq_bool y 0 then Gt else (y ?= 0)%Q))
  | _, _ => NaN
  end.

(** Ordering; [None] when a [NaN] is involved, so every comparison is false. *)
Definition compare (a b : number) : option comparison :=
  match a, b with
  | NaN, _ | _, NaN => None
  | Fin x, Fin y => Some (x ?= y)%Q
  | PosInf, PosInf | NegInf, NegInf => Some Eq
  | NegInf, _ | _, PosInf => Some Lt
  | _, _ => Some Gt
  end.

Definition lt (a b : number) : bool :=
  match compare a b with Some Lt => true | _ => false end.
Definition le (a b : number) : bool :=
  match compare a b with Some Lt | Some Eq => true | _ => false end.
Definition gt (a b : number) : bool := lt b a.
Definition ge (a b : number) : bool := le b a.
(** [===] on numbers *)
Definition eq (a b : number) : bool :=
  match compare a b with Some Eq => true | _ => false end.

(** [Boolean(x)]: zero and [NaN] are falsy *)
Definition truthy (a : number) : bool :=
  match a with
  | Fin q => negb (Qeq_bool q 0)
  | NaN => false
  | _ => true
  end.

(** [a || b] on numbers *)
Definition or_else (a b : number) : number := if truthy a then a else b.

Definition abs (a : number) : number :=
  match a with
  | Fin q => Fin (Qabs q)
  | PosInf | NegInf => PosInf
  | NaN => NaN
  end.

(** [Math.max(a, b)] and [Math.min(a, b)]: [NaN] is contagious *)
Definition max (a b : number) : number :=
  match compare a b with
  | None => NaN
  | Some Lt => b
  | Some _ => a
  end.

Definition min (a b : number) : number :=
  match compare a b with
  | None => NaN
  | Some Gt => b
  | Some _ => a
  end.

(** [Math.max(...l)] and [Math.min(...l)] *)
Definition max_list (l : list number) : number := fold_left max l NegInf.
Definition min_list (l : list number) : number := fold_left min l PosInf.

(** [Math.round]: nearest integer, halves towards positive infinity *)
Definition round (a : number) : number :=
  match a with
  | Fin q => Fin (inject_Z (Qfloor (q + (1 # 2))))
  | _ => a
  end.

(** Nearest multiple of [10^-d], halves away from zero, as [toFixed] picks it *)
Definition round_dec (d : nat) (q : Q) : Q :=
  let s := inject_Z (10 ^ Z.of_nat d) in
  Qred (if Qle_bool 0 q
        then inject_Z (Qfloor (q * s + (1 # 2))) / s
        else - (inject_Z (Qfloor ((- q) * s + (1 # 2))) / s)).

(** [parseFloat(a.toFixed(d))]; the special values print as [NaN], [Infinity]
    and [-Infinity] and parse back to themselves *)
Definition toFixed (a : number) (d : nat) : number :=
  match a with
  | Fin q => Fin (round_dec d q)
  | _ => a
  end.

(** [Math.pow(a, 2)] *)
Definition sq (a : number) : number := mul a a.

(** [Math.sqrt], given the square root [sqrtQ] of the non-negative rationals *)
Definition Math_sqrt (sqrtQ : Q -> Q) (a : number) : number :=
  match a with
  | Fin q => if Qle_bool 0 q then Fin (sqrtQ q) else NaN
  | PosInf => PosInf
  | _ => NaN
  end.

Declare Scope js_scope.
Delimit Scope js_scope with js.
Bind Scope js_scope with number.

Notation "a + b" := (add a b) : js_scope.
Notation "a - b" := (sub a b) : js_scope.
Notation "a * b" := (mul a b) : js_scope.
Notation "a / b" := (div a b) : js_scope.
Notation "a <? b" := (lt a b) (at level 70) : js_scope.
Notation "a <=? b" := (le a b) (at level 70) : js_scope.
Notation "a >? b" := (gt a b) (at level 70) : js_scope.
Notation "a >=? b" := (ge a b) (at level 70) : js_scope.
Notation "a === b" := (eq a b) (at level 70) : js_scope.
Notation "a ||| b" := (or_else a b) (at level 50, left associativity) : js_scope.

(** Integer literals in [js_scope] denote the corresponding finite number. *)
Definition to_Z (a : number) : option Z :=
  match a with
  | Fin (Qmake z 1) => Some z
  | _ => None
  end.
Number Notation number of_Z to_Z : js_scope.

(** ** Arrays *)

(** [l[i]]; outside the array the read is [undefined] *)
Definition get (l : list number) (i : Z) : number :=
  if (i <? 0)%Z then NaN else nth (Z.to_nat i) l NaN.

Definition len (A : Type) (l : list A) : Z := Z.of_nat (List.length l).

(** [l[l.length - 1]] *)
Definition last_elem (l : list number) : number := get l (len l - 1).

(** [l.slice(-n)] for [n >= 0]: the last [n] elements; [slice(-0)] is
    [slice(0)], the whole array *)
Definition slice_last (A : Type) (n : nat) (l : list A) : list A :=
  match n with
  | O => l
  | _ => skipn (List.length l - n) l
  end.

(** [l.slice(i, j)] for [0 <= i <= j] *)
Definition slice (A : Type) (i j : nat) (l : list A) : list A :=
  firstn (j - i) (skipn i l).

(** [l.reduce((a, b) => a + b, 0)] *)
Definition sum (l : list number) : number := fold_left add l (Fin 0).

(** [l.filter(Boolean).length] *)
Definition count_true (l : list bool) : nat := List.length (filter (fun b => b) l).

(** ** Exceptions *)

Inductive result (A : Type) : Type :=
| Ok (a : A)
| Throw (error : string).
Arguments Throw {A} error.

Definition bind (A B : Type) (m : result A) (k : A -> result B) : result B :=
  match m with
  | Ok a => k a
  | Throw e => Throw e
  end.

Notation "x <- m ;; k" := (bind m (fun x => k))
  (at level 61, m at next level, right associativity) : js_scope.

Fixpoint mapM (A B : Type) (f : A -> result B) (l : list A) : result (list B) :=
  match l with
  | [] => Ok []
  | x :: l' =>
      (y <- f x ;; ys <- mapM f l' ;; Ok (y :: ys))%js
  end.

(** [l.reduce((a, b) => a + b)]: without an initial value an empty array
    raises a TypeError *)
Definition sum1 (l : list number) : result number :=
  match l with
  | [] => Throw "TypeError: Reduce of empty array with no initial value"
  | x :: l' => Ok (fold_left add l' x)
  end.

(** ** Strings *)

(** [s.includes(sub)] *)
Fixpoint includes (s sub : string) : bool :=
  String.prefix sub s ||
  match s with
  | EmptyString => false
  | String _ s' => includes s' sub
  end.

End Js.

Import Js.

Local Open Scope string_scope.
Local Open Scope js_scope.


(* ================================================================== *)
(** * Binary64 arithmetic *)
(* ================================================================== *)

(** The arithmetic of JavaScript as it is carried out: every operation
    returns the double nearest to the exact result (ties to even), subnormals
    and overflow to the infinities included.  A finite double is kept as the
    rational it denotes.  Used where the code compares a computed value with
    a threshold; the comparisons themselves are exact. *)
Module F64.

(** [floor (log2 a)] for [a > 0] *)
Definition ilog2 (a : Q) : Z :=
  if Qle_bool 1 a then Z.log2 (Qfloor a) else (- Z.log2_up (Qceiling (/ a)))%Z.

(** The nearest integer, ties to even *)
Definition rne (x : Q) : Z :=
  let f := Qfloor x in
  match (x - inject_Z f ?= 1 # 2)%Q with
  | Lt => f
  | Gt => (f + 1)%Z
  | Eq => if Z.even f then f else (f + 1)%Z
  end.

(** The exponent of the unit in the last place of a double near [a > 0]: 53
    significant bits, and no unit below [2^-1074] *)
Definition ulp_exp (a : Q) : Z := Z.max (ilog2 a - 52) (-1074).

(** The double nearest to [a > 0]; from [2^1024] on the result is
    [Infinity] *)
Definition round_pos (a : Q) : number :=
  let e := ulp_exp a in
  let v := (inject_Z (rne (a / 2 ^ e)) * 2 ^ e)%Q in
  if Qle_bool (2 ^ 1024) v then PosInf else Fin (Qred v).

(** The double nearest to [q] *)
Definition round64 (q : Q) : number :=
  match (q ?= 0)%Q with
  | Eq => Fin 0
  | Gt => round_pos q
  | Lt => neg (round_pos (- q))
  end.

(** A rational that is the value of a double *)
Definition representable (q : Q) : Prop := round64 q = Fin q.

(** A decimal literal of the source *)
Definition double (q : Q) : number := round64 q.

Definition add (a b : number) : number :=
  match a, b with
  | Fin x, Fin y => round64 (x + y)
  | _, _ => Js.add a b
  end.

Definition sub (a b : number) : number := add a (neg b).

Definition mul (a b : number) : number :=
  match a, b with
  | Fin x, Fin y => round64 (x * y)
  | _, _ => Js.mul a b
  end.

Definition div (a b : number) : number :=
  match a, b with
  | Fin x, Fin y => if Qeq_bool y 0 then Js.div a b else round64 (x / y)
  | _, _ => Js.div a b
  end.

(** [parseFloat(a.toFixed(d))]: the decimal rounding of the exact value, read
    back as a double; from [10^21] on [toFixed] prints the number itself *)
Definition toFixed (a : number) (d : nat) : number :=
  match a with
  | Fin q => if Qle_bool (inject_Z (10 ^ 21)) (Qabs q) then a else round64 (round_dec d q)
  | _ => a
  end.

(** [l.reduce((a, b) => a + b, 0)] *)
Definition sum (l : list number) : number := fold_left add l (Fin 0).

(** [Math.pow(a, 2)]: the rounded product *)
Definition sq (a : number) : number := mul a a.

(** [Math.sqrt], given the square root [sqrtQ] of the non-negative rationals *)
Definition Math_sqrt (sqrtQ : Q -> Q) (a : number) : number :=
  match a with
  | Fin q => if Qle_bool 0 q then round64 (sqrtQ q) else NaN
  | PosInf => PosInf
  | _ => NaN
  end.

End F64.

(** The rounded operations are written with circled signs, as is usual for
    floating-point arithmetic. *)
Notation "a ⊕ b" := (F64.add a b) (at level 50, left associativity) : js_scope.
Notation "a ⊖ b" := (F64.sub a b) (at level 50, left associativity) : js_scope.
Notation "a ⊗ b" := (F64.mul a b) (at level 40, left associativity) : js_scope.
Notation "a ⊘ b" := (F64.div a b) (at level 40, left associativity) : js_scope.

(* ================================================================== *)
(** * server/indicators.ts *)
(* ================================================================== *)

Module Indicators.

Record RsiResult := {
  rsi_value : number; rsi_signal : string; rsi_strength : string }.
Record MacdResult := {
  macd_histogram : number; macd_signal : string; macd_momentum : string }.
Record EmaResult := {
  ema_ema9 : number; ema_ema21 : number; ema_alignment : string; ema_signal : string }.
Record BollingerResult := {
  bollinger_upper : number; bollinger_lower : number; bollinger_middle : number;
  bollinger_position : string }.
Record AtrResult := { atr_value : number; atr_volatility : string }.
Record ObvResult := { obv_trend : string; obv_momentum : string }.
Record StochResult := { stoch_k : number; stoch_d : number; stoch_signal : string }.
Record AdxResult := { adx_value : number; adx_trend : string; adx_strength : string }.
Record VwapResult := { vwap_level : number; vwap_price_vs_vwap : string }.
Record IchimokuResult := { ichimoku_cloud_signal : string; ichimoku_momentum : string }.
Record Overall := {
  overall_score : number; overall_confidence : string; overall_recommendation : string }.

Record IndicatorAnalysis := {
  rsi : RsiResult;
  macd : MacdResult;
  ema : EmaResult;
  bollinger : BollingerResult;
  atr : AtrResult;
  obv : ObvResult;
  stoch : StochResult;
  adx : AdxResult;
  vwap : VwapResult;
  ichimoku : IchimokuResult;
  overall : Overall
}.

Record TokenMetrics := {
  price : number;
  priceChange24h : number;
  priceChange1h : number;
  priceChange5m : number;
  volume24h : number;
  liquidity : number;
  buys24h : number;
  sells24h : number;
  marketCap : number
}.

(** ** RSI *)

Definition calculateRSI (priceHistory : list number) (period : nat) : RsiResult :=
  if (List.length priceHistory <? period + 1)%nat then
    {| rsi_value := 50; rsi_signal := "Insufficient Data"; rsi_strength := "Neutral" |}
  else
    let '(gains, losses) :=
      fold_left
        (fun (acc : number * number) (i : nat) =>
           let '(gains, losses) := acc in
           let change :=
             get priceHistory (Z.of_nat i) - get priceHistory (Z.of_nat i - 1) in
           if change >? 0 then (gains + change, losses)
           else (gains, losses + abs change))
        (seq 1 period) (0, 0) in
    let avgGain := gains / of_nat period in
    let avgLoss := losses / of_nat period in
    let rs := avgGain / avgLoss in
    let rsi := 100 - 100 / (1 + rs) in
    let signal :=
      if rsi >? 70 then "Overbought"
      else if rsi <? 30 then "Oversold"
      else if rsi >? 60 then "Strong Bullish"
      else if rsi <? 40 then "Strong Bearish"
      else "Neutral" in
    let strength :=
      if (rsi >? 75) || (rsi <? 25) then "Very Strong"
      else if (rsi >? 70) || (rsi <? 30) then "Strong"
      else if (rsi >? 65) || (rsi <? 35) then "Moderate"
      else "Weak" in
    {| rsi_value := toFixed rsi 2; rsi_signal := signal; rsi_strength := strength |}.

(** ** EMA *)

Definition calculateEMA (prices : list number) (period : nat) : result number :=
  if (List.length prices <? period)%nat then Ok (last_elem prices)
  else
    let multiplier := 2 / (of_nat period + 1) in
    seed <- sum1 (slice 0 period prices) ;;
    Ok (fold_left
          (fun (ema : number) (i : nat) =>
             (get prices (Z.of_nat i) - ema) * multiplier + ema)
          (seq period (List.length prices - period))
          (seed / of_nat period)).

(** ** MACD *)

(** The loop of [calculateMACD] that fills [macdHistory]: one MACD value per
    26-sample sub-window. *)
Definition macdHistory_of (priceHistory : list number) : result (list number) :=
  mapM (fun i : nat =>
          a <- calculateEMA (slice i (i + 26) priceHistory) 12 ;;
          b <- calculateEMA (slice i (i + 26) priceHistory) 26 ;;
          Ok (a - b))
       (seq 0 (List.length priceHistory - 26)).

Definition calculateMACD (priceHistory : list number) : result MacdResult :=
  if (List.length priceHistory <? 26)%nat then
    Ok {| macd_histogram := 0; macd_signal := "Insufficient Data";
          macd_momentum := "Neutral" |}
  else
    ema12 <- calculateEMA priceHistory 12 ;;
    ema26 <- calculateEMA priceHistory 26 ;;
    let macdLine := ema12 - ema26 in
    macdHistory <- macdHistory_of priceHistory ;;
    signalLine <- calculateEMA macdHistory 9 ;;
    let histogram := macdLine - signalLine in
    let signal :=
      if histogram >? Fin (1 # 2) then "Bullish Momentum"
      else if histogram <? Fin (-1 # 2) then "Bearish Momentum"
      else if histogram >? 0 then "Weak Bullish"
      else "Weak Bearish" in
    let momentum :=
      if abs histogram >? 2 then "Very Strong"
      else if abs histogram >? 1 then "Strong"
      else if abs histogram >? Fin (1 # 2) then "Moderate"
      else "Weak" in
    Ok {| macd_histogram := toFixed histogram 4; macd_signal := signal;
          macd_momentum := momentum |}.

(** ** EMA 9/21 *)

Definition calculateEMACross (priceHistory : list number) : result EmaResult :=
  if (List.length priceHistory <? 21)%nat then
    Ok {| ema_ema9 := 0; ema_ema21 := 0; ema_alignment := "Insufficient Data";
          ema_signal := "Neutral" |}
  else
    ema9 <- calculateEMA priceHistory 9 ;;
    ema21 <- calculateEMA priceHistory 21 ;;
    let current := last_elem priceHistory in
    let '(alignment, signal) :=
      if (ema9 >? ema21) && (current >? ema21)
      then ("Bullish", "Strong Bullish Alignment")
      else if (ema9 <? ema21) && (current <? ema21)
      then ("Bearish", "Strong Bearish Alignment")
      else if ema9 >? ema21 then ("Bullish (Price Below)", "Weak Bullish")
      else if ema9 <? ema21 then ("Bearish (Price Above)", "Weak Bearish")
      else ("Neutral", "Consolidation Zone") in
    Ok {| ema_ema9 := toFixed ema9 8; ema_ema21 := toFixed ema21 8;
          ema_alignment := alignment; ema_signal := signal |}.

(** ** ATR *)

Definition calculateATR (high low close : list number) (period : nat) : AtrResult :=
  if (List.length high <? period)%nat then
    {| atr_value := 0; atr_volatility := "Insufficient Data" |}
  else
    let sum :=
      fold_left
        (fun (sum : number) (n : nat) =>
           let i := Z.of_nat n in
           let tr :=
             max (max (get high i - get low i)
                      (abs ((get high i - get close (i - 1)) ||| get close i)))
                 (abs ((get low i - get close (i - 1)) ||| get close i)) in
           sum + tr)
        (seq 0 period) 0 in
    let atr := sum / of_nat period in
    let percentage := atr / last_elem close * 100 in
    let volatility :=
      if percentage >? 3 then "Very High"
      else if percentage >? 2 then "High"
      else if percentage >? 1 then "Moderate"
      else "Low" in
    {| atr_value := toFixed atr 8; atr_volatility := volatility |}.

(** ** OBV *)

Definition calculateOBV (closeHistory volumeHistory : list number) : ObvResult :=
  if (List.length closeHistory <? 2)%nat then
    {| obv_trend := "Neutral"; obv_momentum := "Insufficient Data" |}
  else
    let obv := get volumeHistory 0 in
    let '(_, obvHistory) :=
      fold_left
        (fun (acc : number * list number) (n : nat) =>
           let '(obv, obvHistory) := acc in
           let i := Z.of_nat n in
           let obv :=
             if get closeHistory i >? get closeHistory (i - 1)
             then obv + get volumeHistory i
             else if get closeHistory i <? get closeHistory (i - 1)
             then obv - get volumeHistory i
             else obv in
           (obv, (obvHistory ++ [obv])%list))
        (seq 1 (List.length closeHistory - 1)) (obv, [obv]) in
    let recent := slice_last 10 obvHistory in
    let trend := if last_elem recent >? get recent 0 then "Bullish" else "Bearish" in
    let changePercent := (last_elem recent - get recent 0) / get recent 0 * 100 in
    let momentum :=
      if abs changePercent >? 10 then "Strong"
      else if abs changePercent >? 5 then "Moderate"
      else "Weak" in
    {| obv_trend := trend; obv_momentum := momentum |}.

(** ** Stochastic oscillator *)

Definition calculateStochastic (closeHistory : list number) (period : nat) : StochResult :=
  if (List.length closeHistory <? period)%nat then
    {| stoch_k := 50; stoch_d := 50; stoch_signal := "Insufficient Data" |}
  else
    let recent := slice_last period closeHistory in
    let lowest := min_list recent in
    let highest := max_list recent in
    let current := last_elem closeHistory in
    let k :=
      if lowest === highest then 50
      else (current - lowest) / (highest - lowest) * 100 in
    let d := (k + 50) / 2 in
    let signal :=
      if k >? 80 then "Overbought"
      else if k <? 20 then "Oversold"
      else if k >? d then "Bullish Crossover"
      else if k <? d then "Bearish Crossover"
      else "Neutral" in
    {| stoch_k := toFixed k 2; stoch_d := toFixed d 2; stoch_signal := signal |}.

(** ** ADX *)

Definition calculateADX (high low _close : list number) (period : nat) : AdxResult :=
  if (List.length high <? period)%nat then
    {| adx_value := 20; adx_trend := "Weak Trend"; adx_strength := "Weak" |}
  else
    let recent := slice_last period high in
    let avgChange :=
      fold_left
        (fun (a : number) (n : nat) =>
           let i := Z.of_nat n in
           a + abs ((get recent i - get recent (i - 1)) ||| 0))
        (seq 0 (List.length recent)) 0
      / of_nat period in
    let '(trend, adx) :=
      if last_elem high >? get high (len high - 2)
      then ("Uptrend", min 50 (20 + avgChange * 5))
      else if last_elem low <? get low (len low - 2)
      then ("Downtrend", min 50 (20 + avgChange * 5))
      else ("No Clear Trend", 20) in
    let strength :=
      if adx >? 40 then "Very Strong"
      else if adx >? 30 then "Strong"
      else if adx >? 20 then "Moderate"
      else "Weak" in
    {| adx_value := toFixed adx 2; adx_trend := trend; adx_strength := strength |}.

(** ** VWAP *)

Definition calculateVWAP (closeHistory volumeHistory : list number) : VwapResult :=
  if (List.length closeHistory =? 0)%nat then
    {| vwap_level := 0; vwap_price_vs_vwap := "No Data" |}
  else
    let '(typicalPriceVolume, volumeSum) :=
      fold_left
        (fun (acc : number * number) (n : nat) =>
           let '(typicalPriceVolume, volumeSum) := acc in
           let i := Z.of_nat n in
           (typicalPriceVolume + get closeHistory i * get volumeHistory i,
            volumeSum + get volumeHistory i))
        (seq 0 (List.length closeHistory)) (0, 0) in
    let vwap :=
      if volumeSum === 0 then last_elem closeHistory
      else typicalPriceVolume / volumeSum in
    let current := last_elem closeHistory in
    let diff := (current - vwap) / vwap * 100 in
    let position :=
      if diff >? 1 then "Above VWAP (Bullish)"
      else if diff <? -1 then "Below VWAP (Bearish)"
      else "Near VWAP (Consolidation)" in
    {| vwap_level := toFixed vwap 8; vwap_price_vs_vwap := position |}.

(** ** Ichimoku cloud *)

Definition calculateIchimoku (high _low close : list number) : IchimokuResult :=
  if (List.length high <? 26)%nat then
    {| ichimoku_cloud_signal := "Insufficient Data"; ichimoku_momentum := "Neutral" |}
  else
    let recent26 := slice_last 26 high in
    let recent52 := slice_last 52 high in
    let tenkan := (max_list recent26 + min_list recent26) / 2 in
    let kijun := (max_list recent52 + min_list recent52) / 2 in
    let current := last_elem close in
    if (current >? tenkan) && (tenkan >? kijun) then
      {| ichimoku_cloud_signal := "Strong Bullish Cloud"; ichimoku_momentum := "Strong" |}
    else if (current <? tenkan) && (tenkan <? kijun) then
      {| ichimoku_cloud_signal := "Strong Bearish Cloud"; ichimoku_momentum := "Strong" |}
    else if current >? kijun then
      {| ichimoku_cloud_signal := "Bullish"; ichimoku_momentum := "Moderate" |}
    else if current <? kijun then
      {| ichimoku_cloud_signal := "Bearish"; ichimoku_momentum := "Moderate" |}
    else
      {| ichimoku_cloud_signal := "Neutral"; ichimoku_momentum := "Weak" |}.

(** ** [Math.random]: the draws are an explicit stream, read at a cursor *)

Record Rng := { draws : nat -> Q; cursor : nat }.

Definition Math_random (g : Rng) : number * Rng :=
  (Fin (draws g (cursor g)), {| draws := draws g; cursor := S (cursor g) |}).

(** ** Synthetic histories *)

Fixpoint price_walk (metrics : TokenMetrics) (n : nat) (price : number) (g : Rng)
  : list number * Rng :=
  match n with
  | O => ([], g)
  | S n' =>
      let '(r, g) := Math_random g in
      let change := (r - Fin (1 # 2)) * (priceChange24h metrics / 10) in
      let price := price * (1 + change / 100) in
      let '(history, g) := price_walk metrics n' price g in
      (price :: history, g)
  end.

Definition generatePriceHistory (metrics : TokenMetrics) (length : nat) (g : Rng)
  : list number * Rng :=
  price_walk metrics length (price metrics) g.

Fixpoint generateVolumeHistory (metrics : TokenMetrics) (length : nat) (g : Rng)
  : list number * Rng :=
  match length with
  | O => ([], g)
  | S n' =>
      let avgVolume := volume24h metrics / 24 in
      let '(r, g) := Math_random g in
      let volume := avgVolume * (Fin (4 # 5) + r * Fin (2 # 5)) in
      let '(history, g) := generateVolumeHistory metrics n' g in
      (volume :: history, g)
  end.

(** ** The aggregator *)

(** The block of [analyzeIndicators] that computes the overall score, the
    confidence and the recommendation from the calculators' results. *)
Definition overall_assessment (rsi : RsiResult) (macd : MacdResult) (ema : EmaResult)
    (bollinger : BollingerResult) (vwap : VwapResult) (adx : AdxResult) : Overall :=
  let score : number := 50 in
  let confirmations := 0%nat in
  let '(score, confirmations) :=
    if (rsi_value rsi >? 60) || (rsi_value rsi <? 40)
    then (score + abs (rsi_value rsi - 50) / 5 * 2, S confirmations)
    else (score, confirmations) in
  let '(score, confirmations) :=
    if String.eqb (ema_alignment ema) "Bullish" || String.eqb (ema_alignment ema) "Bearish"
    then (score + 12, S confirmations)
    else (score, confirmations) in
  let '(score, confirmations) :=
    if String.eqb (macd_momentum macd) "Very Strong" then (score + 15, S confirmations)
    else if String.eqb (macd_momentum macd) "Strong" then (score + 10, confirmations)
    else (score, confirmations) in
  let '(score, confirmations) :=
    if includes (bollinger_position bollinger) "Overbought"
       || includes (bollinger_position bollinger) "Oversold"
    then (score + 5, S confirmations)
    else (score, confirmations) in
  let '(score, confirmations) :=
    if includes (vwap_price_vs_vwap vwap) "Above"
       || includes (vwap_price_vs_vwap vwap) "Below"
    then (score + 8, S confirmations)
    else (score, confirmations) in
  let '(score, confirmations) :=
    if String.eqb (adx_strength adx) "Very Strong" then (score + 10, S confirmations)
    else if String.eqb (adx_strength adx) "Strong" then (score + 7, confirmations)
    else (score, confirmations) in
  let score := min 100 score in
  let confidence :=
    if (5 <=? confirmations)%nat then "Very High"
    else if (4 <=? confirmations)%nat then "High"
    else if (3 <=? confirmations)%nat then "Moderate"
    else if (2 <=? confirmations)%nat then "Fair"
    else "Low" in
  let recommendation :=
    if score >=? 75 then "🟢 BUY SIGNAL"
    else if score >=? 60 then "🟡 CAUTIOUS BUY"
    else if score <=? 25 then "🔴 SELL SIGNAL"
    else if score <=? 40 then "🔴 CAUTIOUS SELL"
    else "NEUTRAL" in
  {| overall_score := round score;
     overall_confidence := confidence;
     overall_recommendation := recommendation |}.

Section WithSqrt.

(** [Math.sqrt] on non-negative rationals *)
Variable sqrtQ : Q -> Q.

(** ** Bollinger bands *)

Definition calculateBollingerBands (priceHistory : list number) (period : nat)
    (stdDev : number) : result BollingerResult :=
  if (List.length priceHistory <? period)%nat then
    Ok {| bollinger_upper := 0; bollinger_lower := 0; bollinger_middle := 0;
          bollinger_position := "Insufficient Data" |}
  else
    let recent := slice_last period priceHistory in
    total <- sum1 recent ;;
    let middle := total / of_nat period in
    let variance :=
      fold_left (fun sum price => sum + sq (price - middle)) recent 0
      / of_nat period in
    let std := Math_sqrt sqrtQ variance in
    let upper := middle + std * stdDev in
    let lower := middle - std * stdDev in
    let current := last_elem priceHistory in
    let position :=
      if current >? upper * Fin (19 # 20) then "Upper Band (Overbought)"
      else if current <? lower * Fin (21 # 20) then "Lower Band (Oversold)"
      else if current >? middle then "Upper Half"
      else "Lower Half" in
    Ok {| bollinger_upper := toFixed upper 8; bollinger_lower := toFixed lower 8;
          bollinger_middle := toFixed middle 8; bollinger_position := position |}.

Definition analyzeIndicators (metrics : TokenMetrics) (priceHistory : list number)
    (g : Rng) : result (IndicatorAnalysis * Rng) :=
  let '(priceHistory, g) :=
    if (List.length priceHistory =? 0)%nat then generatePriceHistory metrics 50 g
    else (priceHistory, g) in
  let rsi := calculateRSI priceHistory 14 in
  macd <- calculateMACD priceHistory ;;
  ema <- calculateEMACross priceHistory ;;
  bollinger <- calculateBollingerBands priceHistory 20 2 ;;
  let atr := calculateATR priceHistory priceHistory priceHistory 14 in
  let '(volumes, g) := generateVolumeHistory metrics (List.length priceHistory) g in
  let obv := calculateOBV priceHistory volumes in
  let stoch := calculateStochastic priceHistory 14 in
  let adx := calculateADX priceHistory priceHistory priceHistory 14 in
  let '(volumes, g) := generateVolumeHistory metrics (List.length priceHistory) g in
  let vwap := calculateVWAP priceHistory volumes in
  let ichimoku := calculateIchimoku priceHistory priceHistory priceHistory in
  Ok ({| rsi := rsi; macd := macd; ema := ema; bollinger := bollinger; atr := atr;
         obv := obv; stoch := stoch; adx := adx; vwap := vwap; ichimoku := ichimoku;
         overall := overall_assessment rsi macd ema bollinger vwap adx |}, g).

End WithSqrt.

End Indicators.
(* ================================================================== *)
(** * server/advanced-analysis.ts *)
(* ================================================================== *)

Module AdvancedAnalysis.

Inductive ConfidenceLevel := very_low | low | moderate | high | very_high.

Record ConfluenceScore := {
  totalIndicators : nat;
  agreeingIndicators : nat;
  confluencePercent : number;
  bullishCount : nat;
  bearishCount : nat;
  confidenceLevel : ConfidenceLevel;
  tradeable : bool
}.

Record RiskRewardSetup := {
  entryPrice : number;
  takeProfit : number;
  stopLoss : number;
  riskRewardRatio : number;
  isValid : bool;
  positionSize : number;
  potentialGain : number;
  potentialLoss : number
}.

Inductive Regime := trending | ranging | breakout | reversal.
Inductive Volatility := vol_low | vol_medium | vol_high | vol_extreme.

Record MarketRegime := {
  regime : Regime;
  adxValue : number;
  volatility : Volatility;
  recommendation : string
}.

Inductive EntryType := immediate | candle_confirmation | support_bounce | entry_breakout.

Record SmartEntry := {
  shouldEnter : bool;
  reason : string;
  entryType : EntryType;
  smartEntryPrice : number;
  entryWaitTime : number
}.

Inductive Signal := STRONG_BUY | BUY | NEUTRAL | SELL | STRONG_SELL | SKIP.

Record FinalSignal := {
  signal : Signal;
  confidence : number;
  finalReason : string
}.

(** The fields of [Partial<AdvancedAnalysisResult>] that [generateFinalSignal]
    reads; every one may be absent. *)
Record AdvancedAnalysisResult := {
  confluence : option ConfluenceScore;
  timeframeAlignment : option string;
  riskReward : option RiskRewardSetup;
  marketRegime : option MarketRegime;
  smartEntry : option SmartEntry
}.

(** The argument of [calculateConfluenceScore]: the label (and the RSI value)
    of each of the ten indicators. *)
Record ConfluenceInput := {
  rsi_value : number;
  rsi_signal : string;
  macd_signal : string;
  ema_signal : string;
  bollinger_position : string;
  vwap_price_vs_vwap : string;
  adx_strength : string;
  stoch_signal : string;
  ichimoku_cloud_signal : string;
  obv_trend : string;
  atr_volatility : string
}.

Definition bullishSignals (indicators : ConfluenceInput) : list bool :=
  [ includes (rsi_signal indicators) "Bullish";
    includes (macd_signal indicators) "Bullish";
    includes (ema_signal indicators) "Bullish";
    includes (bollinger_position indicators) "Lower";
    includes (vwap_price_vs_vwap indicators) "Above";
    includes (stoch_signal indicators) "Bullish";
    includes (ichimoku_cloud_signal indicators) "Bullish";
    String.eqb (obv_trend indicators) "Bullish" ].

Definition bearishSignals (indicators : ConfluenceInput) : list bool :=
  [ includes (rsi_signal indicators) "Bearish";
    includes (macd_signal indicators) "Bearish";
    includes (ema_signal indicators) "Bearish";
    includes (bollinger_position indicators) "Upper";
    includes (vwap_price_vs_vwap indicators) "Below";
    includes (stoch_signal indicators) "Bearish";
    includes (ichimoku_cloud_signal indicators) "Bearish";
    String.eqb (obv_trend indicators) "Bearish" ].

Definition calculateConfluenceScore (indicators : ConfluenceInput) : ConfluenceScore :=
  let bullishCount := count_true (bullishSignals indicators) in
  let bearishCount := count_true (bearishSignals indicators) in
  let totalSignals := (bullishCount + bearishCount)%nat in
  let confluencePercent :=
    if (0 <? totalSignals)%nat
    then of_nat (Nat.max bullishCount bearishCount) / of_nat totalSignals * 100
    else 50 in
  let confidenceLevel :=
    if confluencePercent >=? 90 then very_high
    else if confluencePercent >=? 75 then high
    else if confluencePercent >=? 60 then moderate
    else if confluencePercent >=? 40 then low
    else very_low in
  {| totalIndicators := 10;
     agreeingIndicators := Nat.max bullishCount bearishCount;
     confluencePercent := round confluencePercent;
     bullishCount := bullishCount;
     bearishCount := bearishCount;
     confidenceLevel := confidenceLevel;
     tradeable := confluencePercent >=? 60 |}.

(** Computed in binary64: whether a setup is valid depends on how the
    quotient rounds. *)
Definition calculateRiskReward
    (entryPrice support resistance atrValue accountRisk : number) : RiskRewardSetup :=
  let minRiskDistance := atrValue ⊗ Fin (3 # 2) in
  let minRewardDistance := atrValue ⊗ 3 in
  let stopLoss := entryPrice ⊖ minRiskDistance in
  let stopLoss :=
    if stopLoss >? support then support ⊗ F64.double (99 # 100) else stopLoss in
  let takeProfit := entryPrice ⊕ minRewardDistance in
  let takeProfit :=
    if takeProfit <? resistance then resistance ⊗ F64.double (101 # 100)
    else takeProfit in
  let riskAmount := entryPrice ⊖ stopLoss in
  let rewardAmount := takeProfit ⊖ entryPrice in
  let riskRewardRatio := rewardAmount ⊘ riskAmount in
  let positionSize := accountRisk ⊘ (riskAmount ⊘ entryPrice) ⊗ 100 in
  {| entryPrice := entryPrice;
     takeProfit := F64.toFixed takeProfit 8;
     stopLoss := F64.toFixed stopLoss 8;
     riskRewardRatio := F64.toFixed riskRewardRatio 2;
     isValid := riskRewardRatio >=? 2;
     positionSize := F64.toFixed positionSize 2;
     potentialGain := F64.toFixed (rewardAmount ⊘ entryPrice ⊗ 100) 2;
     potentialLoss := F64.toFixed (riskAmount ⊘ entryPrice ⊗ 100) 2 |}.

(** The five entries of the [checks] object.  [confluencePass] is the value of
    [result.confluence?.confluencePercent || 0 >= 60], in which [>=] binds
    tighter than [||]: the percentage itself when it is truthy, and otherwise
    the boolean [0 >= 60]. *)
Record Checks := {
  confluencePass : number + bool;
  timeframePass : bool;
  riskRewardPass : bool;
  entryReady : bool;
  regimeAccepts : bool
}.

(** [Boolean(v)] for a value that is a number or a boolean *)
Definition truthy_value (v : number + bool) : bool :=
  match v with inl n => truthy n | inr b => b end.

(** [a || b] with [a] a possibly absent number and [b] a boolean *)
Definition num_or_bool (a : option number) (b : bool) : number + bool :=
  match a with
  | Some n => if truthy n then inl n else inr b
  | None => inr b
  end.

(** [a || false] with [a] a possibly absent boolean *)
Definition bool_or_false (a : option bool) : bool :=
  match a with Some true => true | _ => false end.

Definition checks_of (result : AdvancedAnalysisResult) : Checks :=
  {| confluencePass :=
       num_or_bool (option_map confluencePercent (confluence result)) (0 >=? 60);
     timeframePass :=
       match timeframeAlignment result with
       | Some a => String.eqb a "strong-bullish" || String.eqb a "bullish"
       | None => false
       end;
     riskRewardPass := bool_or_false (option_map isValid (riskReward result));
     entryReady := bool_or_false (option_map shouldEnter (smartEntry result));
     regimeAccepts :=
       match option_map regime (marketRegime result) with
       | Some ranging => false
       | _ => true
       end |}.

(** [Object.values(checks)], each value reduced to its truthiness *)
Definition checks_values (c : Checks) : list bool :=
  [ truthy_value (confluencePass c); timeframePass c; riskRewardPass c;
    entryReady c; regimeAccepts c ].

Definition generateFinalSignal (result : AdvancedAnalysisResult) : FinalSignal :=
  let checks := checks_of result in
  let passedChecks := count_true (checks_values checks) in
  let confidence :=
    round (of_nat passedChecks / of_nat (List.length (checks_values checks)) * 100) in
  if negb (truthy_value (confluencePass checks)) || negb (riskRewardPass checks) then
    {| signal := SKIP; confidence := 0;
       finalReason := "Failed confluence or risk/reward filters" |}
  else if (passedChecks =? 5)%nat then
    {| signal := STRONG_BUY; confidence := confidence;
       finalReason := "All checks passed - ideal setup" |}
  else if (4 <=? passedChecks)%nat then
    {| signal := BUY; confidence := confidence;
       finalReason := "Most checks passed - good setup" |}
  else if (3 <=? passedChecks)%nat then
    {| signal := NEUTRAL; confidence := confidence;
       finalReason := "Mixed signals - use caution" |}
  else
    {| signal := SKIP; confidence := confidence;
       finalReason := "Insufficient confluent signals" |}.

End AdvancedAnalysis.

(* ================================================================== *)
(** * server/telegram.ts: the win-rate tracker *)
(* ================================================================== *)

Module WinRate.

Inductive SignalType := ST_STRONG_BUY | ST_BUY | ST_NEUTRAL | ST_SELL | ST_STRONG_SELL.
Inductive Outcome := win | loss | breakeven.

(** Timestamps are finite numbers (the values of [Date.now()]), kept as
    rationals: on a [NaN] timestamp the comparator of the eviction sort is
    inconsistent and the order JavaScript produces is implementation-defined. *)
Record SignalRecord := {
  id : string;
  timestamp : Q;
  symbol : string;
  entryPrice : number;
  takeProfitPrice : number;
  stopLossPrice : number;
  signalType : SignalType;
  confidence : number;
  confluencePercent : number;
  patternDetected : option string;
  adxValue : number;
  rsiValue : number;
  macdSignal : string;
  exitPrice : option number;
  exitTime : option number;
  outcome : option Outcome;
  profitLoss : option number;
  profitLossPercent : option number;
  notes : option string
}.

Record PatternStat := {
  pattern : string;
  patternWinRate : number;
  count : nat
}.

Record WinRateAnalysis := {
  totalSignals : nat;
  winningSignals : nat;
  losingSignals : nat;
  breakevenSignals : nat;
  winRate : number;
  averageWin : number;
  averageLoss : number;
  profitFactor : number;
  expectancy : number;
  sharpeRatio : number;
  topPatterns : list PatternStat;
  bestTimeframe : string;
  confidenceCorrelation : number
}.

(** ** [Map<string, V>]: entries in insertion order, one per key *)

Section MapModel.
Variable V : Type.

Definition Map := list (string * V).

(** [m.set(k, v)]: an existing key keeps its place, a new one goes last *)
Fixpoint Map_set (k : string) (v : V) (m : Map) : Map :=
  match m with
  | [] => [(k, v)]
  | (k', v') :: m' =>
      if String.eqb k' k then (k, v) :: m' else (k', v') :: Map_set k v m'
  end.

Fixpoint Map_get (k : string) (m : Map) : option V :=
  match m with
  | [] => None
  | (k', v') :: m' => if String.eqb k' k then Some v' else Map_get k m'
  end.

Definition Map_delete (k : string) (m : Map) : Map :=
  filter (fun e => negb (String.eqb (fst e) k)) m.

Definition Map_has (k : string) (m : Map) : bool :=
  existsb (fun e => String.eqb (fst e) k) m.

Definition Map_size (m : Map) : nat := List.length m.
Definition Map_values (m : Map) : list V := map snd m.

End MapModel.

(** ** [Array.prototype.sort] with a consistent comparator: a stable sort.
    [before a b] says that the comparator is negative on [(a, b)]. *)

Section StableSort.
Variable A : Type.
Variable before : A -> A -> bool.

Fixpoint insert_sorted (x : A) (l : list A) : list A :=
  match l with
  | [] => [x]
  | y :: l' => if before y x then y :: insert_sorted x l' else x :: y :: l'
  end.

Definition sort_by (l : list A) : list A := fold_right insert_sorted [] l.

End StableSort.

(** ** The tracker *)

Definition Tracker := Map SignalRecord.

Definition new_tracker : Tracker := [].

Definition MAX_SIGNALS : nat := 10000.

(** [(a, b) => a[1].timestamp - b[1].timestamp] is negative *)
Definition older (a b : string * SignalRecord) : bool :=
  match (timestamp (snd a) ?= timestamp (snd b))%Q with Lt => true | _ => false end.

Definition recordSignal (signal : SignalRecord) (signals : Tracker) : Tracker :=
  let signals := Map_set (id signal) signal signals in
  if (MAX_SIGNALS <? Map_size signals)%nat then
    match sort_by older signals with
    | (oldestKey, _) :: _ => Map_delete oldestKey signals
    | [] => signals
    end
  else signals.

Definition updateSignalExit (signalId : string) (exitPrice exitTime : number)
    (notes : option string) (signals : Tracker) : Tracker :=
  match Map_get signalId signals with
  | None => signals
  | Some signal =>
      let profitLoss := exitPrice ⊖ entryPrice signal in
      let profitLossPercent := profitLoss ⊘ entryPrice signal ⊗ 100 in
      let outcome :=
        if profitLoss >? F64.double (1 # 100) then win
        else if profitLoss <? F64.double (-1 # 100) then loss
        else breakeven in
      Map_set signalId
        {| id := id signal; timestamp := timestamp signal; symbol := symbol signal;
           entryPrice := entryPrice signal;
           takeProfitPrice := takeProfitPrice signal;
           stopLossPrice := stopLossPrice signal;
           signalType := signalType signal; confidence := confidence signal;
           confluencePercent := confluencePercent signal;
           patternDetected := patternDetected signal;
           adxValue := adxValue signal; rsiValue := rsiValue signal;
           macdSignal := macdSignal signal;
           exitPrice := Some exitPrice; exitTime := Some exitTime;
           outcome := Some outcome; profitLoss := Some profitLoss;
           profitLossPercent := Some profitLossPercent; notes := notes |}
        signals
  end.

(** [(a, b) => b.timestamp - a.timestamp] is negative *)
Definition newer (a b : SignalRecord) : bool :=
  match (timestamp b ?= timestamp a)%Q with Lt => true | _ => false end.

Definition getSignalsBySymbol (sym : string) (signals : Tracker) : list SignalRecord :=
  sort_by newer (filter (fun s => String.eqb (symbol s) sym) (Map_values signals)).

Definition is_outcome (o : Outcome) (s : SignalRecord) : bool :=
  match outcome s, o with
  | Some win, win | Some loss, loss | Some breakeven, breakeven => true
  | _, _ => false
  end.

(** [s.outcome] as a condition: any outcome that is set *)
Definition has_outcome (s : SignalRecord) : bool :=
  match outcome s with Some _ => true | None => false end.

(** [s.profitLossPercent || 0] *)
Definition pct_or_0 (s : SignalRecord) : number :=
  match profitLossPercent s with
  | Some p => p ||| 0
  | None => 0
  end.

(** [Math.round(x * 100) / 100], in binary64 as every statistic of this
    module: the two decimals depend on how the quotient and the product
    round. *)
Definition round2 (x : number) : number := round (x ⊗ 100) ⊘ 100.

(** [patternStats]: one [{wins, count}] per pattern name, in the order the
    names were first seen.  (Names that are canonical array indices, which an
    object enumerates first, or names of [Object.prototype] members are not
    modelled.) *)
Definition bump (won : bool) (p : string) (stats : Map (nat * nat)) : Map (nat * nat) :=
  let '(wins, n) :=
    match Map_get p stats with Some wc => wc | None => (0, 0)%nat end in
  Map_set p ((if won then S wins else wins), S n) stats.

Definition patternStats_of (allSignals : list SignalRecord) : Map (nat * nat) :=
  fold_left
    (fun stats s =>
       match patternDetected s with
       | Some p => if String.eqb p "" then stats else bump (is_outcome win s) p stats
       | None => stats
       end)
    allSignals [].

(** [(a, b) => b.winRate - a.winRate] is negative *)
Definition better (a b : PatternStat) : bool :=
  patternWinRate b ⊖ patternWinRate a <? 0.

Section Analysis.

(** [Math.sqrt] on non-negative rationals *)
Variable sqrtQ : Q -> Q.

(** [now] is the value of [Date.now()] at the call. *)
Definition cutoff_of (now lookbackDays : Q) : Q :=
  (now - lookbackDays * 24 * 60 * 60 * 1000)%Q.

Definition in_window (cutoff : Q) (s : SignalRecord) : bool :=
  match (cutoff ?= timestamp s)%Q with Lt => true | _ => false end && has_outcome s.

Definition allSignals_of (now lookbackDays : Q) (signals : Tracker) : list SignalRecord :=
  let cutoff := cutoff_of now lookbackDays in
  sort_by newer (filter (in_window cutoff) (Map_values signals)).

Definition analyzeWinRate (now lookbackDays : Q) (signals : Tracker) : WinRateAnalysis :=
  let allSignals := allSignals_of now lookbackDays signals in
  if (List.length allSignals =? 0)%nat then
    {| totalSignals := 0; winningSignals := 0; losingSignals := 0;
       breakevenSignals := 0; winRate := 0; averageWin := 0; averageLoss := 0;
       profitFactor := 0; expectancy := 0; sharpeRatio := 0; topPatterns := [];
       bestTimeframe := "N/A"; confidenceCorrelation := 0 |}
  else
    let winningSignals := List.length (filter (is_outcome win) allSignals) in
    let losingSignals := List.length (filter (is_outcome loss) allSignals) in
    let breakevenSignals := List.length (filter (is_outcome breakeven) allSignals) in
    let wins := filter (is_outcome win) allSignals in
    let losses := filter (is_outcome loss) allSignals in
    let totalGains := fold_left (fun sum s => sum ⊕ pct_or_0 s) wins 0 in
    let totalLosses := fold_left (fun sum s => sum ⊕ abs (pct_or_0 s)) losses 0 in
    let averageWin :=
      if (0 <? List.length wins)%nat then totalGains ⊘ of_nat (List.length wins) else 0 in
    let averageLoss :=
      if (0 <? List.length losses)%nat then totalLosses ⊘ of_nat (List.length losses) else 0 in
    let profitFactor := if totalLosses >? 0 then totalGains ⊘ totalLosses else 999 in
    let expectancy :=
      of_nat winningSignals ⊘ of_nat (List.length allSignals) ⊗ averageWin
      ⊖ of_nat losingSignals ⊘ of_nat (List.length allSignals) ⊗ averageLoss in
    let returns := map pct_or_0 allSignals in
    let avgReturn := fold_left F64.add returns 0 ⊘ of_nat (List.length returns) in
    let variance :=
      fold_left (fun sum r => sum ⊕ F64.sq (r ⊖ avgReturn)) returns 0
      ⊘ of_nat (List.length returns) in
    let stdDev := F64.Math_sqrt sqrtQ variance ||| 1 in
    let sharpeRatio := avgReturn ⊘ stdDev ⊗ F64.Math_sqrt sqrtQ 252 in
    let patternStats := patternStats_of allSignals in
    let topPatterns :=
      firstn 5
        (sort_by better
           (map (fun e =>
                   {| pattern := fst e;
                      patternWinRate :=
                        round (of_nat (fst (snd e)) ⊘ of_nat (snd (snd e)) ⊗ 100);
                      count := snd (snd e) |})
                patternStats)) in
    let highConfidence := filter (fun s => confidence s >=? 80) allSignals in
    let lowConfidence := filter (fun s => confidence s <? 80) allSignals in
    let highWinRate :=
      if (0 <? List.length highConfidence)%nat
      then of_nat (List.length (filter (is_outcome win) highConfidence))
           ⊘ of_nat (List.length highConfidence) ⊗ 100
      else 0 in
    let lowWinRate :=
      if (0 <? List.length lowConfidence)%nat
      then of_nat (List.length (filter (is_outcome win) lowConfidence))
           ⊘ of_nat (List.length lowConfidence) ⊗ 100
      else 0 in
    let confidenceCorrelation := highWinRate ⊖ lowWinRate in
    {| totalSignals := List.length allSignals;
       winningSignals := winningSignals;
       losingSignals := losingSignals;
       breakevenSignals := breakevenSignals;
       winRate := round (of_nat winningSignals ⊘ of_nat (List.length allSignals) ⊗ 100);
       averageWin := round2 averageWin;
       averageLoss := round2 averageLoss;
       profitFactor := round2 profitFactor;
       expectancy := round2 expectancy;
       sharpeRatio := round2 sharpeRatio;
       topPatterns := topPatterns;
       bestTimeframe := "1h";
       confidenceCorrelation := round confidenceCorrelation |}.

End Analysis.

End WinRate.

(* ================================================================== *)
(** * server/advanced-analysis.ts: the remaining functions *)
(* ================================================================== *)

Module AnalysisRules.
Import AdvancedAnalysis.

(** ** Multi-timeframe alignment *)

Inductive TrendDirection := up | down | sideways.

Record TimeframeData := {
  timeframe : string;
  tf_rsi : number;
  tf_macdSignal : string;
  trendDirection : TrendDirection;
  tf_strength : number
}.

Definition is_up (tf : TimeframeData) : bool :=
  match trendDirection tf with up => true | _ => false end.
Definition is_down (tf : TimeframeData) : bool :=
  match trendDirection tf with down => true | _ => false end.

Definition analyzeMultiTimeframe (timeframes : list TimeframeData) : string :=
  if (List.length timeframes =? 0)%nat then "neutral"
  else
    let bullish := List.length (filter is_up timeframes) in
    let bearish := List.length (filter is_down timeframes) in
    if (bullish =? List.length timeframes)%nat then "strong-bullish"
    else if (bearish =? List.length timeframes)%nat then "strong-bearish"
    else if (bearish + 1 <? bullish)%nat then "bullish"
    else if (bullish + 1 <? bearish)%nat then "bearish"
    else "neutral".

(** ** Divergence *)

Inductive DivergenceType := div_bullish | div_bearish | div_none.
Inductive DivergenceIndicator := on_rsi | on_macd | on_price.
Inductive DivergenceStrength := div_weak | div_moderate | div_strong.

Record DivergenceSignal := {
  div_type : DivergenceType;
  div_indicator : DivergenceIndicator;
  div_strength : DivergenceStrength;
  description : string
}.

(** [l.slice(0, -1)] is [removelast l]. *)
Definition detectDivergence (priceHistory rsiHistory : list number) : DivergenceSignal :=
  if (List.length priceHistory <? 5)%nat then
    {| div_type := div_none; div_indicator := on_price; div_strength := div_weak;
       description := "Insufficient data" |}
  else
    let recentPrice := slice_last 5 priceHistory in
    let recentRSI := slice_last 5 rsiHistory in
    let priceNewLow := last_elem recentPrice <? min_list (removelast recentPrice) in
    let rsiNotLow := last_elem recentRSI >? min_list (removelast recentRSI) + 5 in
    if priceNewLow && rsiNotLow then
      {| div_type := div_bullish; div_indicator := on_rsi; div_strength := div_strong;
         description := "Price makes new low but RSI diverges - potential reversal" |}
    else
      let priceNewHigh := last_elem recentPrice >? max_list (removelast recentPrice) in
      let rsiNotHigh := last_elem recentRSI <? max_list (removelast recentRSI) - 5 in
      if priceNewHigh && rsiNotHigh then
        {| div_type := div_bearish; div_indicator := on_rsi; div_strength := div_strong;
           description := "Price makes new high but RSI diverges - potential reversal" |}
      else
        {| div_type := div_none; div_indicator := on_price; div_strength := div_weak;
           description := "No divergence detected" |}.

(** ** Market regime *)

Definition determineMarketRegime (adxValue atrPercent : number)
    (priceHistory : list number) : result MarketRegime :=
  let volatility :=
    if atrPercent >? 3 then vol_extreme
    else if atrPercent >? 2 then vol_high
    else if atrPercent >? 1 then vol_medium
    else vol_low in
  regime <-
    (if adxValue >? 25 then
       let recent := slice_last 5 priceHistory in
       let range := max_list recent - min_list recent in
       total <- sum1 recent ;;
       let avgPrice := total / of_nat (List.length recent) in
       Ok (if range / avgPrice >? Fin (1 # 50) then breakout else trending)
     else
       let recentHigh := max_list (slice_last 10 priceHistory) in
       let recentLow := min_list (slice_last 10 priceHistory) in
       Ok (if abs (recentHigh - recentLow) / recentLow <? Fin (1 # 100)
           then reversal else ranging)) ;;
  let recommendation :=
    match regime with
    | trending =>
        if adxValue >? 30 then "Follow the trend, use breakouts"
        else "Trade with trend confirmation"
    | ranging => "Trade support/resistance bounces, avoid breakouts"
    | breakout => "Enter on breakout with stop behind support/resistance"
    | reversal => "Watch for reversal setup, take divergence signals seriously"
    end in
  Ok {| regime := regime; adxValue := adxValue; volatility := volatility;
        recommendation := recommendation |}.

(** ** Chart patterns *)

Inductive Direction := dir_bullish | dir_bearish.

Record PatternSignal := {
  pattern : string;
  pattern_confidence : number;
  direction : Direction;
  breakoutLevel : number
}.

(** [(a, b) => a - b] is negative.  (On samples that are [NaN] this comparator
    is inconsistent and the order JavaScript produces is left open by the
    language; nothing below is stated for such windows.) *)
Definition ascending (a b : number) : bool := a - b <? 0.

(** The swing highs and lows of the window: the loop over [i < length - 1]. *)
Definition swings (recent : list number) : list number * list number :=
  fold_left
    (fun (acc : list number * list number) (n : nat) =>
       let '(recentHighs, recentLows) := acc in
       let i := Z.of_nat n in
       let recentHighs :=
         if (get recent i >? (get recent (i - 1) ||| 0))
            && (get recent i >? (get recent (i + 1) ||| 0))
         then (recentHighs ++ [get recent i])%list else recentHighs in
       let recentLows :=
         if (get recent i <? (get recent (i - 1) ||| 0))
            && (get recent i <? (get recent (i + 1) ||| 0))
         then (recentLows ++ [get recent i])%list else recentLows in
       (recentHighs, recentLows))
    (seq 0 (List.length recent - 1)) ([], []).

Definition triangle_of (recent : list number) : list PatternSignal :=
  let current := last_elem recent in
  let '(recentHighs, recentLows) := swings recent in
  if (2 <=? List.length recentHighs)%nat && (2 <=? List.length recentLows)%nat then
    let highsDecreasing := last_elem recentHighs <? get recentHighs 0 in
    let lowsIncreasing := last_elem recentLows >? get recentLows 0 in
    if highsDecreasing && lowsIncreasing then
      let bullish := current >? (last_elem recentHighs + last_elem recentLows) / 2 in
      [{| pattern := "triangle"; pattern_confidence := 75;
          direction := if bullish then dir_bullish else dir_bearish;
          breakoutLevel :=
            if bullish then last_elem recentHighs * Fin (101 # 100)
            else last_elem recentLows * Fin (99 # 100) |}]
    else []
  else [].

Definition cup_handle_of (recent : list number) : list PatternSignal :=
  let current := last_elem recent in
  if (8 <=? List.length recent)%nat then
    let mid := (List.length recent / 2)%nat in
    let leftHalf := firstn mid recent in
    let rightHalf := skipn mid recent in
    let leftLow := min_list leftHalf in
    let rightLow := min_list rightHalf in
    let handle := max_list (slice_last 3 rightHalf) in
    if (leftLow <? current) && (rightLow >? leftLow) && (handle <? max_list leftHalf) then
      [{| pattern := "cup_handle"; pattern_confidence := 80; direction := dir_bullish;
          breakoutLevel := max_list leftHalf * Fin (101 # 100) |}]
    else []
  else [].

Definition double_bottom_of (recent : list number) : list PatternSignal :=
  let sortedLows := WinRate.sort_by ascending recent in
  if (get sortedLows 0 === get sortedLows 1)
     && (get sortedLows 0 <? get sortedLows 2 * Fin (49 # 50)) then
    [{| pattern := "double_bottom"; pattern_confidence := 70; direction := dir_bullish;
        breakoutLevel := get sortedLows 2 * Fin (101 # 100) |}]
  else [].

(** The three detectors push onto [patterns] in this order. *)
Definition recognizePatterns (priceHistory : list number) : list PatternSignal :=
  if (List.length priceHistory <? 10)%nat then []
  else
    let recent := slice_last 20 priceHistory in
    (triangle_of recent ++ cup_handle_of recent ++ double_bottom_of recent)%list.

(** ** Smart entry *)

(** What [determineSmartEntry] reads of its untyped [indicators] argument:
    [overall.score], and [bollinger.position] and [bollinger.lower] when
    [bollinger] is there. *)
Record BandView := { band_position : string; band_lower : number }.
Record EntryIndicators := { entry_score : number; entry_bollinger : option BandView }.

Definition determineSmartEntry (indicators : EntryIndicators)
    (priceHistory : list number) (patterns : list PatternSignal) : SmartEntry :=
  let current := last_elem priceHistory in
  let previous := get priceHistory (len priceHistory - 2) in
  let candleClosedAboveLevel := current >? previous in
  if (entry_score indicators >=? 80) && (0 <? List.length patterns)%nat then
    {| shouldEnter := true; reason := "High confluence + pattern confirmation";
       entryType := immediate; smartEntryPrice := current; entryWaitTime := 0 |}
  else if (entry_score indicators >=? 70) && negb candleClosedAboveLevel then
    {| shouldEnter := true; reason := "Wait for candle confirmation above level";
       entryType := candle_confirmation;
       smartEntryPrice := current * Fin (201 # 200); entryWaitTime := 5 |}
  else if match entry_bollinger indicators with
          | Some band => includes (band_position band) "Lower"
          | None => false
          end then
    {| shouldEnter := true; reason := "Watch for bounce from lower Bollinger band";
       entryType := support_bounce;
       smartEntryPrice :=
         match entry_bollinger indicators with
         | Some band => band_lower band
         | None => NaN
         end;
       entryWaitTime := 0 |}
  else if (0 <? List.length patterns)%nat && (entry_score indicators >=? 60) then
    {| shouldEnter := true; reason := "Pattern breakout setup detected";
       entryType := entry_breakout;
       smartEntryPrice :=
         match patterns with
         | first :: _ => breakoutLevel first
         | [] => NaN
         end;
       entryWaitTime := 0 |}
  else
    {| shouldEnter := false; reason := "No high-confidence entry setup detected";
       entryType := immediate; smartEntryPrice := current; entryWaitTime := 0 |}.

(** ** Win-rate statistics of a trading history *)

Record Trade := {
  trade_pattern : option string;
  trade_entry : number;
  trade_exit : number;
  trade_won : bool
}.

Record WinRateStats := {
  totalSignals : nat;
  winningSignals : nat;
  losingSignals : nat;
  winRate : number;
  averageWin : number;
  averageLoss : number;
  profitFactor : number;
  bestPatterns : list string
}.

(** [(t.exit - t.entry) / t.entry * 100] *)
Definition gain_percent (t : Trade) : number :=
  (trade_exit t - trade_entry t) / trade_entry t * 100.

(** [patternWinRates]: the wins of each pattern name, in the order the names
    were first seen.  (Names that are canonical array indices, which an object
    enumerates first, or names of [Object.prototype] members are not
    modelled.) *)
Definition patternWinRates_of (tradingHistory : list Trade) : WinRate.Map nat :=
  fold_left
    (fun wins t =>
       match trade_pattern t with
       | Some p =>
           if String.eqb p "" then wins
           else
             let sofar := match WinRate.Map_get p wins with Some c => c | None => 0%nat end in
             WinRate.Map_set p (if trade_won t then S sofar else sofar) wins
       | None => wins
       end)
    tradingHistory [].

(** [(a, b) => b[1] - a[1]] is negative *)
Definition more_wins (a b : string * nat) : bool := (snd b <? snd a)%nat.

Definition calculateWinRateStats (tradingHistory : list Trade) : WinRateStats :=
  if (List.length tradingHistory =? 0)%nat then
    {| totalSignals := 0; winningSignals := 0; losingSignals := 0; winRate := 0;
       averageWin := 0; averageLoss := 0; profitFactor := 0; bestPatterns := [] |}
  else
    let winning := filter trade_won tradingHistory in
    let losing := filter (fun t => negb (trade_won t)) tradingHistory in
    let totalWins := fold_left (fun sum t => sum + gain_percent t) winning 0 in
    let totalLosses := fold_left (fun sum t => sum + gain_percent t) losing 0 in
    let bestPatterns :=
      map fst (firstn 3 (WinRate.sort_by more_wins (patternWinRates_of tradingHistory))) in
    {| totalSignals := List.length tradingHistory;
       winningSignals := List.length winning;
       losingSignals := List.length losing;
       winRate :=
         round (of_nat (List.length winning) / of_nat (List.length tradingHistory) * 100);
       averageWin :=
         if (0 <? List.length winning)%nat
         then totalWins / of_nat (List.length winning) else 0;
       averageLoss :=
         if (0 <? List.length losing)%nat
         then totalLosses / of_nat (List.length losing) else 0;
       profitFactor := abs (totalWins / (totalLosses ||| 1));
       bestPatterns := bestPatterns |}.

End AnalysisRules.

(* ================================================================== *)
(** * Statement vocabulary and sample inputs *)
(* ================================================================== *)

(** A square root to eight decimals (rounded down), to run the code with. *)
Definition sqrt_approx (q : Q) : Q :=
  Qmake (Z.sqrt (Qnum q * 10 ^ 16 / Zpos (Qden q))) (10 ^ 8).

Module Samples.
Import AdvancedAnalysis.

(** ** The five gates of the final signal, as the specification words them *)

Definition gate_confluence (r : AdvancedAnalysisResult) : bool :=
  match confluence r with
  | Some c => confluencePercent c >=? 60
  | None => false
  end.

Definition gate_timeframe (r : AdvancedAnalysisResult) : bool :=
  match timeframeAlignment r with
  | Some a => String.eqb a "bullish" || String.eqb a "strong-bullish"
  | None => false
  end.

Definition gate_riskReward (r : AdvancedAnalysisResult) : bool :=
  match riskReward r with
  | Some rr => isValid rr
  | None => false
  end.

Definition gate_entry (r : AdvancedAnalysisResult) : bool :=
  match smartEntry r with
  | Some e => shouldEnter e
  | None => false
  end.

(** An absent regime is not the regime "ranging". *)
Definition gate_regime (r : AdvancedAnalysisResult) : bool :=
  match marketRegime r with
  | Some m => match regime m with ranging => false | _ => true end
  | None => true
  end.

Definition passedGates (r : AdvancedAnalysisResult) : nat :=
  count_true [gate_confluence r; gate_timeframe r; gate_riskReward r;
              gate_entry r; gate_regime r].

Definition classify (passed : nat) : Signal :=
  match passed with
  | 5%nat => STRONG_BUY
  | 4%nat => BUY
  | 3%nat => NEUTRAL
  | _ => SKIP
  end.

(** The percentage is missing, zero or not a number. *)
Definition confluence_blank (r : AdvancedAnalysisResult) : bool :=
  match confluence r with
  | Some c => negb (truthy (confluencePercent c))
  | None => true
  end.

(** ** Analysis results used as test points *)

Definition confluence_of (p : number) : ConfluenceScore :=
  {| totalIndicators := 10%nat; agreeingIndicators := 4%nat; confluencePercent := p;
     bullishCount := 4%nat; bearishCount := 1%nat; confidenceLevel := high;
     tradeable := p >=? 60 |}.

Definition setup_of (valid : bool) : RiskRewardSetup :=
  {| entryPrice := 100; takeProfit := 106; stopLoss := 97;
     riskRewardRatio := 2; isValid := valid; positionSize := Fin (666667 # 100);
     potentialGain := 6; potentialLoss := 3 |}.

Definition regime_of (g : Regime) : MarketRegime :=
  {| regime := g; adxValue := 30; volatility := vol_medium;
     recommendation := "Follow the trend, use breakouts" |}.

Definition entry_of (enter : bool) : SmartEntry :=
  {| shouldEnter := enter; reason := "High confluence + pattern confirmation";
     entryType := immediate; smartEntryPrice := 100; entryWaitTime := 0 |}.

Definition analysis (p : number) (align : string) (valid enter : bool) (g : Regime)
  : AdvancedAnalysisResult :=
  {| confluence := Some (confluence_of p);
     timeframeAlignment := Some align;
     riskReward := Some (setup_of valid);
     marketRegime := Some (regime_of g);
     smartEntry := Some (entry_of enter) |}.

(** Confluence 50%, every other gate open. *)
Definition analysis_weak_confluence := analysis 50 "bullish" true true trending.
(** Risk/reward invalid, every other gate open. *)
Definition analysis_bad_ratio := analysis 80 "bullish" false true trending.
(** Confluence 80%, risk/reward valid, entry not ready. *)
Definition analysis_four_of_five := analysis 80 "strong-bullish" true false breakout.

(** ** Risk/reward levels before the output is rounded *)

(** Stop-loss = entry - 1.5 ATR, moved to just under support when that value
    sits above support. *)
Definition stop_level (entry support atr : number) : number :=
  let raw := entry ⊖ atr ⊗ Fin (3 # 2) in
  if raw >? support then support ⊗ F64.double (99 # 100) else raw.

(** Take-profit = entry + 3 ATR, moved to just over resistance when that
    value sits below resistance. *)
Definition target_level (entry resistance atr : number) : number :=
  let raw := entry ⊕ atr ⊗ 3 in
  if raw <? resistance then resistance ⊗ F64.double (101 # 100) else raw.

(** Reward over risk, as computed. *)
(** Reward over risk, as the code divides them. *)
Definition ratio_of (entry stop target : number) : number :=
  (target ⊖ entry) ⊘ (entry ⊖ stop).

(** [x] is a finite number within [tol] of [q]. *)
Definition near (x : number) (q tol : Q) : Prop :=
  exists v : Q, x = Fin v /\ (Qabs (v - q) <= tol)%Q.

(** What the rounding to a double may add to a tolerance around [q]: one part
    in 2^53, generously. *)
Definition ulp_slack (q : Q) : Q := ((Qabs q + 1) * 2 ^ (-53))%Q.

(** [x] is the number [y] up to [tol] and one rounding to a double; where [y]
    is infinite or not a number, [x] is the same. *)
Definition close_to (x y : number) (tol : Q) : Prop :=
  match y with
  | Fin q => near x q (tol + ulp_slack q)
  | _ => x = y
  end.


(** A micro-priced token: entry 0.00000002, support 0.000000019, resistance
    0.000000021, ATR 0.000000001. *)
Definition micro_entry : number := F64.double (1 # 50000000).
Definition micro_support : number := F64.double (19 # 1000000000).
Definition micro_resistance : number := F64.double (21 # 1000000000).
Definition micro_atr : number := F64.double (1 # 1000000000).
Definition setup_micro : RiskRewardSetup :=
  calculateRiskReward micro_entry micro_support micro_resistance micro_atr 2.

(** Negative levels: entry -99.5, support -100, resistance -99, ATR 0.1. *)
Definition setup_negative : RiskRewardSetup :=
  calculateRiskReward (Fin (-199 # 2)) (-100) (-99) (F64.double (1 # 10)) 2.

(** The scenario of the specification. *)
Definition setup_scenario : RiskRewardSetup := calculateRiskReward 100 97 103 2 2.

(** A setup on the edge: entry 100, support 99.9, resistance 100.1, ATR 0.1.
    The distances are 0.15 and 0.3, a ratio of exactly 2 on paper. *)
Definition setup_edge : RiskRewardSetup :=
  calculateRiskReward 100 (F64.double (999 # 10)) (F64.double (1001 # 10))
    (F64.double (1 # 10)) 2.

(** ** Indicator labels used as test points *)

Definition labels (sig band vw obv : string) : ConfluenceInput :=
  {| rsi_value := 55; rsi_signal := sig; macd_signal := sig; ema_signal := sig;
     bollinger_position := band; vwap_price_vs_vwap := vw; adx_strength := "Weak";
     stoch_signal := sig; ichimoku_cloud_signal := sig; obv_trend := obv;
     atr_volatility := "Low" |}.

(** Nothing fires. *)
Definition labels_quiet := labels "Neutral" "Middle" "Near VWAP (Consolidation)" "Neutral".
(** Labels that carry the bullish and the bearish marker at once. *)
Definition labels_mixed := labels "Bullish/Bearish" "Upper/Lower" "Above/Below" "Bullish".
(** Labels as the calculators print them: three bullish, one bearish... *)
Definition labels_typical :=
  {| rsi_value := 63; rsi_signal := "Strong Bullish"; macd_signal := "Weak Bullish";
     ema_signal := "Strong Bullish Alignment"; bollinger_position := "Upper Half";
     vwap_price_vs_vwap := "Near VWAP (Consolidation)"; adx_strength := "Moderate";
     stoch_signal := "Neutral"; ichimoku_cloud_signal := "Neutral";
     obv_trend := "Neutral"; atr_volatility := "Low" |}.

(** No position carries both markers. *)
Definition exclusive (i : ConfluenceInput) : bool :=
  forallb (fun p => negb (fst p && snd p)) (combine (bullishSignals i) (bearishSignals i)).

End Samples.

Module LedgerSamples.
Import WinRate.

(** One entry per key: what a [Map] guarantees by construction. *)
Definition keys_unique (V : Type) (m : Map V) : Prop := NoDup (map fst m).

(** The trackers that the class can hold: the private map starts empty and is
    only touched by [recordSignal] and [updateSignalExit]. *)
Inductive reachable : Tracker -> Prop :=
| reach_new : reachable new_tracker
| reach_record (s : SignalRecord) (t : Tracker) :
    reachable t -> reachable (recordSignal s t)
| reach_update (i : string) (price time : number) (n : option string) (t : Tracker) :
    reachable t -> reachable (updateSignalExit i price time n t).

(** A signal that is still open. *)
Definition open_signal (i : string) (t : Q) (entry : number) : SignalRecord :=
  {| id := i; timestamp := t; symbol := "SOL"; entryPrice := entry;
     takeProfitPrice := entry * Fin (53 # 50); stopLossPrice := entry * Fin (97 # 100);
     signalType := ST_BUY; confidence := 80; confluencePercent := 75;
     patternDetected := Some "triangle"; adxValue := 30; rsiValue := 55;
     macdSignal := "Weak Bullish";
     exitPrice := None; exitTime := None; outcome := None;
     profitLoss := None; profitLossPercent := None; notes := None |}.

(** Distinct ids for distinct numbers: the binary digits, lowest first. *)
Fixpoint pos_id (p : positive) : string :=
  match p with
  | xH => "1"
  | xO p' => String "0" (pos_id p')
  | xI p' => String "1" (String "." (pos_id p'))
  end.

(** The [p]-th signal of a run: recorded at millisecond [1000 + p]. *)
Definition run_signal (p : positive) : SignalRecord :=
  open_signal (pos_id p) (inject_Z (1000 + Zpos p)) 100.

(** [n] consecutive signals of the run, from the [p]-th on, in the order
    recorded. *)
Fixpoint run (n : nat) (p : positive) : Tracker :=
  match n with
  | O => []
  | S n' => (pos_id p, run_signal p) :: run n' (Pos.succ p)
  end.

(** A ledger at capacity: signals 1 .. 10000. *)
Definition full_ledger : Tracker := run MAX_SIGNALS 1.

(** A late arrival: stamped before everything in [full_ledger]. *)
Definition stale_signal : SignalRecord := open_signal "stale" 5 100.
(** The next signal of the run. *)
Definition fresh_signal : SignalRecord := open_signal "fresh" 20000 100.

(** ** Win-rate queries *)

(** The closed winners and losers of a query, and what they add up to, summed
    in the order of the query as the code sums them. *)
Definition winners (now days : Q) (t : Tracker) : list SignalRecord :=
  filter (is_outcome win) (allSignals_of now days t).
Definition losers (now days : Q) (t : Tracker) : list SignalRecord :=
  filter (is_outcome loss) (allSignals_of now days t).
Definition total_gains (now days : Q) (t : Tracker) : number :=
  F64.sum (map pct_or_0 (winners now days t)).
Definition total_losses (now days : Q) (t : Tracker) : number :=
  F64.sum (map (fun s => abs (pct_or_0 s)) (losers now days t)).

(** Two signals entered at 100 and closed out at [exitA] and [exitB]. *)
Definition two_trades (exitA exitB : number) : Tracker :=
  updateSignalExit "B" exitB 4000 None
    (updateSignalExit "A" exitA 3000 (Some "target hit")
       (recordSignal (open_signal "B" 2000 100)
          (recordSignal (open_signal "A" 1000 100) new_tracker))).

(** One win of +5% and one loss of -2%. *)
Definition ledger_scenario : Tracker := two_trades 105 98.
(** One win of +1% and one loss of -3%. *)
Definition ledger_thirds : Tracker := two_trades 101 97.
(** One win of +23% and one loss of -40%. *)
Definition ledger_rounding : Tracker := two_trades 123 60.
(** One day after the epoch, in milliseconds. *)
Definition day_one : Q := 86400000.

End LedgerSamples.

Module IndicatorSamples.
Import Indicators.

(** The analysis a call returns, without the state of the random source. *)
Definition analysis_of (r : result (IndicatorAnalysis * Rng)) : result IndicatorAnalysis :=
  match r with
  | Ok (a, _) => Ok a
  | Throw e => Throw e
  end.

(** The random source after a call (unchanged if the call raised). *)
Definition rng_after (g : Rng) (r : result (IndicatorAnalysis * Rng)) : Rng :=
  match r with
  | Ok (_, g') => g'
  | Throw _ => g
  end.

(** The fields computed from the price history alone. *)
Definition price_fields (a : IndicatorAnalysis) :=
  (rsi a, macd a, ema a, bollinger a, atr a, stoch a, adx a, ichimoku a).

Definition price_part (r : result (IndicatorAnalysis * Rng)) :=
  match r with
  | Ok (a, _) => Ok (price_fields a)
  | Throw e => Throw e
  end.

(** Two random sources deliver the same next [n] draws. *)
Definition same_draws (n : nat) (g g' : Rng) : Prop :=
  forall i : nat, (i < n)%nat -> draws g (cursor g + i) = draws g' (cursor g' + i).

(** What [calculateMACD] reports once it has its histogram value. *)
Definition macd_reading (histogram : number) : MacdResult :=
  {| macd_histogram := toFixed histogram 4;
     macd_signal :=
       if histogram >? Fin (1 # 2) then "Bullish Momentum"
       else if histogram <? Fin (-1 # 2) then "Bearish Momentum"
       else if histogram >? 0 then "Weak Bullish"
       else "Weak Bearish";
     macd_momentum :=
       if abs histogram >? 2 then "Very Strong"
       else if abs histogram >? 1 then "Strong"
       else if abs histogram >? Fin (1 # 2) then "Moderate"
       else "Weak" |}.

(** What [calculateEMACross] returns without looking at its prices. *)
Definition no_cross : EmaResult :=
  {| ema_ema9 := 0; ema_ema21 := 0; ema_alignment := "Insufficient Data";
     ema_signal := "Neutral" |}.

(** A flat window: twenty samples of 100. *)
Definition flat_window : list number := repeat 100 20.

(** Thirty samples rising by one: 100, 101, ..., 129. *)
Definition ramp : list number := map (fun n => of_nat (100 + n)) (seq 0 30).

(** Three samples: shorter than every default period. *)
Definition short_window : list number := [1; 2; 3].

Definition sample_metrics : TokenMetrics :=
  {| price := 100; priceChange24h := 5; priceChange1h := 1; priceChange5m := 0;
     volume24h := 24000; liquidity := 50000; buys24h := 10; sells24h := 8;
     marketCap := 1000000 |}.

(** A supplied price history of two samples. *)
Definition two_prices : list number := [100; Fin (1021 # 10)].

(** A random source whose eighth draw is 0.999 and every other draw 0. *)
Definition sample_rng : Rng :=
  {| draws := fun n => if (n =? 7)%nat then 999 # 1000 else 0%Q; cursor := 0 |}.

(** A random source that differs from [sample_rng] from the 100th draw on. *)
Definition other_rng : Rng :=
  {| draws := fun n => if (n =? 7)%nat then 999 # 1000
                       else if (n <? 100)%nat then 0%Q else 1 # 2;
     cursor := 0 |}.

(** The first and the second of two consecutive calls on the same input. *)
Definition first_call := analyzeIndicators sqrt_approx sample_metrics two_prices sample_rng.
Definition second_call :=
  analyzeIndicators sqrt_approx sample_metrics two_prices (rng_after sample_rng first_call).

End IndicatorSamples.

Module LedgerSamplesMore.
Import WinRate LedgerSamples.

(** Newest first: every record is at least as recent as those after it. *)
Definition newest_first (l : list SignalRecord) : Prop :=
  StronglySorted (fun a b => (timestamp b <= timestamp a)%Q) l.

(** The stored records of a query's window that are closed. *)
Definition closed_in_window (now days : Q) (t : Tracker) : list SignalRecord :=
  filter (in_window (cutoff_of now days)) (Map_values t).

(** A tracker with two open signals, A (entered at 100) and B (entered at 50). *)
Definition two_open : Tracker :=
  recordSignal (open_signal "B" 2000 50) (recordSignal (open_signal "A" 1000 100) new_tracker).

(** A micro-priced signal: entry 0.00000002. *)
Definition micro_signal : SignalRecord :=
  open_signal "M" 3000 (F64.double (1 # 50000000)).

(** The double that the literal [0.01] of the source denotes: a little above
    one hundredth. *)
Definition cent : Q := 5764607523034235 # 576460752303423488.

(** The least price move that is closed as a win: halfway from the double
    0.01 to the next double, [cent + 2^-59].  A move of exactly this size
    rounds to the next double, whose last bit is even. *)
Definition deadband : Q := 11529215046068471 # 1152921504606846976.

End LedgerSamplesMore.

Module Ranges.

(** A number (not [NaN]) that is at least [b]; [Infinity] counts. *)
Definition at_least (b : Q) (x : number) : Prop :=
  match x with
  | Fin q => (b <= q)%Q
  | PosInf => True
  | _ => False
  end.

(** A finite number within [a, b]. *)
Definition between (a b : Q) (x : number) : Prop :=
  match x with
  | Fin q => (a <= q <= b)%Q
  | _ => False
  end.

(** A list of finite numbers. *)
Definition finite_list (qs : list Q) : list number := map Fin qs.

(** Prices that are not negative. *)
Definition nonneg (qs : list Q) : Prop := Forall (fun q => (0 <= q)%Q) qs.

(** Magnitudes that doubles hold with room to spare: nothing computed from a
    few of them by sums, products and squares leaves the range of a double
    (about 1.8e308), and no quotient of theirs by a count drops under the
    smallest double (about 4.9e-324). *)
Definition huge : Q := inject_Z (10 ^ 100).
Definition tiny : Q := 1 # (10 ^ 300)%positive.

(** Values whose magnitudes are at most [huge]. *)
Definition moderate (qs : list Q) : Prop := Forall (fun q => (Qabs q <= huge)%Q) qs.

End Ranges.

Module IndicatorSamplesMore.
Import Indicators IndicatorSamples Ranges.

(** Fifteen samples of 100: a flat window for the default RSI period. *)
Definition flat_prices : list Q := repeat 100%Q 15.

(** A token nobody trades: the sample metrics with a 24h volume of 0. *)
Definition idle_metrics : TokenMetrics :=
  {| price := 100; priceChange24h := 5; priceChange1h := 1; priceChange5m := 0;
     volume24h := 0; liquidity := 50000; buys24h := 0; sells24h := 0;
     marketCap := 1000000 |}.

(** A random source that always draws one half. *)
Definition half_rng : Rng := {| draws := fun _ => 1 # 2; cursor := 0 |}.

(** Fifteen samples rising by a cent: 100.00, 100.01, ..., 100.14. *)
Definition rising_prices : list Q :=
  map (fun n => inject_Z (Z.of_nat (10000 + n)) / 100)%Q (seq 0 15).

(** Twenty finite closes: 100, 101, ..., 119. *)
Definition closes : list Q := map (fun n => inject_Z (Z.of_nat (100 + n))) (seq 0 20).

End IndicatorSamplesMore.

Module RuleSamples.
Import AdvancedAnalysis AnalysisRules Samples.

(** ** Mirroring a set of timeframes: up for down *)

Definition flip_direction (d : TrendDirection) : TrendDirection :=
  match d with up => down | down => up | sideways => sideways end.

Definition flip_tf (tf : TimeframeData) : TimeframeData :=
  {| timeframe := timeframe tf; tf_rsi := tf_rsi tf; tf_macdSignal := tf_macdSignal tf;
     trendDirection := flip_direction (trendDirection tf);
     tf_strength := tf_strength tf |}.

Definition flip_label (s : string) : string :=
  if String.eqb s "strong-bullish" then "strong-bearish"
  else if String.eqb s "strong-bearish" then "strong-bullish"
  else if String.eqb s "bullish" then "bearish"
  else if String.eqb s "bearish" then "bullish"
  else s.

Definition tf_of (name : string) (d : TrendDirection) : TimeframeData :=
  {| timeframe := name; tf_rsi := 55; tf_macdSignal := "Weak Bullish";
     trendDirection := d; tf_strength := 60 |}.

(** ** The gates of the final signal other than confluence and risk/reward *)

Definition passedOthers (r : AdvancedAnalysisResult) : nat :=
  count_true [gate_timeframe r; gate_entry r; gate_regime r].

(** ** Trading histories *)

(** The pattern names that [calculateWinRateStats] counts: the non-empty
    ones, one entry per trade. *)
Definition named_patterns (h : list Trade) : list string :=
  flat_map (fun t => match trade_pattern t with
                     | Some p => if String.eqb p "" then [] else [p]
                     | None => []
                     end) h.

(** The step of the loop that fills [patternWinRates]. *)
Definition tally (wins : WinRate.Map nat) (t : Trade) : WinRate.Map nat :=
  match trade_pattern t with
  | Some p =>
      if String.eqb p "" then wins
      else
        let sofar := match WinRate.Map_get p wins with Some c => c | None => 0%nat end in
        WinRate.Map_set p (if trade_won t then S sofar else sofar) wins
  | None => wins
  end.

Definition trade_of (p : string) (entry exit : number) (won : bool) : Trade :=
  {| trade_pattern := Some p; trade_entry := entry; trade_exit := exit;
     trade_won := won |}.

(** Two winning triangles and a losing cup and handle. *)
Definition three_trades : list Trade :=
  [trade_of "triangle" 100 105 true; trade_of "cup_handle" 100 98 false;
   trade_of "triangle" 100 102 true].

(** ** Inputs of the entry rules *)

(** The four samples the bot passes to [recognizePatterns] for a price of 100. *)
Definition bot_window : list number := [98; 99; 101; 100].

Definition entry_input (score : number) (band : string) : EntryIndicators :=
  {| entry_score := score;
     entry_bollinger := Some {| band_position := band; band_lower := 95 |} |}.

End RuleSamples.

(* ================================================================== *)
(** * Facts about the number model *)
(* ================================================================== *)

Unset Implicit Arguments.

(** Closes a conjunction of closed facts, each by evaluation. *)
Ltac run_all :=
  cbv zeta; repeat match goal with |- _ /\ _ => split end; vm_compute; reflexivity.

Section NumberFacts.

Lemma lt_Fin (x y : Q) : (Fin x <? Fin y) = true <-> (x < y)%Q.
Proof.
  unfold lt, compare. rewrite Qlt_alt.
  destruct (x ?= y)%Q; split; congruence.
Qed.

Lemma le_Fin (x y : Q) : (Fin x <=? Fin y) = true <-> (x <= y)%Q.
Proof.
  unfold le, compare. rewrite Qle_alt.
  destruct (x ?= y)%Q; split; congruence.
Qed.

Lemma gt_Fin (x y : Q) : (Fin x >? Fin y) = true <-> (y < x)%Q.
Proof. apply lt_Fin. Qed.

Lemma ge_Fin (x y : Q) : (Fin x >=? Fin y) = true <-> (y <= x)%Q.
Proof. apply le_Fin. Qed.

Lemma eq_Fin (x y : Q) : (Fin x === Fin y) = true <-> (x == y)%Q.
Proof.
  unfold eq, compare. rewrite Qeq_alt.
  destruct (x ?= y)%Q; split; congruence.
Qed.

Lemma lt_Fin_false (x y : Q) : (Fin x <? Fin y) = false <-> (y <= x)%Q.
Proof.
  rewrite <- not_true_iff_false, lt_Fin. split; [apply Qnot_lt_le | apply Qle_not_lt].
Qed.

Lemma truthy_Fin (q : Q) : truthy (Fin q) = true <-> ~ (q == 0)%Q.
Proof.
  simpl. rewrite negb_true_iff, <- not_true_iff_false, Qeq_bool_iff. tauto.
Qed.

(** A percentage of at least 60 is truthy. *)
Lemma ge_60_truthy (n : number) : (n >=? 60) = true -> truthy n = true.
Proof.
  destruct n as [q| | |]; try reflexivity; try discriminate.
  intros H. apply ge_Fin in H. apply truthy_Fin. intros E. rewrite E in H.
  revert H. apply Qlt_not_le. reflexivity.
Qed.

Lemma pow10_pos (d : nat) : (0 < inject_Z (10 ^ Z.of_nat d))%Q.
Proof.
  change 0%Q with (inject_Z 0). rewrite <- Zlt_Qlt. apply Z.pow_pos_nonneg; lia.
Qed.

(** Rounding to [d] decimals moves a value by at most half a unit of the last place. *)
Lemma round_dec_close (d : nat) (q : Q) :
  (Qabs (round_dec d q - q) <= (1 # 2) / inject_Z (10 ^ Z.of_nat d))%Q.
Proof.
  unfold round_dec. cbv zeta. rewrite Qred_correct.
  pose proof (pow10_pos d) as Hs. set (s := inject_Z (10 ^ Z.of_nat d)) in *.
  assert (Hs0 : ~ (s == 0)%Q) by (intros E; rewrite E in Hs; discriminate).
  assert (Hfl : forall t : Q,
             (Qabs (inject_Z (Qfloor (t * s + (1 # 2))) / s - t) <= (1 # 2) / s)%Q).
  { intros t.
    pose proof (Qfloor_le (t * s + (1 # 2))) as Hlo.
    pose proof (Qlt_floor (t * s + (1 # 2))) as Hhi.
    rewrite inject_Z_plus in Hhi. change (inject_Z 1) with 1%Q in Hhi.
    set (f := inject_Z (Qfloor (t * s + (1 # 2)))) in *.
    assert (E : (f / s - t == (f - t * s) / s)%Q) by (field; exact Hs0).
    rewrite E. apply Qabs_Qle_condition. split.
    - apply Qle_shift_div_l; [exact Hs|].
      assert (E2 : (- ((1 # 2) / s) * s == - (1 # 2))%Q) by (field; exact Hs0).
      rewrite E2. lra.
    - apply Qle_shift_div_r; [exact Hs|].
      assert (E2 : ((1 # 2) / s * s == 1 # 2)%Q) by (field; exact Hs0).
      rewrite E2. lra. }
  destruct (Qle_bool 0 q).
  - apply Hfl.
  - specialize (Hfl (- q)%Q).
    assert (E : (- (inject_Z (Qfloor (- q * s + (1 # 2))) / s) - q ==
                 - (inject_Z (Qfloor (- q * s + (1 # 2))) / s - - q))%Q) by ring.
    rewrite E, Qabs_opp. exact Hfl.
Qed.

Lemma Qle_bool_false (x y : Q) : Qle_bool x y = false <-> (y < x)%Q.
Proof.
  rewrite <- not_true_iff_false, Qle_bool_iff.
  split; [apply Qnot_le_lt | apply Qlt_not_le].
Qed.

Lemma count_true_le (l : list bool) : (count_true l <= List.length l)%nat.
Proof. unfold count_true. apply filter_length_le. Qed.

(** The special values, as JavaScript computes them. *)
Example division_by_zero : 1 / 0 = PosInf /\ -1 / 0 = NegInf /\ 0 / 0 = NaN.
Proof. repeat split. Qed.

Example infinity_arithmetic :
  100 / PosInf = 0 /\ PosInf - PosInf = NaN /\ PosInf * 0 = NaN /\
  (NaN === NaN) = false /\ NaN ||| 7 = 7 /\ 0 ||| 7 = 7 /\ 3 ||| 7 = 3.
Proof. repeat split. Qed.

Example Math_round_halves :
  round (Fin (5 # 2)) = 3 /\ round (Fin (-5 # 2)) = -2 /\ round (Fin (-13 # 5)) = -3.
Proof. repeat split. Qed.

Example toFixed_halves :
  toFixed (Fin (5 # 1000)) 2 = Fin (1 # 100) /\
  toFixed (Fin (-5 # 1000)) 2 = Fin (-1 # 100) /\
  toFixed (Fin (185 # 10000000000)) 8 = Fin (1 # 50000000).
Proof. repeat split. Qed.

Example Math_max_of_nothing : max_list [] = NegInf /\ min_list [] = PosInf.
Proof. split; reflexivity. Qed.

Example includes_examples :
  includes "Strong Bullish Alignment" "Bullish" = true /\
  includes "Bullish" "Strong Bullish" = false /\
  includes "Upper Half" "Lower" = false /\
  includes "Neutral" "" = true.
Proof. repeat split. Qed.

Example array_reads :
  get [10; 20; 30] 2 = 30 /\ get [10; 20; 30] 3 = NaN /\ get [10; 20; 30] (-1) = NaN /\
  last_elem [10; 20; 30] = 30 /\ last_elem [] = NaN /\
  slice_last 2 [10; 20; 30] = [20; 30] /\ slice_last 0 [10; 20; 30] = [10; 20; 30] /\
  slice_last 5 [10; 20; 30] = [10; 20; 30] /\ slice 1 3 [10; 20; 30; 40] = [20; 30].
Proof. repeat split. Qed.

End NumberFacts.

(* ================================================================== *)
(** * Binary64 rounding *)
(* ================================================================== *)

Section RoundingFacts.
Import F64.

Lemma two_pow_pos (e : Z) : (0 < 2 ^ e)%Q.
Proof. apply Qpower_0_lt. reflexivity. Qed.

Lemma two_pow_add (a b : Z) : (2 ^ (a + b) == 2 ^ a * 2 ^ b)%Q.
Proof. apply Qpower_plus. discriminate. Qed.

Lemma two_pow_le (a b : Z) : (a <= b)%Z -> (2 ^ a <= 2 ^ b)%Q.
Proof. intros H. apply Qpower_le_compat_l; [exact H | discriminate]. Qed.

Lemma two_pow_Z (k : Z) : (0 <= k)%Z -> (inject_Z (2 ^ k) == 2 ^ k)%Q.
Proof. intros H. apply (Zpower_Qpower 2 k H). Qed.

(** ** The nearest integer *)

Lemma rne_floor (x : Q) : (Qfloor x <= rne x <= Qfloor x + 1)%Z.
Proof.
  unfold rne. cbv zeta.
  destruct (x - inject_Z (Qfloor x) ?= 1 # 2)%Q; [destruct (Z.even (Qfloor x))| |]; lia.
Qed.

Lemma rne_Z (n : Z) : rne (inject_Z n) = n.
Proof.
  unfold rne. cbv zeta. rewrite Qfloor_Z.
  replace (inject_Z n - inject_Z n ?= 1 # 2)%Q with Lt; [reflexivity|].
  symmetry. apply Qlt_alt. setoid_replace (inject_Z n - inject_Z n)%Q with 0%Q by ring.
  reflexivity.
Qed.

Lemma Qcompare_cases (p q : Q) :
  match (p ?= q)%Q with Eq => (p == q)%Q | Lt => (p < q)%Q | Gt => (q < p)%Q end.
Proof.
  destruct (p ?= q)%Q eqn:C;
    [apply Qeq_alt | apply Qlt_alt | apply Qgt_alt]; exact C.
Qed.

Lemma rne_mono (x y : Q) : (x <= y)%Q -> (rne x <= rne y)%Z.
Proof.
  intros H. pose proof (Qfloor_resp_le _ _ H) as Hf.
  pose proof (rne_floor x) as Hx. pose proof (rne_floor y) as Hy.
  destruct (Z.eq_dec (Qfloor x) (Qfloor y)) as [E|N]; [|lia].
  clear Hx Hy Hf. unfold rne. cbv zeta. rewrite <- E.
  set (f := Qfloor x) in *.
  assert (Hd : (x - inject_Z f <= y - inject_Z f)%Q) by lra.
  pose proof (Qcompare_cases (x - inject_Z f) (1 # 2)) as Cx.
  pose proof (Qcompare_cases (y - inject_Z f) (1 # 2)) as Cy.
  destruct (x - inject_Z f ?= 1 # 2)%Q; destruct (y - inject_Z f ?= 1 # 2)%Q;
    destruct (Z.even f); try lia; exfalso; clear E; lra.
Qed.

Lemma rne_ge (x : Q) (n : Z) : (inject_Z n <= x)%Q -> (n <= rne x)%Z.
Proof. intros H. rewrite <- (rne_Z n). apply rne_mono. exact H. Qed.

Lemma rne_le (x : Q) (n : Z) : (x <= inject_Z n)%Q -> (rne x <= n)%Z.
Proof. intros H. rewrite <- (rne_Z n). apply rne_mono. exact H. Qed.

(** ** The binary logarithm *)

Lemma ilog2_spec (a : Q) :
  (0 < a)%Q -> (2 ^ ilog2 a <= a)%Q /\ (a < 2 ^ (ilog2 a + 1))%Q.
Proof.
  intros Ha. unfold ilog2. destruct (Qle_bool 1 a) eqn:E.
  - apply Qle_bool_iff in E.
    assert (Hf : (1 <= Qfloor a)%Z).
    { change 1%Z with (Qfloor 1). apply Qfloor_resp_le. exact E. }
    pose proof (Z.log2_spec (Qfloor a) ltac:(lia)) as [L1 L2].
    pose proof (Z.log2_nonneg (Qfloor a)) as L0.
    split.
    + rewrite <- two_pow_Z by exact L0.
      apply Qle_trans with (inject_Z (Qfloor a)); [|apply Qfloor_le].
      rewrite <- Zle_Qle. exact L1.
    + rewrite <- two_pow_Z by lia.
      apply Qlt_le_trans with (inject_Z (Qfloor a + 1)); [apply Qlt_floor|].
      rewrite <- Zle_Qle. unfold Z.succ in L2. lia.
  - apply Qle_bool_false in E.
    assert (Hi : (1 < / a)%Q).
    { apply Qlt_shift_inv_l; [exact Ha|]. rewrite Qmult_1_l. exact E. }
    set (c := Qceiling (/ a)).
    assert (Hc1 : (/ a <= inject_Z c)%Q) by apply Qle_ceiling.
    assert (Hc2 : (inject_Z (c - 1) < / a)%Q) by apply Qceiling_lt.
    assert (Hc : (1 < c)%Z).
    { rewrite Zlt_Qlt. apply Qlt_le_trans with (/ a)%Q; assumption. }
    pose proof (Z.log2_up_spec c Hc) as [U1 U2].
    pose proof (Z.log2_up_nonneg c) as U0.
    assert (Upos : (0 < Z.log2_up c)%Z) by (apply Z.log2_up_pos; exact Hc).
    set (k := Z.log2_up c) in *.
    assert (Hinv : forall p : Q, (0 < p)%Q -> (p < / a)%Q -> (a < / p)%Q).
    { intros p Hp Hpa. apply Qlt_shift_inv_l; [exact Hp|].
      assert (H : (p * a < / a * a)%Q) by (apply Qmult_lt_r; assumption).
      rewrite (Qmult_comm (/ a)), Qmult_inv_r in H by lra.
      rewrite Qmult_comm. exact H. }
    split.
    + rewrite Qpower_opp. apply Qle_shift_inv_r; [apply two_pow_pos|].
      apply Qle_trans with (a * / a)%Q.
      * rewrite Qmult_inv_r by lra. apply Qle_refl.
      * apply Qmult_le_l; [exact Ha|].
        apply Qle_trans with (inject_Z c); [exact Hc1|].
        rewrite <- two_pow_Z by exact U0. rewrite <- Zle_Qle. exact U2.
    + replace (- k + 1)%Z with (- (k - 1))%Z by lia. rewrite Qpower_opp.
      apply Hinv; [apply two_pow_pos|].
      apply Qle_lt_trans with (inject_Z (c - 1)); [|exact Hc2].
      rewrite <- two_pow_Z by lia. rewrite <- Zle_Qle.
      replace (k - 1)%Z with (Z.pred k) by (unfold Z.pred; lia).
      apply Z.lt_le_pred in U1. unfold Z.pred at 2 in U1.
      replace (c - 1)%Z with (c + -1)%Z by lia. exact U1.
Qed.

Lemma ilog2_mono (a b : Q) : (0 < a)%Q -> (a <= b)%Q -> (ilog2 a <= ilog2 b)%Z.
Proof.
  intros Ha Hab.
  destruct (ilog2_spec a Ha) as [A1 _].
  destruct (ilog2_spec b ltac:(lra)) as [_ B2].
  assert (H : (2 ^ ilog2 a < 2 ^ (ilog2 b + 1))%Q) by lra.
  apply Qpower_lt_compat_l_inv in H; [lia | reflexivity].
Qed.

Lemma ulp_exp_mono (a b : Q) : (0 < a)%Q -> (a <= b)%Q -> (ulp_exp a <= ulp_exp b)%Z.
Proof.
  intros Ha Hab. unfold ulp_exp. pose proof (ilog2_mono a b Ha Hab). lia.
Qed.

(** ** The nearest double *)

Lemma ulp_exp_min (a : Q) : (-1074 <= ulp_exp a)%Z.
Proof. unfold ulp_exp. lia. Qed.

Lemma scaled_ge (b : Q) :
  (0 < b)%Q -> (-1074 < ulp_exp b)%Z ->
  (2 ^ (ulp_exp b + 52) <= inject_Z (rne (b / 2 ^ ulp_exp b)) * 2 ^ ulp_exp b)%Q.
Proof.
  intros Hb He. pose proof (two_pow_pos (ulp_exp b)) as Hp.
  assert (E : ulp_exp b = (ilog2 b - 52)%Z) by (unfold ulp_exp in *; lia).
  destruct (ilog2_spec b Hb) as [B1 _].
  replace (ilog2 b) with (ulp_exp b + 52)%Z in B1 by lia.
  rewrite two_pow_add in *. rewrite (Qmult_comm (2 ^ ulp_exp b)) in *.
  apply Qmult_le_compat_r; [|lra].
  rewrite <- (two_pow_Z 52) by lia. rewrite <- Zle_Qle. apply rne_ge.
  rewrite (two_pow_Z 52) by lia. apply Qle_shift_div_l; assumption.
Qed.

Lemma scaled_le (a : Q) :
  (0 < a)%Q ->
  (inject_Z (rne (a / 2 ^ ulp_exp a)) * 2 ^ ulp_exp a <= 2 ^ (ulp_exp a + 53))%Q.
Proof.
  intros Ha. pose proof (two_pow_pos (ulp_exp a)) as Hp.
  destruct (ilog2_spec a Ha) as [_ A2].
  assert (A3 : (a <= 2 ^ (ulp_exp a + 53))%Q).
  { apply Qle_trans with (2 ^ (ilog2 a + 1))%Q; [lra|].
    apply two_pow_le. unfold ulp_exp. lia. }
  rewrite two_pow_add in *. rewrite (Qmult_comm (2 ^ ulp_exp a)) in *.
  apply Qmult_le_compat_r; [|lra].
  rewrite <- (two_pow_Z 53) by lia. rewrite <- Zle_Qle. apply rne_le.
  rewrite (two_pow_Z 53) by lia. apply Qle_shift_div_r; assumption.
Qed.

Lemma scaled_mono (a b : Q) :
  (0 < a)%Q -> (a <= b)%Q ->
  (inject_Z (rne (a / 2 ^ ulp_exp a)) * 2 ^ ulp_exp a
   <= inject_Z (rne (b / 2 ^ ulp_exp b)) * 2 ^ ulp_exp b)%Q.
Proof.
  intros Ha Hab. pose proof (ulp_exp_mono a b Ha Hab) as He.
  destruct (Z.eq_dec (ulp_exp a) (ulp_exp b)) as [E|N].
  - rewrite E. pose proof (two_pow_pos (ulp_exp b)) as Hp.
    apply Qmult_le_compat_r; [|lra]. rewrite <- Zle_Qle. apply rne_mono.
    unfold Qdiv. apply Qmult_le_compat_r; [exact Hab|].
    apply Qlt_le_weak, Qinv_lt_0_compat. exact Hp.
  - pose proof (ulp_exp_min a) as Hm.
    apply Qle_trans with (2 ^ (ulp_exp a + 53))%Q; [apply scaled_le; exact Ha|].
    apply Qle_trans with (2 ^ (ulp_exp b + 52))%Q; [apply two_pow_le; lia|].
    apply scaled_ge; [lra | lia].
Qed.

Lemma scaled_nonneg (a : Q) :
  (0 < a)%Q -> (0 <= inject_Z (rne (a / 2 ^ ulp_exp a)) * 2 ^ ulp_exp a)%Q.
Proof.
  intros Ha. pose proof (two_pow_pos (ulp_exp a)) as Hp.
  apply Qmult_le_0_compat; [|lra].
  change 0%Q with (inject_Z 0). rewrite <- Zle_Qle. apply rne_ge.
  apply Qle_shift_div_l; [exact Hp|]. change (inject_Z 0) with 0%Q. lra.
Qed.

(** The nearest double of a positive number is a non-negative double or
    [Infinity]. *)
Lemma round_pos_cases (a : Q) :
  (0 < a)%Q ->
  round_pos a = PosInf \/ exists v : Q, round_pos a = Fin v /\ (0 <= v)%Q.
Proof.
  intros Ha. unfold round_pos. cbv zeta.
  destruct (Qle_bool _ _); [left; reflexivity|].
  right. eexists. split; [reflexivity|]. rewrite Qred_correct.
  apply scaled_nonneg. exact Ha.
Qed.

Lemma round_pos_mono (a b : Q) :
  (0 < a)%Q -> (a <= b)%Q -> (round_pos a <=? round_pos b) = true.
Proof.
  intros Ha Hab. pose proof (scaled_mono a b Ha Hab) as H.
  unfold round_pos. cbv zeta.
  set (va := (inject_Z (rne (a / 2 ^ ulp_exp a)) * 2 ^ ulp_exp a)%Q) in *.
  set (vb := (inject_Z (rne (b / 2 ^ ulp_exp b)) * 2 ^ ulp_exp b)%Q) in *.
  set (top := (2 ^ 1024)%Q). clearbody va vb top.
  destruct (Qle_bool top va) eqn:Ea, (Qle_bool top vb) eqn:Eb; try reflexivity.
  - apply Qle_bool_iff in Ea. apply Qle_bool_false in Eb. exfalso. lra.
  - apply le_Fin. rewrite !Qred_correct. exact H.
Qed.

Lemma le_neg (a b : number) : (a <=? b) = true -> (neg b <=? neg a) = true.
Proof.
  destruct a as [x| | |], b as [y| | |]; try discriminate; try reflexivity.
  intros H. apply le_Fin in H. apply le_Fin. lra.
Qed.

(** Rounding to the nearest double is monotone. *)
Lemma round64_mono (x y : Q) : (x <= y)%Q -> (round64 x <=? round64 y) = true.
Proof.
  intros H. unfold round64.
  pose proof (Qcompare_cases x 0) as Cx. pose proof (Qcompare_cases y 0) as Cy.
  destruct (x ?= 0)%Q, (y ?= 0)%Q; try (exfalso; lra); try reflexivity.
  - destruct (round_pos_cases y Cy) as [-> | [v [-> Hv]]]; [reflexivity|].
    apply le_Fin. exact Hv.
  - destruct (round_pos_cases (- x) ltac:(lra)) as [-> | [v [-> Hv]]]; [reflexivity|].
    apply le_Fin. cbn. lra.
  - apply le_neg. apply round_pos_mono; lra.
  - destruct (round_pos_cases (- x) ltac:(lra)) as [-> | [v [-> Hv]]];
      destruct (round_pos_cases y Cy) as [-> | [w [-> Hw]]]; try reflexivity.
    apply le_Fin. cbn. lra.
  - apply round_pos_mono; assumption.
Qed.

(** A result between two doubles is a double between them. *)
Lemma round64_between (lo hi q : Q) :
  representable lo -> representable hi -> (lo <= q <= hi)%Q ->
  exists v : Q, round64 q = Fin v /\ (lo <= v <= hi)%Q.
Proof.
  intros Hlo Hhi [H1 H2].
  pose proof (round64_mono lo q H1) as M1. pose proof (round64_mono q hi H2) as M2.
  rewrite Hlo in M1. rewrite Hhi in M2.
  destruct (round64 q) as [v| | |]; try discriminate.
  exists v. split; [reflexivity|]. apply le_Fin in M1. apply le_Fin in M2. split; assumption.
Qed.

Lemma round64_le (hi q : Q) :
  representable hi -> (q <= hi)%Q -> (round64 q <=? Fin hi) = true.
Proof. intros Hhi H. rewrite <- Hhi. apply round64_mono. exact H. Qed.

Lemma round64_ge (lo q : Q) :
  representable lo -> (lo <= q)%Q -> (Fin lo <=? round64 q) = true.
Proof. intros Hlo H. rewrite <- Hlo. apply round64_mono. exact H. Qed.

(** The result of rounding is a number. *)
Lemma round64_not_NaN (q : Q) : round64 q <> NaN.
Proof.
  unfold round64. destruct (q ?= 0)%Q; [discriminate| |];
    unfold round_pos; cbv zeta; destruct (Qle_bool _ _); discriminate.
Qed.

(** ** The order of numbers *)

Lemma le_lt_trans (a b c : number) :
  (a <=? b) = true -> (b <? c) = true -> (a <? c) = true.
Proof.
  destruct a as [x| | |], b as [y| | |], c as [z| | |];
    try discriminate; try reflexivity.
  intros H1 H2. apply le_Fin in H1. apply lt_Fin in H2. apply lt_Fin. lra.
Qed.

Lemma lt_le_trans (a b c : number) :
  (a <? b) = true -> (b <=? c) = true -> (a <? c) = true.
Proof.
  destruct a as [x| | |], b as [y| | |], c as [z| | |];
    try discriminate; try reflexivity.
  intros H1 H2. apply lt_Fin in H1. apply le_Fin in H2. apply lt_Fin. lra.
Qed.

Lemma not_gt_le (a b : number) :
  a <> NaN -> b <> NaN -> (a >? b) = false -> (a <=? b) = true.
Proof.
  destruct a as [x| | |], b as [y| | |]; try congruence; try reflexivity;
    try discriminate.
  intros _ _ H. apply lt_Fin_false in H. apply le_Fin. exact H.
Qed.

Lemma not_lt_le (a b : number) :
  a <> NaN -> b <> NaN -> (a <? b) = false -> (b <=? a) = true.
Proof.
  destruct a as [x| | |], b as [y| | |]; try congruence; try reflexivity;
    try discriminate.
  intros _ _ H. apply lt_Fin_false in H. apply le_Fin. exact H.
Qed.

(** ** Between two neighbouring doubles *)

Lemma floor_unique (x : Q) (m : Z) :
  (inject_Z m <= x)%Q -> (x < inject_Z (m + 1))%Q -> Qfloor x = m.
Proof.
  intros H1 H2. pose proof (Qfloor_le x) as F1. pose proof (Qlt_floor x) as F2.
  assert (A : (inject_Z (Qfloor x) < inject_Z (m + 1))%Q) by lra.
  assert (B : (inject_Z m < inject_Z (Qfloor x + 1))%Q) by lra.
  rewrite <- Zlt_Qlt in A, B. lia.
Qed.

Lemma ilog2_unique (a : Q) (k : Z) :
  (2 ^ k <= a)%Q -> (a < 2 ^ (k + 1))%Q -> ilog2 a = k.
Proof.
  intros H1 H2. pose proof (two_pow_pos k) as Hk.
  destruct (ilog2_spec a ltac:(lra)) as [S1 S2].
  assert (A : (2 ^ k < 2 ^ (ilog2 a + 1))%Q) by lra.
  assert (B : (2 ^ ilog2 a < 2 ^ (k + 1))%Q) by lra.
  apply Qpower_lt_compat_l_inv in A; [|reflexivity].
  apply Qpower_lt_compat_l_inv in B; [|reflexivity]. lia.
Qed.

(** A normal double [m * 2^e] is the value of every real from itself up to,
    but not including, the midpoint to the next double. *)
Lemma round64_down (m e : Z) (q : Q) :
  (2 ^ 52 <= m < 2 ^ 53)%Z -> (-1074 <= e <= 971)%Z ->
  (inject_Z m * 2 ^ e <= q)%Q -> (q < (inject_Z m + (1 # 2)) * 2 ^ e)%Q ->
  round64 q = Fin (Qred (inject_Z m * 2 ^ e)).
Proof.
  intros [Hm1 Hm2] [He1 He2] H1 H2.
  pose proof (two_pow_pos e) as Hp.
  assert (Hm1q : (2 ^ 52 <= inject_Z m)%Q).
  { rewrite <- (two_pow_Z 52) by lia. rewrite <- Zle_Qle. exact Hm1. }
  assert (Hm2q : (inject_Z m + 1 <= 2 ^ 53)%Q).
  { rewrite <- (two_pow_Z 53) by lia.
    change 1%Q with (inject_Z 1). rewrite <- inject_Z_plus, <- Zle_Qle. lia. }
  assert (P52 : (0 < 2 ^ 52)%Q) by apply two_pow_pos.
  assert (Hq : (0 < q)%Q) by nra.
  assert (Hlog : ilog2 q = (e + 52)%Z).
  { apply ilog2_unique.
    - rewrite Z.add_comm, two_pow_add. nra.
    - replace (e + 52 + 1)%Z with (53 + e)%Z by lia. rewrite two_pow_add. nra. }
  assert (Hulp : ulp_exp q = e) by (unfold ulp_exp; rewrite Hlog; lia).
  assert (Hx1 : (inject_Z m <= q / 2 ^ e)%Q) by (apply Qle_shift_div_l; assumption).
  assert (Hx2 : (q / 2 ^ e < inject_Z m + (1 # 2))%Q)
    by (apply Qlt_shift_div_r; assumption).
  assert (Hfl : Qfloor (q / 2 ^ e) = m).
  { apply floor_unique; [exact Hx1|]. rewrite inject_Z_plus. change (inject_Z 1) with 1%Q. lra. }
  assert (Hrne : rne (q / 2 ^ e) = m).
  { unfold rne. cbv zeta. rewrite Hfl.
    replace (q / 2 ^ e - inject_Z m ?= 1 # 2)%Q with Lt; [reflexivity|].
    symmetry. rewrite <- Qlt_alt. set (x := (q / 2 ^ e)%Q) in *. lra. }
  unfold round64. replace (q ?= 0)%Q with Gt by (symmetry; rewrite <- Qgt_alt; exact Hq).
  unfold round_pos. cbv zeta. rewrite Hulp, Hrne.
  replace (Qle_bool (2 ^ 1024) (inject_Z m * 2 ^ e)) with false; [reflexivity|].
  symmetry. apply Qle_bool_false.
  apply Qlt_le_trans with (2 ^ (53 + e))%Q.
  - rewrite two_pow_add. nra.
  - apply two_pow_le. lia.
Qed.

Lemma Qopp_twice (q : Q) : (- - q)%Q = q.
Proof. destruct q as [n d]. unfold Qopp. cbn [Qnum Qden]. rewrite Z.opp_involutive. reflexivity. Qed.

Lemma neg_neg (a : number) : neg (neg a) = a.
Proof. destruct a; cbn [neg]; rewrite ?Qopp_twice; reflexivity. Qed.

Lemma round64_opp (q : Q) : round64 (- q) = neg (round64 q).
Proof.
  unfold round64. pose proof (Qcompare_cases q 0) as C.
  pose proof (Qcompare_cases (- q) 0) as C'.
  destruct (q ?= 0)%Q, (- q ?= 0)%Q; try (exfalso; lra); try reflexivity.
  - rewrite neg_neg. reflexivity.
  - rewrite Qopp_twice. reflexivity.
Qed.

(** ** How far a rounding moves *)

Lemma rne_close (x : Q) : (Qabs (inject_Z (rne x) - x) <= 1 # 2)%Q.
Proof.
  unfold rne. cbv zeta.
  pose proof (Qfloor_le x) as F1. pose proof (Qlt_floor x) as F2.
  rewrite inject_Z_plus in F2. change (inject_Z 1) with 1%Q in F2.
  pose proof (Qcompare_cases (x - inject_Z (Qfloor x)) (1 # 2)) as C.
  apply Qabs_Qle_condition.
  destruct (x - inject_Z (Qfloor x) ?= 1 # 2)%Q;
    [destruct (Z.even (Qfloor x))| |];
    rewrite ?inject_Z_plus; change (inject_Z 1) with 1%Q;
    set (f := inject_Z (Qfloor x)) in *; split; lra.
Qed.

(** A positive real is moved by at most half a unit of its last place: one
    part in 2^53 of itself or, among the subnormals, 2^-1075. *)
Lemma round_pos_error (y v : Q) :
  (0 < y)%Q -> round_pos y = Fin v ->
  (Qabs (v - y) <= y * 2 ^ (-53) + 2 ^ (-1075))%Q.
Proof.
  intros Hy. unfold round_pos. cbv zeta.
  destruct (Qle_bool _ _); [discriminate|].
  assert (Ew : (Qred (inject_Z (rne (y / 2 ^ ulp_exp y)) * 2 ^ ulp_exp y)
                == inject_Z (rne (y / 2 ^ ulp_exp y)) * 2 ^ ulp_exp y)%Q)
    by apply Qred_correct.
  revert Ew. generalize (Qred (inject_Z (rne (y / 2 ^ ulp_exp y)) * 2 ^ ulp_exp y)).
  intros w Ew E. injection E as <-. rewrite Ew. clear Ew w.
  pose proof (two_pow_pos (ulp_exp y)) as Hp.
  pose proof (rne_close (y / 2 ^ ulp_exp y)) as Hc.
  set (e := ulp_exp y) in *. set (n := inject_Z (rne (y / 2 ^ e))) in *.
  assert (Hd : (n * 2 ^ e - y == (n - y / 2 ^ e) * 2 ^ e)%Q).
  { field. intros Z. rewrite Z in Hp. revert Hp. apply Qlt_irrefl. }
  rewrite Hd, Qabs_Qmult, (Qabs_pos (2 ^ e)) by lra.
  assert (Hhalf : (Qabs (n - y / 2 ^ e) * 2 ^ e <= (1 # 2) * 2 ^ e)%Q)
    by (apply Qmult_le_compat_r; [exact Hc | lra]).
  apply Qle_trans with ((1 # 2) * 2 ^ e)%Q; [exact Hhalf|].
  destruct (ilog2_spec y Hy) as [L _].
  pose proof (two_pow_pos (-1075)) as P1. pose proof (two_pow_pos (-53)) as P2.
  unfold e, ulp_exp. destruct (Z.max_spec (ilog2 y - 52) (-1074)) as [[_ ->]|[_ ->]].
  - assert (X : ((1 # 2) * 2 ^ (-1074) == 2 ^ (-1075))%Q) by reflexivity.
    rewrite X. nra.
  - assert (X : ((1 # 2) * 2 ^ (ilog2 y - 52) == 2 ^ ilog2 y * 2 ^ (-53))%Q).
    { replace (ilog2 y - 52)%Z with (ilog2 y + -52)%Z by lia. rewrite two_pow_add.
      assert (X' : ((1 # 2) * 2 ^ (-52) == 2 ^ (-53))%Q) by reflexivity.
      rewrite <- X'. ring. }
    rewrite X. nra.
Qed.

Lemma round64_error (y v : Q) :
  round64 y = Fin v -> (Qabs (v - y) <= Qabs y * 2 ^ (-53) + 2 ^ (-1075))%Q.
Proof.
  unfold round64. pose proof (Qcompare_cases y 0) as C.
  pose proof (two_pow_pos (-1075)) as P1. pose proof (two_pow_pos (-53)) as P2.
  destruct (y ?= 0)%Q.
  - intros E. injection E as <-. rewrite C. setoid_replace (0 - 0)%Q with 0%Q by ring.
    cbn [Qabs Z.abs Qnum Qden]. nra.
  - intros E. destruct (round_pos (- y)) as [w| | |] eqn:R; try discriminate E.
    cbn [neg] in E. injection E as <-.
    pose proof (round_pos_error (- y) w ltac:(lra) R) as H.
    rewrite (Qabs_neg y) by lra.
    setoid_replace (- w - y)%Q with (- (w - - y))%Q by ring. rewrite Qabs_opp. exact H.
  - intros E. pose proof (round_pos_error y v C E) as H.
    rewrite (Qabs_pos y) by lra. exact H.
Qed.

End RoundingFacts.

(* ================================================================== *)
(** * Final signal, confluence score and risk/reward setup *)
(* ================================================================== *)

Section AdvancedAnalysisFacts.
Import AdvancedAnalysis Samples.

(** The risk/reward entry of [checks] is the risk/reward gate. *)
Lemma riskRewardPass_gate (r : AdvancedAnalysisResult) :
  riskRewardPass (checks_of r) = gate_riskReward r.
Proof.
  unfold checks_of, gate_riskReward; simpl.
  destruct (riskReward r) as [rr|]; simpl; [destruct (isValid rr)|]; reflexivity.
Qed.

(** With a percentage of at least 60 the [checks] object agrees with the gates. *)
Lemma checks_values_gates (r : AdvancedAnalysisResult) :
  gate_confluence r = true ->
  checks_values (checks_of r) =
  [gate_confluence r; gate_timeframe r; gate_riskReward r; gate_entry r; gate_regime r].
Proof.
  intros Hc. unfold checks_values. rewrite riskRewardPass_gate.
  unfold checks_of, gate_confluence, gate_timeframe, gate_entry, gate_regime in *; simpl.
  destruct (confluence r) as [c|]; [|discriminate]. simpl.
  rewrite (ge_60_truthy _ Hc). simpl. rewrite (ge_60_truthy _ Hc), Hc.
  repeat f_equal.
  - destruct (timeframeAlignment r); [apply orb_comm | reflexivity].
  - destruct (smartEntry r) as [e|]; simpl; [destruct (shouldEnter e)|]; reflexivity.
  - destruct (marketRegime r) as [m|]; simpl; [destruct (regime m)|]; reflexivity.
Qed.

(** C1, as the code has it.  [generateFinalSignal] returns SKIP with confidence
    0 whenever the risk/reward gate fails or the confluence percentage is
    missing, zero or not a number, whatever the other gates say.  When the
    confluence percentage is at least 60 and the risk/reward setup is valid, it
    returns STRONG-BUY when all five gates pass, BUY at four, NEUTRAL at three
    and SKIP otherwise, with confidence [passedGates / 5 * 100]. *)
Theorem generateFinalSignal_gates (r : AdvancedAnalysisResult) :
  (gate_riskReward r = false \/ confluence_blank r = true ->
   generateFinalSignal r =
   {| signal := SKIP; confidence := 0;
      finalReason := "Failed confluence or risk/reward filters" |}) /\
  (gate_confluence r = true -> gate_riskReward r = true ->
   signal (generateFinalSignal r) = classify (passedGates r) /\
   confidence (generateFinalSignal r) = of_nat (20 * passedGates r)).
Proof.
  split.
  - intros H. unfold generateFinalSignal. cbv zeta.
    rewrite riskRewardPass_gate.
    destruct H as [H|H].
    + rewrite H. rewrite orb_true_r. reflexivity.
    + replace (truthy_value (confluencePass (checks_of r))) with false; [reflexivity|].
      unfold confluence_blank in H. unfold checks_of; simpl.
      destruct (confluence r) as [c|]; simpl; [|reflexivity].
      destruct (truthy (confluencePercent c)); [discriminate | reflexivity].
  - intros Hc Hr. unfold generateFinalSignal. cbv zeta.
    rewrite (checks_values_gates _ Hc). unfold passedGates.
    rewrite riskRewardPass_gate, Hr.
    assert (Ht : truthy_value (confluencePass (checks_of r)) = true).
    { unfold checks_of, gate_confluence in *; simpl.
      destruct (confluence r) as [c|]; [|discriminate]. simpl.
      rewrite (ge_60_truthy _ Hc). simpl. apply (ge_60_truthy _ Hc). }
    rewrite Ht, Hc. simpl negb. simpl orb.
    destruct (gate_timeframe r), (gate_entry r), (gate_regime r);
      split; vm_compute; reflexivity.
Qed.

(** Witness for C1: confluence 80, valid setup, entry not ready: four gates,
    BUY at confidence 80; and an invalid setup skips at confidence 0. *)
Lemma generateFinalSignal_gates_witness :
  (signal (generateFinalSignal analysis_four_of_five) = BUY /\
   confidence (generateFinalSignal analysis_four_of_five) = 80) /\
  generateFinalSignal analysis_bad_ratio =
  {| signal := SKIP; confidence := 0;
     finalReason := "Failed confluence or risk/reward filters" |}.
Proof.
  split.
  - apply (proj2 (generateFinalSignal_gates analysis_four_of_five)); reflexivity.
  - apply (proj1 (generateFinalSignal_gates analysis_bad_ratio)). left. reflexivity.
Defined.

(** C1 as worded fails twice.  With confluence at 50 the confluence gate is
    closed, yet the result is STRONG-BUY at confidence 100, not SKIP.  With an
    invalid setup and the four other gates open, the confidence is 0, not
    4/5 * 100. *)
Lemma generateFinalSignal_claim_fails :
  (gate_confluence analysis_weak_confluence = false /\
   generateFinalSignal analysis_weak_confluence =
   {| signal := STRONG_BUY; confidence := 100;
      finalReason := "All checks passed - ideal setup" |}) /\
  (passedGates analysis_bad_ratio = 4%nat /\
   signal (generateFinalSignal analysis_bad_ratio) = SKIP /\
   (confidence (generateFinalSignal analysis_bad_ratio) === 80) = false /\
   confidence (generateFinalSignal analysis_bad_ratio) = 0).
Proof. repeat split; vm_compute; reflexivity. Qed.

(** Case split on a count that is at most eight. *)
Ltac upto8 n :=
  destruct n as [|[|[|[|[|[|[|[|[|n]]]]]]]]]; [ .. | exfalso; lia ].

(** Signals that never fire on both sides fire at most once per position. *)
Lemma count_true_exclusive (l1 l2 : list bool) :
  List.length l1 = List.length l2 ->
  forallb (fun p => negb (fst p && snd p)) (combine l1 l2) = true ->
  (count_true l1 + count_true l2 <= List.length l1)%nat.
Proof.
  revert l2. induction l1 as [|x l1 IH]; intros [|y l2] Hlen Hex;
    try discriminate Hlen; [vm_compute; lia|].
  simpl in Hex. apply andb_true_iff in Hex. destruct Hex as [Hxy Hex].
  injection Hlen as Hlen. specialize (IH l2 Hlen Hex).
  unfold count_true in *. simpl.
  destruct x, y; simpl in *; try discriminate Hxy; lia.
Qed.

(** C2, as the code has it.  For every input [calculateConfluenceScore]
    returns totalIndicators = 10, agreeingIndicators = max(bullishCount,
    bearishCount), each count at most 8 (and their sum at most 8 when no label
    carries a bullish and a bearish marker at once), an integral
    confluencePercent in [0,100] that is 50 when no signal fires, and tradeable
    true exactly when the returned percentage is at least 60. *)
Theorem calculateConfluenceScore_spec (i : ConfluenceInput) :
  let s := calculateConfluenceScore i in
  totalIndicators s = 10%nat /\
  agreeingIndicators s = Nat.max (bullishCount s) (bearishCount s) /\
  (bullishCount s <= 8)%nat /\ (bearishCount s <= 8)%nat /\
  (exclusive i = true -> (bullishCount s + bearishCount s <= 8)%nat) /\
  (exists p : Z, confluencePercent s = of_Z p /\ (0 <= p <= 100)%Z) /\
  ((bullishCount s + bearishCount s = 0)%nat -> confluencePercent s = 50) /\
  tradeable s = (confluencePercent s >=? 60).
Proof.
  cbv zeta. unfold calculateConfluenceScore. cbv zeta. simpl.
  pose proof (count_true_le (bullishSignals i)) as Hb.
  pose proof (count_true_le (bearishSignals i)) as Hr.
  change (List.length (bullishSignals i)) with 8%nat in Hb.
  change (List.length (bearishSignals i)) with 8%nat in Hr.
  split; [reflexivity|]. split; [reflexivity|].
  split; [exact Hb|]. split; [exact Hr|].
  split.
  { intros Hex. apply (count_true_exclusive (bullishSignals i) (bearishSignals i));
      [reflexivity | exact Hex]. }
  set (b := count_true (bullishSignals i)) in *.
  set (e := count_true (bearishSignals i)) in *.
  clearbody b e.
  upto8 b; upto8 e; clear Hb Hr;
    (split; [ eexists; split; [vm_compute; reflexivity | lia]
            | split; [ intros H; first [discriminate H | vm_compute; reflexivity]
                     | vm_compute; reflexivity ] ]).
Qed.

(** Witness for C2: labels as the calculators print them (three bullish, no
    bearish) are exclusive, so the counts add up to at most 8. *)
Lemma calculateConfluenceScore_spec_witness :
  exclusive labels_typical = true /\
  (bullishCount (calculateConfluenceScore labels_typical) +
   bearishCount (calculateConfluenceScore labels_typical) <= 8)%nat.
Proof.
  split; [reflexivity|].
  apply (calculateConfluenceScore_spec labels_typical). reflexivity.
Defined.

(** C2 as worded fails: totalIndicators is 10, not 8, on every input (here on
    one where nothing fires, which also shows the default of 50), and labels
    carrying both markers push bullishCount + bearishCount to 15. *)
Lemma calculateConfluenceScore_claim_fails :
  (totalIndicators (calculateConfluenceScore labels_quiet) = 10%nat /\
   totalIndicators (calculateConfluenceScore labels_quiet) <> 8%nat /\
   confluencePercent (calculateConfluenceScore labels_quiet) = 50) /\
  (bullishCount (calculateConfluenceScore labels_mixed) = 8%nat /\
   bearishCount (calculateConfluenceScore labels_mixed) = 7%nat /\
   ~ (bullishCount (calculateConfluenceScore labels_mixed) +
      bearishCount (calculateConfluenceScore labels_mixed) <= 8)%nat).
Proof.
  repeat split; try (vm_compute; reflexivity).
  - vm_compute. discriminate.
  - vm_compute. lia.
Qed.

Lemma sub_Fin_not_NaN (e : Q) (b : number) : b <> NaN -> Fin e ⊖ b <> NaN.
Proof.
  destruct b as [y| | |]; cbn; try discriminate; try congruence.
  intros _. apply round64_not_NaN.
Qed.

Lemma add_Fin_not_NaN (e : Q) (b : number) : b <> NaN -> Fin e ⊕ b <> NaN.
Proof.
  destruct b as [y| | |]; cbn; try discriminate; try congruence.
  intros _. apply round64_not_NaN.
Qed.

(** The stop sits below the entry: the clamp moves it under a support that
    is itself below the entry, and without the clamp it is at most the
    support. *)
Lemma stop_level_below (e s a : Q) :
  F64.representable s -> (0 < s)%Q -> (s < e)%Q ->
  (stop_level (Fin e) (Fin s) (Fin a) <? Fin e) = true.
Proof.
  intros Rs Hs Hse. unfold stop_level. cbv zeta.
  assert (Hlt : (Fin s <? Fin e) = true) by (apply lt_Fin; exact Hse).
  destruct (Fin e ⊖ Fin a ⊗ Fin (3 # 2) >? Fin s) eqn:G.
  - apply le_lt_trans with (Fin s); [|exact Hlt].
    let c := eval vm_compute in (F64.double (99 # 100)) in
    change (F64.double (99 # 100)) with c.
    cbn [F64.mul]. apply round64_le; [exact Rs|].
    setoid_replace s with (s * 1)%Q at 2 by ring.
    apply Qmult_le_l; [exact Hs | discriminate].
  - apply le_lt_trans with (Fin s); [|exact Hlt].
    apply not_gt_le; [|discriminate | exact G].
    apply sub_Fin_not_NaN. cbn [F64.mul]. apply round64_not_NaN.
Qed.

(** The target sits above the entry, likewise. *)
Lemma target_level_above (e r a : Q) :
  F64.representable r -> (0 < e)%Q -> (e < r)%Q ->
  (Fin e <? target_level (Fin e) (Fin r) (Fin a)) = true.
Proof.
  intros Rr He Her. unfold target_level. cbv zeta.
  assert (Hlt : (Fin e <? Fin r) = true) by (apply lt_Fin; exact Her).
  destruct (Fin e ⊕ Fin a ⊗ 3 <? Fin r) eqn:G.
  - apply lt_le_trans with (Fin r); [exact Hlt|].
    let c := eval vm_compute in (F64.double (101 # 100)) in
    change (F64.double (101 # 100)) with c.
    cbn [F64.mul]. apply round64_ge; [exact Rr|].
    setoid_replace r with (r * 1)%Q at 1 by ring.
    apply Qmult_le_l; [lra | discriminate].
  - apply lt_le_trans with (Fin r); [exact Hlt|].
    apply not_lt_le; [|discriminate | exact G].
    apply add_Fin_not_NaN. cbn [F64.mul]. apply round64_not_NaN.
Qed.

(** [toFixed] moves a number by at most half a unit of the last decimal kept,
    and by the rounding of the result to a double. *)
Lemma toFixed_close (d : nat) (y : number) (tol : Q) :
  ((1 # 2) / inject_Z (10 ^ Z.of_nat d) <= tol)%Q ->
  close_to (F64.toFixed y d) y tol.
Proof.
  intros Htol. destruct y as [q| | |]; try reflexivity.
  unfold close_to, near, ulp_slack, F64.toFixed.
  pose proof (two_pow_pos (-53)) as P53. pose proof (Qabs_nonneg q) as Hq0.
  pose proof (pow10_pos d) as Hs.
  assert (Hhalf : ((1 # 2) / inject_Z (10 ^ Z.of_nat d) <= 1 # 2)%Q).
  { apply Qle_shift_div_r; [exact Hs|].
    assert (H1 : (1 <= inject_Z (10 ^ Z.of_nat d))%Q).
    { change 1%Q with (inject_Z 1). rewrite <- Zle_Qle.
      pose proof (Z.pow_pos_nonneg 10 (Z.of_nat d) ltac:(lia) ltac:(lia)). lia. }
    lra. }
  assert (Htol0 : (0 <= tol)%Q).
  { apply Qle_trans with ((1 # 2) / inject_Z (10 ^ Z.of_nat d))%Q; [|exact Htol].
    apply Qle_shift_div_l; [exact Hs | lra]. }
  destruct (Qle_bool (inject_Z (10 ^ 21)) (Qabs q)) eqn:Big.
  - exists q. split; [reflexivity|].
    setoid_replace (q - q)%Q with 0%Q by ring. cbn [Qabs Z.abs Qnum Qden]. nra.
  - apply Qle_bool_false in Big.
    pose proof (round_dec_close d q) as Hrd. set (rd := round_dec d q) in *.
    assert (Hrd' : (Qabs (rd - q) <= 1 # 2)%Q) by lra.
    apply Qabs_Qle_condition in Hrd'. apply Qabs_Qlt_condition in Big.
    assert (B1 : (inject_Z (10 ^ 21) + 1 <= 2 ^ 100)%Q) by (vm_compute; discriminate).
    assert (R1 : F64.representable (- 2 ^ 100)) by (vm_compute; reflexivity).
    assert (R2 : F64.representable (2 ^ 100)) by (vm_compute; reflexivity).
    destruct (round64_between (- 2 ^ 100) (2 ^ 100) rd R1 R2) as [v [Ev _]]; [lra|].
    exists v. split; [exact Ev|].
    pose proof (round64_error rd v Ev) as Herr.
    assert (P1075 : (2 ^ (-1075) <= (1 # 2) * 2 ^ (-53))%Q) by (vm_compute; discriminate).
    assert (Habs : (Qabs rd <= Qabs q + (1 # 2))%Q).
    { setoid_replace rd with (q + (rd - q))%Q by ring.
      eapply Qle_trans; [apply Qabs_triangle|].
      apply Qplus_le_r. apply Qabs_Qle_condition. exact Hrd'. }
    setoid_replace (v - q)%Q with ((v - rd) + (rd - q))%Q by ring.
    eapply Qle_trans; [apply Qabs_triangle|].
    set (A := Qabs (v - rd)) in *. set (B := Qabs (rd - q)) in *.
    set (C := Qabs rd) in *. set (D := Qabs q) in *.
    set (p53 := (2 ^ (-53))%Q) in *. set (p1075 := (2 ^ (-1075))%Q) in *.
    nra.
Qed.

(** C7, as the code has it, in the arithmetic of the code.  For a support
    and a resistance with 0 < support < entryPrice < resistance, the levels
    before output rounding satisfy stop < entryPrice < target, whatever the
    ATR.  The returned stopLoss and takeProfit are these levels through
    [toFixed(8)], so within half a unit of the eighth decimal of them;
    riskRewardRatio is the computed quotient (target - entry) /
    (entry - stop) through [toFixed(2)], so within 0.005 of it; and isValid
    tells whether that quotient, not the returned one, is at least 2.  In the
    scenario entry=100, support=97, resistance=103, atr=2 the result is
    stopLoss=97, takeProfit=106, riskRewardRatio=2, isValid. *)
Theorem calculateRiskReward_ordering :
  (forall (e s r a : Q) (k : number),
      F64.representable s -> F64.representable r ->
      (0 < s)%Q -> (s < e)%Q -> (e < r)%Q ->
      let setup := calculateRiskReward (Fin e) (Fin s) (Fin r) (Fin a) k in
      let sl := stop_level (Fin e) (Fin s) (Fin a) in
      let tp := target_level (Fin e) (Fin r) (Fin a) in
      (sl <? Fin e) = true /\ (Fin e <? tp) = true /\
      stopLoss setup = F64.toFixed sl 8 /\
      takeProfit setup = F64.toFixed tp 8 /\
      riskRewardRatio setup = F64.toFixed (ratio_of (Fin e) sl tp) 2 /\
      close_to (stopLoss setup) sl (1 # 200000000) /\
      close_to (takeProfit setup) tp (1 # 200000000) /\
      close_to (riskRewardRatio setup) (ratio_of (Fin e) sl tp) (1 # 200) /\
      isValid setup = (ratio_of (Fin e) sl tp >=? 2)) /\
  (stopLoss setup_scenario = 97 /\
   takeProfit setup_scenario = 106 /\
   riskRewardRatio setup_scenario = 2 /\
   isValid setup_scenario = true).
Proof.
  split; [| repeat split; vm_compute; reflexivity].
  intros e s r a k Rs Rr Hs Hse Her. cbv zeta.
  split; [apply stop_level_below; assumption|].
  split; [apply target_level_above; [exact Rr | lra | exact Her]|].
  split; [reflexivity|]. split; [reflexivity|]. split; [reflexivity|].
  split; [apply toFixed_close; vm_compute; discriminate|].
  split; [apply toFixed_close; vm_compute; discriminate|].
  split; [apply toFixed_close; vm_compute; discriminate | reflexivity].
Qed.

(** Witness for C7: entry 50, support 48, resistance 53, ATR 1. *)
Lemma calculateRiskReward_ordering_witness :
  let setup := calculateRiskReward 50 48 53 1 2 in
  let sl := stop_level 50 48 1 in
  let tp := target_level 50 53 1 in
  (sl <? 50) = true /\ (50 <? tp) = true /\
  stopLoss setup = F64.toFixed sl 8 /\
  takeProfit setup = F64.toFixed tp 8 /\
  riskRewardRatio setup = F64.toFixed (ratio_of 50 sl tp) 2 /\
  close_to (stopLoss setup) sl (1 # 200000000) /\
  close_to (takeProfit setup) tp (1 # 200000000) /\
  close_to (riskRewardRatio setup) (ratio_of 50 sl tp) (1 # 200) /\
  isValid setup = (ratio_of 50 sl tp >=? 2).
Proof.
  apply (proj1 calculateRiskReward_ordering 50%Q 48%Q 53%Q 1%Q 2);
    first [vm_compute; reflexivity | reflexivity].
Defined.

(** C7 as worded fails on the returned, rounded levels.  For a micro-priced
    token (entry 0.00000002, support 0.000000019, resistance 0.000000021, ATR
    0.000000001, so ATR > 0 and support < entry < resistance) the stop
    0.0000000185 and the target 0.000000023 are both returned as 0.00000002,
    the entry price itself, while riskRewardRatio is 2.  With negative levels
    even the unrounded order breaks: entry -99.5, support -100 gives a stop of
    -99, above the entry. *)
Lemma calculateRiskReward_claim_fails :
  ((0 <? micro_atr) = true /\
   (micro_support <? micro_entry) = true /\
   (micro_entry <? micro_resistance) = true /\
   stopLoss setup_micro = micro_entry /\
   takeProfit setup_micro = micro_entry /\
   (stopLoss setup_micro <? entryPrice setup_micro) = false /\
   (entryPrice setup_micro <? takeProfit setup_micro) = false /\
   riskRewardRatio setup_micro = 2) /\
  (stopLoss setup_negative = -99 /\
   (stopLoss setup_negative <? entryPrice setup_negative) = false).
Proof. run_all. Qed.

(** On the edge the arithmetic decides.  Entry 100, support 99.9, resistance
    100.1, ATR 0.1: the distances 0.15 and 0.3 come out as
    0.15000000000000568 and 0.29999999999999716, the quotient as
    1.9999999999999052.  The setup is returned with riskRewardRatio 2 and
    isValid false. *)
Example calculateRiskReward_edge :
  stopLoss setup_edge = F64.double (9985 # 100) /\
  takeProfit setup_edge = F64.double (1003 # 10) /\
  riskRewardRatio setup_edge = 2 /\
  isValid setup_edge = false.
Proof. run_all. Qed.

End AdvancedAnalysisFacts.

(* ================================================================== *)
(** * The win-rate ledger *)
(* ================================================================== *)

Section MapFacts.
Import WinRate LedgerSamples.
Variable V : Type.
Implicit Types (m : Map V) (k : string) (v : V).

Lemma Map_has_false k m : Map_has k m = false <-> ~ In k (map fst m).
Proof.
  unfold Map_has. induction m as [|[k' v'] m IH]; simpl.
  - tauto.
  - rewrite orb_false_iff, IH, String.eqb_neq. tauto.
Qed.

Lemma Map_set_fresh k v m : Map_has k m = false -> Map_set k v m = (m ++ [(k, v)])%list.
Proof.
  unfold Map_has. induction m as [|[k' v'] m IH]; simpl; [reflexivity|].
  intros H. apply orb_false_iff in H. destruct H as [Hk Hm].
  rewrite Hk, (IH Hm). reflexivity.
Qed.

Lemma Map_set_size_le k v m : (Map_size (Map_set k v m) <= S (Map_size m))%nat.
Proof.
  unfold Map_size. induction m as [|[k' v'] m IH]; simpl; [lia|].
  destruct (String.eqb k' k); simpl; lia.
Qed.

Lemma Map_set_keys k v m :
  map fst (Map_set k v m) = if Map_has k m then map fst m else (map fst m ++ [k])%list.
Proof.
  unfold Map_has. induction m as [|[k' v'] m IH]; simpl; [reflexivity|].
  destruct (String.eqb k' k) eqn:E; simpl.
  - apply String.eqb_eq in E. subst k'. reflexivity.
  - rewrite IH. destruct (existsb _ m); reflexivity.
Qed.

Lemma Map_set_unique k v m : keys_unique m -> keys_unique (Map_set k v m).
Proof.
  unfold keys_unique. intros H. rewrite Map_set_keys.
  destruct (Map_has k m) eqn:E; [exact H|].
  apply Map_has_false in E.
  apply NoDup_app; [exact H | repeat constructor; intros [] | ].
  intros x Hx [Hk|[]]. subst x. contradiction.
Qed.

Lemma In_Map_delete (e : string * V) k m :
  In e (Map_delete k m) <-> In e m /\ fst e <> k.
Proof.
  unfold Map_delete. rewrite filter_In, negb_true_iff, String.eqb_neq. tauto.
Qed.

Lemma Map_delete_absent k m : ~ In k (map fst m) -> Map_delete k m = m.
Proof.
  unfold Map_delete. induction m as [|[k' v'] m IH]; simpl; [reflexivity|].
  intros H. destruct (String.eqb k' k) eqn:E.
  - apply String.eqb_eq in E. tauto.
  - simpl. rewrite IH; tauto.
Qed.

Lemma Map_delete_unique k m : keys_unique m -> keys_unique (Map_delete k m).
Proof.
  unfold keys_unique, Map_delete. induction m as [|[k' v'] m IH]; simpl; [tauto|].
  intros H. inversion H as [|? ? Hk Hm]; subst.
  destruct (negb (String.eqb k' k)); simpl; [|auto].
  constructor; [|auto]. intros Hin. apply Hk.
  apply in_map_iff in Hin. destruct Hin as [e [He Hin]].
  apply filter_In in Hin. apply in_map_iff. exists e. tauto.
Qed.

(** Deleting a key that is present removes exactly one entry. *)
Lemma Map_delete_size k m :
  keys_unique m -> In k (map fst m) -> S (Map_size (Map_delete k m)) = Map_size m.
Proof.
  unfold keys_unique, Map_size. induction m as [|[k' v'] m IH]; simpl; [tauto|].
  intros H Hin. inversion H as [|? ? Hk Hm]; subst.
  destruct (String.eqb k' k) eqn:E; simpl.
  - apply String.eqb_eq in E. subst k'.
    fold (Map_delete k m). rewrite Map_delete_absent; auto.
  - apply String.eqb_neq in E. f_equal. apply IH; [exact Hm|].
    destruct Hin as [Hin|Hin]; [contradiction | exact Hin].
Qed.

Lemma Map_delete_size_lt k m :
  In k (map fst m) -> (Map_size (Map_delete k m) < Map_size m)%nat.
Proof.
  unfold Map_size, Map_delete. induction m as [|[k' v'] m IH]; simpl; [tauto|].
  intros Hin. destruct (String.eqb k' k) eqn:E; simpl.
  - pose proof (filter_length_le (fun e => negb (String.eqb (fst e) k)) m). lia.
  - apply String.eqb_neq in E. destruct Hin as [Hin|Hin]; [contradiction|].
    specialize (IH Hin). lia.
Qed.

Lemma keys_unique_In k (a b : V) m :
  keys_unique m -> In (k, a) m -> In (k, b) m -> a = b.
Proof.
  unfold keys_unique. induction m as [|[k' v'] m IH]; simpl; [tauto|].
  intros H Ha Hb. inversion H as [|? ? Hk Hm]; subst.
  destruct Ha as [Ha|Ha], Hb as [Hb|Hb].
  - congruence.
  - injection Ha as -> ->. exfalso. apply Hk. apply in_map_iff. exists (k, b). auto.
  - injection Hb as -> ->. exfalso. apply Hk. apply in_map_iff. exists (k, a). auto.
  - auto.
Qed.

Lemma Map_get_set_keys k v v' m :
  Map_get k m = Some v -> map fst (Map_set k v' m) = map fst m.
Proof.
  induction m as [|[k1 v1] m IH]; simpl; [discriminate|].
  destruct (String.eqb k1 k) eqn:E; simpl.
  - apply String.eqb_eq in E. subst k1. reflexivity.
  - intros H. rewrite (IH H). reflexivity.
Qed.

End MapFacts.

Section MapExamples.
Import WinRate.

(** Setting an existing key keeps its place; a new key goes last. *)
Example Map_set_order :
  Map_set "a" 9 [("a", 1); ("b", 2)] = [("a", 9); ("b", 2)] /\
  Map_set "c" 3 [("a", 1); ("b", 2)] = [("a", 1); ("b", 2); ("c", 3)] /\
  Map_delete "a" [("a", 1); ("b", 2)] = [("b", 2)] /\
  Map_get "b" [("a", 1); ("b", 2)] = Some 2 /\
  Map_get "z" [("a", 1); ("b", 2)] = None.
Proof. repeat split. Qed.

(** The sort is stable: equal keys keep their order. *)
Example sort_by_stable :
  sort_by (fun a b => (fst a <? fst b)%nat) [(2, "x"); (1, "y"); (2, "z"); (1, "w")]%nat
  = [(1, "y"); (1, "w"); (2, "x"); (2, "z")]%nat.
Proof. reflexivity. Qed.

End MapExamples.

Section SortFacts.
Import WinRate.
Variable A : Type.
Variable before : A -> A -> bool.

Lemma In_insert_sorted (x y : A) (l : list A) :
  In y (insert_sorted before x l) <-> y = x \/ In y l.
Proof.
  induction l as [|z l IH]; simpl.
  - intuition congruence.
  - destruct (before z x); simpl; rewrite ?IH; intuition congruence.
Qed.

(** Sorting keeps exactly the elements it was given. *)
Lemma In_sort_by (y : A) (l : list A) : In y (sort_by before l) <-> In y l.
Proof.
  induction l as [|x l IH]; simpl; [tauto|].
  rewrite In_insert_sorted, IH. intuition congruence.
Qed.

Lemma insert_sorted_length (x : A) (l : list A) :
  List.length (insert_sorted before x l) = S (List.length l).
Proof.
  induction l as [|z l IH]; simpl; [reflexivity|].
  destruct (before z x); simpl; rewrite ?IH; reflexivity.
Qed.

Lemma sort_by_length (l : list A) : List.length (sort_by before l) = List.length l.
Proof.
  induction l as [|x l IH]; simpl; [reflexivity|].
  rewrite insert_sorted_length, IH. reflexivity.
Qed.

End SortFacts.

Section LedgerFacts.
Import WinRate LedgerSamples.
Local Open Scope list_scope.
Implicit Types (t : Tracker) (s : SignalRecord) (e : string * SignalRecord).

Lemma older_true e1 e2 :
  older e1 e2 = true <-> (timestamp (snd e1) < timestamp (snd e2))%Q.
Proof.
  unfold older. rewrite Qlt_alt.
  destruct (timestamp (snd e1) ?= timestamp (snd e2))%Q; split; congruence.
Qed.

Lemma older_false e1 e2 :
  older e1 e2 = false <-> (timestamp (snd e2) <= timestamp (snd e1))%Q.
Proof.
  rewrite <- not_true_iff_false, older_true.
  split; [apply Qnot_lt_le | apply Qle_not_lt].
Qed.

(** The head of the eviction sort is an entry of minimal timestamp. *)
Lemma sort_older_head (l : list (string * SignalRecord)) e rest :
  sort_by older l = e :: rest ->
  In e l /\ forall e', In e' l -> (timestamp (snd e) <= timestamp (snd e'))%Q.
Proof.
  intros H. split.
  - apply (In_sort_by _ older). rewrite H. left. reflexivity.
  - revert e rest H. induction l as [|x l IH]; intros e rest H e' Hin; [destruct Hin|].
    simpl in H. destruct (sort_by older l) as [|y r] eqn:E.
    + simpl in H. injection H as <- <-.
      pose proof (sort_by_length _ older l) as Hl. rewrite E in Hl.
      destruct l; [|discriminate Hl]. destruct Hin as [<-|[]]. apply Qle_refl.
    + specialize (IH y r eq_refl). simpl in H.
      destruct (older y x) eqn:Ho; injection H as <- <-.
      * apply older_true in Ho. destruct Hin as [<-|Hin]; [lra | auto].
      * apply older_false in Ho. destruct Hin as [<-|Hin]; [apply Qle_refl|].
        specialize (IH e' Hin). lra.
Qed.

(** When the newest insertion is last in the map, it heads the eviction sort
    only if it is strictly older than everything before it. *)
Lemma sort_older_head_last (l : list (string * SignalRecord)) x e rest :
  sort_by older (l ++ [x]) = e :: rest ->
  (e = x /\ forall e', In e' l -> (timestamp (snd x) < timestamp (snd e'))%Q) \/
  (In e l /\ (timestamp (snd e) <= timestamp (snd x))%Q).
Proof.
  revert e rest. induction l as [|a l IH]; intros e rest H.
  - simpl in H. injection H as <- <-. left. split; [reflexivity | intros ? []].
  - simpl in H. destruct (sort_by older (l ++ [x])) as [|y r] eqn:E.
    + pose proof (sort_by_length _ older (l ++ [x])) as Hl. rewrite E in Hl.
      rewrite length_app in Hl. simpl in Hl. lia.
    + specialize (IH y r eq_refl). simpl in H.
      destruct (older y a) eqn:Ho; injection H as <- <-.
      * apply older_true in Ho.
        destruct IH as [[-> IH]|[Hin Hle]].
        -- left. split; [reflexivity|]. intros e' [<-|Hin]; auto.
        -- right. split; [right; exact Hin | exact Hle].
      * apply older_false in Ho. right. split; [left; reflexivity|].
        destruct IH as [[-> IH]|[Hin Hle]]; lra.
Qed.

Lemma recordSignal_size_le s t :
  (Map_size t <= MAX_SIGNALS)%nat -> (Map_size (recordSignal s t) <= MAX_SIGNALS)%nat.
Proof.
  intros H. unfold recordSignal. cbv zeta.
  pose proof (Map_set_size_le _ (id s) s t) as Hset.
  destruct (MAX_SIGNALS <? Map_size (Map_set (id s) s t))%nat eqn:E.
  - destruct (sort_by older (Map_set (id s) s t)) as [|[k r] rest] eqn:Es.
    + pose proof (sort_by_length _ older (Map_set (id s) s t)) as Hl.
      rewrite Es in Hl. apply Nat.ltb_lt in E. unfold Map_size in *.
      rewrite <- Hl in E. simpl in E. lia.
    + apply sort_older_head in Es. destruct Es as [Hin _].
      assert (Hk : In k (map fst (Map_set (id s) s t))).
      { apply in_map_iff. exists (k, r). auto. }
      pose proof (Map_delete_size_lt _ _ _ Hk). lia.
  - apply Nat.ltb_ge in E. exact E.
Qed.

Lemma recordSignal_unique s t : keys_unique t -> keys_unique (recordSignal s t).
Proof.
  intros H. unfold recordSignal. cbv zeta.
  pose proof (Map_set_unique _ (id s) s t H) as Hset.
  destruct (MAX_SIGNALS <? Map_size (Map_set (id s) s t))%nat; [|exact Hset].
  destruct (sort_by older (Map_set (id s) s t)) as [|[k r] rest]; [exact Hset|].
  apply Map_delete_unique. exact Hset.
Qed.

Lemma updateSignalExit_keys i price time n t :
  map fst (updateSignalExit i price time n t) = map fst t.
Proof.
  unfold updateSignalExit. destruct (Map_get i t) as [r|] eqn:E; [|reflexivity].
  cbv zeta. apply (Map_get_set_keys _ _ _ _ _ E).
Qed.

Create HintDb ledger.
#[local] Hint Resolve recordSignal_size_le recordSignal_unique Nat.le_0_l : ledger.
#[local] Hint Constructors NoDup : ledger.

(** What the class keeps true of its private map. *)
Lemma reachable_invariant t :
  reachable t -> (Map_size t <= MAX_SIGNALS)%nat /\ keys_unique t.
Proof.
  induction 1 as [|s t _ [IHsize IHkeys]|i price time n t _ [IHsize IHkeys]].
  - split; [auto with ledger | unfold keys_unique; simpl; auto with ledger].
  - split; auto with ledger.
  - unfold keys_unique, Map_size in *.
    rewrite <- (length_map fst), updateSignalExit_keys, length_map. auto.
Qed.

(** C6, as the code has it.  A tracker never holds more than 10,000 entries
    (one per id), whatever calls built it.  Recording a signal with a fresh id
    into a tracker that holds exactly 10,000 leaves exactly 10,000, and
    exactly one record is dropped: the one with the least timestamp among the
    stored records and the new one.  If some stored record is at least as old as the
    new signal, an oldest stored record is dropped and the new signal is kept;
    if the new signal is strictly older than every stored record, it is the
    one dropped and the tracker is unchanged. *)
Theorem recordSignal_capacity :
  (forall t, reachable t -> (Map_size t <= MAX_SIGNALS)%nat /\ keys_unique t) /\
  (forall t s,
      keys_unique t -> Map_size t = MAX_SIGNALS -> Map_has (id s) t = false ->
      Map_size (recordSignal s t) = MAX_SIGNALS /\
      (((forall e, In e t -> (timestamp s < timestamp (snd e))%Q) /\
        recordSignal s t = t) \/
       (exists victim,
           In victim t /\
           (forall e, In e t -> (timestamp (snd victim) <= timestamp (snd e))%Q) /\
           (timestamp (snd victim) <= timestamp s)%Q /\
           forall e, In e (recordSignal s t) <->
                     (In e t /\ e <> victim) \/ e = (id s, s)))).
Proof.
  split; [intros t Ht; apply (reachable_invariant t Ht)|].
  intros t s Hu Hsize Hfresh.
  pose proof (Map_has_false _ (id s) t) as Hnotin. rewrite Hfresh in Hnotin.
  assert (Hnew : ~ In (id s) (map fst t)) by (apply Hnotin; reflexivity).
  pose proof (Map_set_unique _ (id s) s t Hu) as Hu1.
  unfold recordSignal. cbv zeta. rewrite (Map_set_fresh _ _ s _ Hfresh) in *.
  assert (Hlen : Map_size (t ++ [(id s, s)]) = S MAX_SIGNALS).
  { unfold Map_size in *. rewrite length_app, Hsize. cbn [List.length]. lia. }
  rewrite Hlen. rewrite (proj2 (Nat.ltb_lt _ _) (Nat.lt_succ_diag_r _)).
  destruct (sort_by older (t ++ [(id s, s)])) as [|[k r] rest] eqn:Es.
  { pose proof (sort_by_length _ older (t ++ [(id s, s)])) as Hl.
    rewrite Es in Hl. unfold Map_size in Hlen. rewrite Hlen in Hl. discriminate. }
  pose proof (sort_older_head _ _ _ Es) as [Hin Hmin].
  assert (Hk : In k (map fst (t ++ [(id s, s)]))).
  { apply in_map_iff. exists (k, r). auto. }
  split.
  { pose proof (Map_delete_size _ _ _ Hu1 Hk) as Hd. rewrite Hlen in Hd. lia. }
  destruct (sort_older_head_last _ _ _ _ Es) as [[Heq Hall]|[Hint Hle]].
  - left. injection Heq as -> ->. split; [exact Hall|].
    unfold Map_delete. rewrite filter_app. simpl. rewrite String.eqb_refl. simpl.
    rewrite app_nil_r. apply (Map_delete_absent _ _ _ Hnew).
  - right. exists (k, r). simpl in *.
    split; [exact Hint|]. split; [intros e He; apply Hmin, in_or_app; auto|].
    split; [exact Hle|].
    assert (Hks : k <> id s).
    { intros ->. apply Hnew. apply in_map_iff. exists (id s, r). auto. }
    intros e. rewrite In_Map_delete, in_app_iff. simpl. split.
    + intros [[He|[He|[]]] Hne]; [left | right; auto].
      split; [exact He | intros ->; apply Hne; reflexivity].
    + intros [[He Hne]| ->].
      * split; [auto|]. intros Hfst. apply Hne. destruct e as [k' r']. simpl in Hfst.
        subst k'. f_equal. apply (keys_unique_In _ _ _ _ _ Hu He Hint).
      * split; [auto|]. simpl. congruence.
Qed.

Lemma pos_id_inj (p q : positive) : pos_id p = pos_id q -> p = q.
Proof.
  revert q. induction p as [p IH|p IH|]; intros [q|q|]; simpl; intros H;
    try discriminate H; try reflexivity;
    injection H as H; f_equal; apply IH; exact H.
Qed.

Lemma run_keys (n : nat) (p : positive) (k : string) :
  In k (map fst (run n p)) -> exists q, k = pos_id q /\ (p <= q)%positive.
Proof.
  revert p. induction n as [|n IH]; intros p; simpl; [tauto|].
  intros [<-|Hin].
  - exists p. split; [reflexivity | lia].
  - destruct (IH _ Hin) as [q [-> Hq]]. exists q. split; [reflexivity | lia].
Qed.

Lemma run_unique (n : nat) (p : positive) : keys_unique (run n p).
Proof.
  unfold keys_unique. revert p. induction n as [|n IH]; intros p; simpl;
    constructor; [|apply IH].
  intros Hin. apply run_keys in Hin. destruct Hin as [q [Hq Hle]].
  apply pos_id_inj in Hq. lia.
Qed.

Lemma run_size (n : nat) (p : positive) : Map_size (run n p) = n.
Proof.
  unfold Map_size. revert p. induction n as [|n IH]; intros p; simpl;
    [|rewrite IH]; reflexivity.
Qed.

Lemma full_ledger_unique : keys_unique full_ledger.
Proof. apply run_unique. Qed.

Lemma full_ledger_size : Map_size full_ledger = MAX_SIGNALS.
Proof. apply run_size. Qed.

(** Witness for C6: the ledger of signals 1 .. 10000 is at capacity, and the
    next signal of the run has a fresh id. *)
Lemma recordSignal_capacity_witness :
  (reachable (recordSignal fresh_signal new_tracker) /\
   (Map_size (recordSignal fresh_signal new_tracker) <= MAX_SIGNALS)%nat /\
   keys_unique (recordSignal fresh_signal new_tracker)) /\
  keys_unique full_ledger /\ Map_size full_ledger = MAX_SIGNALS /\
  Map_has (id fresh_signal) full_ledger = false /\
  Map_size (recordSignal fresh_signal full_ledger) = MAX_SIGNALS /\
  (((forall e, In e full_ledger -> (timestamp fresh_signal < timestamp (snd e))%Q) /\
    recordSignal fresh_signal full_ledger = full_ledger) \/
   (exists victim,
       In victim full_ledger /\
       (forall e, In e full_ledger -> (timestamp (snd victim) <= timestamp (snd e))%Q) /\
       (timestamp (snd victim) <= timestamp fresh_signal)%Q /\
       forall e, In e (recordSignal fresh_signal full_ledger) <->
                 (In e full_ledger /\ e <> victim) \/ e = (id fresh_signal, fresh_signal))).
Proof.
  assert (Hfresh : Map_has (id fresh_signal) full_ledger = false)
    by (vm_compute; reflexivity).
  assert (Hreach : reachable (recordSignal fresh_signal new_tracker))
    by (apply reach_record, reach_new).
  split; [split; [exact Hreach | exact (proj1 recordSignal_capacity _ Hreach)]|].
  split; [exact full_ledger_unique|]. split; [exact full_ledger_size|].
  split; [exact Hfresh|].
  exact (proj2 recordSignal_capacity full_ledger fresh_signal
               full_ledger_unique full_ledger_size Hfresh).
Defined.

(** C6 as worded fails when the signal recorded beyond capacity carries a
    timestamp older than everything stored.  [full_ledger] holds 10,000
    records, the oldest being signal 1 at millisecond 1001; recording
    [stale_signal] (fresh id, millisecond 5) leaves 10,000 records, but the
    oldest stored record is still there: the one dropped is the new signal. *)
Lemma recordSignal_claim_fails :
  Map_size full_ledger = MAX_SIGNALS /\
  Map_has (id stale_signal) full_ledger = false /\
  Map_get (pos_id 1) full_ledger = Some (run_signal 1) /\
  forallb (fun e => Qle_bool (timestamp (run_signal 1)) (timestamp (snd e)))
          full_ledger = true /\
  Map_size (recordSignal stale_signal full_ledger) = MAX_SIGNALS /\
  Map_get (pos_id 1) (recordSignal stale_signal full_ledger) = Some (run_signal 1) /\
  Map_has (id stale_signal) (recordSignal stale_signal full_ledger) = false.
Proof. run_all. Qed.

End LedgerFacts.

Section QueryFacts.
Import WinRate LedgerSamples.
Variable sqrtQ : Q -> Q.
Implicit Types (t : Tracker) (s : SignalRecord) (now days : Q).

Lemma in_window_true c s :
  in_window c s = true <-> (c < timestamp s)%Q /\ outcome s <> None.
Proof.
  unfold in_window, has_outcome. rewrite andb_true_iff, Qlt_alt.
  destruct (c ?= timestamp s)%Q, (outcome s); intuition congruence.
Qed.

Lemma filter_idem (A : Type) (p : A -> bool) (l : list A) :
  filter p (filter p l) = filter p l.
Proof.
  induction l as [|x l IH]; simpl; [reflexivity|].
  destruct (p x) eqn:E; simpl; rewrite ?E, IH; reflexivity.
Qed.

Lemma Map_values_filter (p : SignalRecord -> bool) t :
  Map_values (filter (fun e => p (snd e)) t) = filter p (Map_values t).
Proof.
  unfold Map_values. induction t as [|[k r] t IH]; simpl; [reflexivity|].
  destruct (p r); simpl; rewrite IH; reflexivity.
Qed.

(** Records outside the window, or still open, do not reach the query. *)
Lemma allSignals_of_window now days t :
  allSignals_of now days
    (filter (fun e => in_window (cutoff_of now days) (snd e)) t)
  = allSignals_of now days t.
Proof.
  unfold allSignals_of. cbv zeta.
  rewrite Map_values_filter, filter_idem. reflexivity.
Qed.


Lemma fold_left_sum_map (A : Type) (f : A -> number) (l : list A) (a : number) :
  fold_left (fun acc x => acc ⊕ f x) l a = fold_left F64.add (map f l) a.
Proof. revert a. induction l as [|x l IH]; intros a; simpl; [|rewrite IH]; reflexivity. Qed.

(** C8, as the code has it, in the arithmetic of the code.  With no closed
    signal in the window the profit factor is 0.  Otherwise it is the sum of
    the winners' profitLossPercent divided by the sum of the absolute values of
    the losers' profitLossPercent when that sum is positive, and 999 when it is
    not, in particular when there is no loser; the result is taken to two
    decimals as [Math.round(x * 100) / 100], each operation rounding as a
    double does.  One win of +5% and one loss of -2% give winRate 50,
    profitFactor 2.5, averageWin 5 and averageLoss 2. *)
Theorem analyzeWinRate_profitFactor :
  (forall now days t,
      let a := analyzeWinRate sqrtQ now days t in
      (allSignals_of now days t = [] -> profitFactor a = 0) /\
      (allSignals_of now days t <> [] ->
       profitFactor a =
       round2 (if total_losses now days t >? 0
               then total_gains now days t ⊘ total_losses now days t
               else 999) /\
       (losers now days t = [] -> profitFactor a = 999))) /\
  (let a := analyzeWinRate sqrtQ day_one 30 ledger_scenario in
   totalSignals a = 2%nat /\ winRate a = 50 /\
   profitFactor a = Fin (5 # 2) /\ averageWin a = 5 /\ averageLoss a = 2).
Proof.
  split; [| run_all].
  intros now days t. cbv zeta. unfold analyzeWinRate.
  unfold total_losses, total_gains, losers, winners, F64.sum.
  destruct (allSignals_of now days t) as [|s0 l] eqn:E.
  - split; [reflexivity | congruence].
  - split; [discriminate|]. intros _. cbn [List.length Nat.eqb profitFactor].
    rewrite (fold_left_sum_map _ pct_or_0),
      (fold_left_sum_map _ (fun s => abs (pct_or_0 s))). split; [reflexivity|].
    intros Hl. rewrite Hl. vm_compute. reflexivity.
Qed.

End QueryFacts.

Section QueryExamples.
Import WinRate LedgerSamples.

(** Witness for C8: an empty tracker has no closed signal; the scenario ledger
    has two, one of them a loser, and its profit factor is 5 / 2. *)
Lemma analyzeWinRate_profitFactor_witness :
  (allSignals_of day_one 30 new_tracker = [] /\
   profitFactor (analyzeWinRate sqrt_approx day_one 30 new_tracker) = 0) /\
  (allSignals_of day_one 30 ledger_scenario <> [] /\
   profitFactor (analyzeWinRate sqrt_approx day_one 30 ledger_scenario) =
   round2 (if total_losses day_one 30 ledger_scenario >? 0
           then total_gains day_one 30 ledger_scenario
                ⊘ total_losses day_one 30 ledger_scenario
           else 999)).
Proof.
  split.
  - split; [reflexivity|].
    apply (proj1 (proj1 (analyzeWinRate_profitFactor sqrt_approx) day_one 30%Q new_tracker)).
    reflexivity.
  - assert (H : allSignals_of day_one 30 ledger_scenario <> [])
      by (vm_compute; discriminate).
    split; [exact H|].
    apply (proj2 (proj1 (analyzeWinRate_profitFactor sqrt_approx)
                        day_one 30%Q ledger_scenario) H).
Defined.

(** C8 as worded fails twice.  An empty ledger has no losing signal, and its
    profit factor is 0, not 999.  With one win of +1% and one loss of -3% the
    profit factor is 0.33, not the quotient 1/3. *)
Lemma analyzeWinRate_claim_fails :
  (losers day_one 30 new_tracker = [] /\
   profitFactor (analyzeWinRate sqrt_approx day_one 30 new_tracker) = 0 /\
   (profitFactor (analyzeWinRate sqrt_approx day_one 30 new_tracker) === 999) = false) /\
  (total_gains day_one 30 ledger_thirds = 1 /\
   total_losses day_one 30 ledger_thirds = 3 /\
   profitFactor (analyzeWinRate sqrt_approx day_one 30 ledger_thirds)
   = F64.double (33 # 100) /\
   (profitFactor (analyzeWinRate sqrt_approx day_one 30 ledger_thirds)
    === F64.double (1 # 3)) = false).
Proof. run_all. Qed.

(** The two decimals are those of the computed doubles.  With gains of 23 and
    losses of 40 the quotient is the double 0.575, a little under 23/40; times
    100 it is 57.49999999999999, which rounds down: the profit factor is 0.57
    where the exact quotient 0.575 would give 0.58. *)
Example analyzeWinRate_rounding :
  total_gains day_one 30 ledger_rounding = 23 /\
  total_losses day_one 30 ledger_rounding = 40 /\
  (F64.double (23 # 40) ⊗ 100 <? Fin (115 # 2)) = true /\
  profitFactor (analyzeWinRate sqrt_approx day_one 30 ledger_rounding)
  = F64.double (57 # 100).
Proof. run_all. Qed.

End QueryExamples.

(* ================================================================== *)
(** * The indicator calculators *)
(* ================================================================== *)

Section IndicatorFacts.
Import Indicators IndicatorSamples.
Variable sqrtQ : Q -> Q.

Lemma last_elem_app (l : list number) (a : number) : last_elem (l ++ [a])%list = a.
Proof.
  unfold last_elem, get, len. rewrite length_app, Nat.add_comm. cbn [List.length Nat.add].
  replace (Z.of_nat (S (List.length l)) - 1)%Z with (Z.of_nat (List.length l)) by lia.
  destruct (Z.ltb_spec (Z.of_nat (List.length l)) 0) as [H|_]; [lia|].
  rewrite Nat2Z.id, app_nth2, Nat.sub_diag; [reflexivity | lia].
Qed.

(** On a non-empty array [l[l.length - 1]] is the last element. *)
Lemma last_elem_last (l : list number) : l <> [] -> last_elem l = List.last l NaN.
Proof.
  intros H. destruct (exists_last H) as [l' [a ->]].
  rewrite last_elem_app, last_last. reflexivity.
Qed.

Lemma calculateEMA_short (prices : list number) (period : nat) :
  (List.length prices < period)%nat -> calculateEMA prices period = Ok (last_elem prices).
Proof.
  intros H. unfold calculateEMA. apply Nat.ltb_lt in H. rewrite H. reflexivity.
Qed.

(** On a window that reaches the period, with a period above 0, the EMA is
    computed and nothing is raised. *)
Lemma calculateEMA_full (prices : list number) (period : nat) :
  (0 < period)%nat -> (period <= List.length prices)%nat ->
  exists v : number, calculateEMA prices period = Ok v.
Proof.
  intros Hp Hlen. unfold calculateEMA.
  replace (List.length prices <? period)%nat with false
    by (symmetry; apply Nat.ltb_ge; exact Hlen).
  unfold slice. rewrite Nat.sub_0_r. cbn [skipn].
  destruct prices as [|x prices]; [simpl in Hlen; lia|].
  destruct period as [|period]; [lia|].
  cbn [firstn sum1 bind]. eexists. reflexivity.
Qed.

Lemma mapM_Ok (A B : Type) (f : A -> result B) (l : list A) :
  (forall x, In x l -> exists y, f x = Ok y) ->
  exists ys, mapM f l = Ok ys /\ List.length ys = List.length l.
Proof.
  induction l as [|x l IH]; intros H.
  - exists []. split; reflexivity.
  - destruct (H x (or_introl eq_refl)) as [y Hy].
    destruct IH as [ys [Hys Hlen]]; [intros z Hz; apply H; right; exact Hz|].
    exists (y :: ys). cbn [mapM bind]. rewrite Hy. cbn [bind]. rewrite Hys.
    split; [reflexivity | simpl; rewrite Hlen; reflexivity].
Qed.

Lemma slice_length (A : Type) (i j : nat) (l : list A) :
  (i <= j)%nat -> (j <= List.length l)%nat -> List.length (slice i j l) = (j - i)%nat.
Proof.
  intros Hij Hj. unfold slice. rewrite length_firstn, length_skipn. lia.
Qed.

(** The MACD history has one entry per sample beyond the 26th. *)
Lemma macdHistory_of_length (priceHistory : list number) :
  exists hist, macdHistory_of priceHistory = Ok hist /\
               List.length hist = (List.length priceHistory - 26)%nat.
Proof.
  unfold macdHistory_of.
  destruct (mapM_Ok _ _
              (fun i : nat =>
                 a <- calculateEMA (slice i (i + 26) priceHistory) 12 ;;
                 b <- calculateEMA (slice i (i + 26) priceHistory) 26 ;;
                 Ok (a - b))
              (seq 0 (List.length priceHistory - 26))) as [hist [Hh Hl]].
  - intros i Hi. apply in_seq in Hi.
    assert (Hs : List.length (slice i (i + 26) priceHistory) = 26%nat)
      by (rewrite slice_length; lia).
    destruct (calculateEMA_full (slice i (i + 26) priceHistory) 12) as [a Ha]; [lia..|].
    destruct (calculateEMA_full (slice i (i + 26) priceHistory) 26) as [b Hb]; [lia..|].
    rewrite Ha, Hb. eexists. reflexivity.
  - exists hist. rewrite length_seq in Hl. auto.
Qed.


(** C5, as the code has it.  On a window shorter than the period (for RSI:
    not longer than it) RSI and the stochastic oscillator return 50, and ATR
    and the Bollinger bands return 0, each with the label "Insufficient Data";
    ADX returns 20 with the labels "Weak Trend" and "Weak".  Under 26 samples
    MACD returns 0 and, like Ichimoku, "Insufficient Data"; under 21 samples
    the EMA cross returns 0 and "Insufficient Data"; under 2 samples OBV
    returns "Neutral" and "Insufficient Data"; on no sample VWAP returns 0 and
    "No Data".  None of them raises. *)
Theorem calculators_insufficient_data :
  (forall (window low close : list number) (period : nat) (stdDev : number),
      (List.length window < period)%nat ->
      calculateRSI window period =
        {| rsi_value := 50; rsi_signal := "Insufficient Data";
           rsi_strength := "Neutral" |} /\
      calculateStochastic window period =
        {| stoch_k := 50; stoch_d := 50; stoch_signal := "Insufficient Data" |} /\
      calculateATR window low close period =
        {| atr_value := 0; atr_volatility := "Insufficient Data" |} /\
      calculateBollingerBands sqrtQ window period stdDev =
        Ok {| bollinger_upper := 0; bollinger_lower := 0; bollinger_middle := 0;
              bollinger_position := "Insufficient Data" |} /\
      calculateADX window low close period =
        {| adx_value := 20; adx_trend := "Weak Trend"; adx_strength := "Weak" |}) /\
  (forall (window : list number) (period : nat),
      List.length window = period ->
      calculateRSI window period =
        {| rsi_value := 50; rsi_signal := "Insufficient Data";
           rsi_strength := "Neutral" |}) /\
  (forall window low close : list number,
      (List.length window < 26)%nat ->
      calculateMACD window =
        Ok {| macd_histogram := 0; macd_signal := "Insufficient Data";
              macd_momentum := "Neutral" |} /\
      calculateIchimoku window low close =
        {| ichimoku_cloud_signal := "Insufficient Data";
           ichimoku_momentum := "Neutral" |}) /\
  (forall window : list number,
      (List.length window < 21)%nat ->
      calculateEMACross window =
        Ok {| ema_ema9 := 0; ema_ema21 := 0; ema_alignment := "Insufficient Data";
              ema_signal := "Neutral" |}) /\
  (forall window volumes : list number,
      (List.length window < 2)%nat ->
      calculateOBV window volumes =
        {| obv_trend := "Neutral"; obv_momentum := "Insufficient Data" |}) /\
  (forall volumes : list number,
      calculateVWAP [] volumes = {| vwap_level := 0; vwap_price_vs_vwap := "No Data" |}).
Proof.
  repeat match goal with |- _ /\ _ => split end.
  - intros window low close period stdDev H.
    unfold calculateRSI, calculateStochastic, calculateATR,
      calculateBollingerBands, calculateADX.
    assert (H1 : (List.length window <? period + 1)%nat = true)
      by (apply Nat.ltb_lt; lia).
    apply Nat.ltb_lt in H. rewrite H, H1. repeat split; reflexivity.
  - intros window period H. unfold calculateRSI.
    assert (H1 : (List.length window <? period + 1)%nat = true)
      by (apply Nat.ltb_lt; lia).
    rewrite H1. reflexivity.
  - intros window low close H. unfold calculateMACD, calculateIchimoku.
    apply Nat.ltb_lt in H. rewrite H. split; reflexivity.
  - intros window H. unfold calculateEMACross.
    apply Nat.ltb_lt in H. rewrite H. reflexivity.
  - intros window volumes H. unfold calculateOBV.
    apply Nat.ltb_lt in H. rewrite H. reflexivity.
  - intros volumes. reflexivity.
Qed.

Lemma round_dec_comp (d : nat) (x y : Q) : (x == y)%Q -> round_dec d x = round_dec d y.
Proof.
  intros E. unfold round_dec. cbv zeta. apply Qred_complete.
  set (s := inject_Z (10 ^ Z.of_nat d)).
  assert (Hb : Qle_bool 0 x = Qle_bool 0 y) by (rewrite E; reflexivity).
  assert (Hp : Qfloor (x * s + (1 # 2)) = Qfloor (y * s + (1 # 2)))
    by (apply Qfloor_comp; rewrite E; reflexivity).
  assert (Hn : Qfloor (- x * s + (1 # 2)) = Qfloor (- y * s + (1 # 2)))
    by (apply Qfloor_comp; rewrite E; reflexivity).
  rewrite Hb, Hp, Hn. reflexivity.
Qed.

(** C4, as the code has it.  On twenty samples of 100 the bands collapse:
    upper = lower = middle = 100 (the standard deviation is 0), and the
    position is "Upper Band (Overbought)", because the last price exceeds 95%
    of the upper band. *)
Theorem calculateBollingerBands_flat :
  (forall q : Q, (q == 0)%Q -> (sqrtQ q == 0)%Q) ->
  calculateBollingerBands sqrtQ flat_window 20 2 =
  Ok {| bollinger_upper := 100; bollinger_lower := 100; bollinger_middle := 100;
        bollinger_position := "Upper Band (Overbought)" |}.
Proof.
  intros Hsqrt. unfold calculateBollingerBands.
  replace (List.length flat_window <? 20)%nat with false by reflexivity.
  cbv zeta.
  replace (sum1 (slice_last 20 flat_window)) with (Ok (A:=number) 2000)
    by (vm_compute; reflexivity).
  cbn [bind].
  replace (2000 / of_nat 20) with (Fin 100) by (vm_compute; reflexivity).
  replace (fold_left (fun sum price => sum + sq (price - Fin 100))
                     (slice_last 20 flat_window) 0 / of_nat 20)
    with (Fin 0) by (vm_compute; reflexivity).
  replace (last_elem flat_window) with (Fin 100) by (vm_compute; reflexivity).
  replace (Math_sqrt sqrtQ (Fin 0)) with (Fin (sqrtQ 0)) by reflexivity.
  pose proof (Hsqrt 0%Q (Qeq_refl 0)) as Hs. set (s := sqrtQ 0) in *.
  change (of_Z 2) with (Fin 2%Q).
  cbn [add sub neg mul].
  assert (Hu : (Qred (100 + Qred (s * 2)) == 100)%Q)
    by (rewrite !Qred_correct, Hs; reflexivity).
  assert (Hl : (Qred (100 + - Qred (s * 2)) == 100)%Q)
    by (rewrite !Qred_correct, Hs; reflexivity).
  assert (Hpos : (Fin 100 >? Fin (Qred (Qred (100 + Qred (s * 2)) * (19 # 20)))) = true).
  { apply gt_Fin. rewrite Qred_correct, Hu. reflexivity. }
  rewrite Hpos. cbn [toFixed].
  rewrite (round_dec_comp 8 _ _ Hu), (round_dec_comp 8 _ _ Hl).
  reflexivity.
Qed.

(** A synthetic volume history reads [n] draws and nothing else. *)
Lemma generateVolumeHistory_rng (m : TokenMetrics) (n : nat) (g : Rng) :
  snd (generateVolumeHistory m n g) = {| draws := draws g; cursor := cursor g + n |}.
Proof.
  revert g. induction n as [|n IH]; intros g.
  - simpl. rewrite Nat.add_0_r. destruct g; reflexivity.
  - simpl. destruct (generateVolumeHistory m n _) as [hist g2] eqn:E.
    simpl. change g2 with (snd (hist, g2)). rewrite <- E, IH. simpl.
    f_equal. lia.
Qed.

Lemma generateVolumeHistory_draws (m : TokenMetrics) (n : nat) (g g' : Rng) :
  same_draws n g g' ->
  fst (generateVolumeHistory m n g) = fst (generateVolumeHistory m n g').
Proof.
  revert g g'. induction n as [|n IH]; intros g g' H; [reflexivity|].
  simpl.
  destruct (generateVolumeHistory m n {| draws := draws g; cursor := S (cursor g) |})
    as [h1 g1] eqn:E1.
  destruct (generateVolumeHistory m n {| draws := draws g'; cursor := S (cursor g') |})
    as [h2 g2] eqn:E2.
  simpl. f_equal.
  - pose proof (H 0%nat (Nat.lt_0_succ n)) as H0. rewrite !Nat.add_0_r in H0.
    rewrite H0. reflexivity.
  - change h1 with (fst (h1, g1)). change h2 with (fst (h2, g2)).
    rewrite <- E1, <- E2. apply IH. intros i Hi. simpl.
    specialize (H (S i) (proj1 (Nat.succ_lt_mono i n) Hi)).
    rewrite !Nat.add_succ_r in H. exact H.
Qed.

(** C3, as the code has it.  Every calculator is a function of its arguments.
    For a supplied, non-empty price history [analyzeIndicators] is a function
    of the metrics, the history and the [2 * length] values it draws from
    [Math.random] for the two synthetic volume histories: two calls that draw
    the same values return the same analysis.  Its rsi, macd, ema, bollinger,
    atr, stoch, adx and ichimoku fields do not depend on the draws at all. *)
Theorem analyzeIndicators_determinism (m : TokenMetrics) (h : list number) :
  h <> [] ->
  (forall g g' : Rng,
      same_draws (2 * List.length h) g g' ->
      analysis_of (analyzeIndicators sqrtQ m h g) =
      analysis_of (analyzeIndicators sqrtQ m h g')) /\
  (forall g g' : Rng,
      price_part (analyzeIndicators sqrtQ m h g) =
      price_part (analyzeIndicators sqrtQ m h g')).
Proof.
  intros Hne.
  assert (Hlen : (List.length h =? 0)%nat = false).
  { destruct h; [contradiction | reflexivity]. }
  split; intros g g'; [intros Hd|]; unfold analyzeIndicators; rewrite Hlen;
    destruct (calculateMACD h) as [macd_|e]; try reflexivity;
    destruct (calculateEMACross h) as [ema_|e]; try reflexivity;
    destruct (calculateBollingerBands sqrtQ h 20 2) as [boll_|e]; try reflexivity;
    cbn [bind];
    pose proof (generateVolumeHistory_rng m (List.length h) g) as R1;
    pose proof (generateVolumeHistory_rng m (List.length h) g') as R1';
    destruct (generateVolumeHistory m (List.length h) g) as [v1 g1] eqn:E1;
    destruct (generateVolumeHistory m (List.length h) g') as [v1' g1'] eqn:E1';
    destruct (generateVolumeHistory m (List.length h) g1) as [v2 g2] eqn:E2;
    destruct (generateVolumeHistory m (List.length h) g1') as [v2' g2'] eqn:E2';
    cbn [analysis_of price_part price_fields rsi macd ema bollinger atr stoch adx
         ichimoku]; [|reflexivity].
  assert (Hv1 : v1 = v1').
  { change v1 with (fst (v1, g1)). change v1' with (fst (v1', g1')).
    rewrite <- E1, <- E1'. apply generateVolumeHistory_draws.
    intros i Hi. apply Hd. lia. }
  assert (Hv2 : v2 = v2').
  { change v2 with (fst (v2, g2)). change v2' with (fst (v2', g2')).
    rewrite <- E2, <- E2'. apply generateVolumeHistory_draws.
    simpl in R1, R1'. subst g1 g1'. intros i Hi. simpl.
    rewrite <- !Nat.add_assoc. apply Hd. lia. }
  subst v1' v2'. reflexivity.
Qed.

End IndicatorFacts.

Section IndicatorExamples.
Import Indicators IndicatorSamples.

(** ** The calculators on a rising window, traced by hand against the source *)

(** Fourteen gains of 1 and no loss: RS is infinite and the RSI is 100. *)
Example calculateRSI_ramp :
  calculateRSI ramp 14 =
  {| rsi_value := 100; rsi_signal := "Overbought"; rsi_strength := "Very Strong" |}.
Proof. vm_compute. reflexivity. Qed.

(** An EMA trails a unit ramp by (period - 1) / 2. *)
Example calculateEMA_ramp : calculateEMA ramp 12 = Ok (Fin (247 # 2)).
Proof. vm_compute. reflexivity. Qed.

(** With a period of 0 the seed is the sum of an empty slice, which raises. *)
Example calculateEMA_period_0 :
  calculateEMA ramp 0 = Throw "TypeError: Reduce of empty array with no initial value".
Proof. vm_compute. reflexivity. Qed.

(** The first true range reads [close[-1]]: the difference is NaN and the
    fallback [close[0]] = 100 enters the sum; the thirteen others are 1. *)
Example calculateATR_ramp :
  calculateATR ramp ramp ramp 14 =
  {| atr_value := Fin (807142857 # 100000000); atr_volatility := "Very High" |}.
Proof. vm_compute. reflexivity. Qed.

Example calculateADX_ramp :
  calculateADX ramp ramp ramp 14 =
  {| adx_value := Fin (616 # 25); adx_trend := "Uptrend"; adx_strength := "Moderate" |}.
Proof. vm_compute. reflexivity. Qed.

(** MACD line 7, and a four-entry MACD history whose EMA(9) is its last
    entry, 7: the histogram is 0, which the cascade labels "Weak Bearish". *)
Example calculateMACD_ramp :
  calculateMACD ramp =
  Ok {| macd_histogram := 0; macd_signal := "Weak Bearish"; macd_momentum := "Weak" |}.
Proof. vm_compute. reflexivity. Qed.

(** With exactly 26 samples the MACD history is empty, its EMA is
    [undefined], and the histogram is NaN. *)
Example calculateMACD_26 :
  calculateMACD (firstn 26 ramp) =
  Ok {| macd_histogram := NaN; macd_signal := "Weak Bearish"; macd_momentum := "Weak" |}.
Proof. vm_compute. reflexivity. Qed.

(** 50 + 20 (RSI) + 12 (EMA) + 5 (Bollinger) + 8 (VWAP) = 95, four
    confirmations. *)
Example analyzeIndicators_ramp :
  exists a : IndicatorAnalysis,
    analysis_of (analyzeIndicators sqrt_approx sample_metrics ramp sample_rng) = Ok a /\
    overall a = {| overall_score := 95; overall_confidence := "High";
                   overall_recommendation := "🟢 BUY SIGNAL" |}.
Proof. eexists. split; [vm_compute; reflexivity | reflexivity]. Qed.

(** ** The claims on sample inputs *)



(** The short-window value at work.  On the thirty-sample ramp 100 .. 129 the
    MACD history has four entries and the signal line is the last of them.
    On exactly 26 samples
    the history is empty, the signal line is the read [macdHistory[-1]],
    that is [undefined], and the histogram is [NaN]. *)
Example calculateMACD_short_history :
  (exists macdHistory,
      macdHistory_of ramp = Ok macdHistory /\ List.length macdHistory = 4%nat /\
      calculateEMA macdHistory 9 = Ok (List.last macdHistory NaN)) /\
  calculateMACD (firstn 26 ramp) =
  Ok {| macd_histogram := NaN; macd_signal := "Weak Bearish"; macd_momentum := "Weak" |}.
Proof. split; [eexists; split; [vm_compute; reflexivity|]|]; run_all. Qed.

(** Witness for C5: the three-sample window under the default periods. *)
Lemma calculators_insufficient_data_witness :
  (List.length short_window < 14)%nat /\
  calculateRSI short_window 14 =
    {| rsi_value := 50; rsi_signal := "Insufficient Data"; rsi_strength := "Neutral" |} /\
  calculateMACD short_window =
    Ok {| macd_histogram := 0; macd_signal := "Insufficient Data";
          macd_momentum := "Neutral" |} /\
  calculateEMACross short_window =
    Ok {| ema_ema9 := 0; ema_ema21 := 0; ema_alignment := "Insufficient Data";
          ema_signal := "Neutral" |} /\
  calculateOBV [1] [1000] =
    {| obv_trend := "Neutral"; obv_momentum := "Insufficient Data" |}.
Proof.
  pose proof (calculators_insufficient_data sqrt_approx)
    as [Hperiod [_ [H26 [H21 [H2 _]]]]].
  assert (L14 : (List.length short_window < 14)%nat) by (vm_compute; lia).
  assert (L26 : (List.length short_window < 26)%nat) by (vm_compute; lia).
  assert (L21 : (List.length short_window < 21)%nat) by (vm_compute; lia).
  assert (L2 : (List.length [1] < 2)%nat) by (vm_compute; lia).
  split; [exact L14|].
  split; [exact (proj1 (Hperiod short_window [] [] 14%nat 2 L14))|].
  split; [exact (proj1 (H26 short_window [] [] L26))|].
  split; [exact (H21 short_window L21) | exact (H2 [1] [1000] L2)].
Defined.

(** C5 as worded fails for two calculators.  On a three-sample window (period
    14) ADX returns 20, which is neither 50 nor 0, and its labels are "Weak
    Trend" and "Weak", not "Insufficient Data"; and [calculateEMA] (period 9)
    returns the last sample, 3, not a neutral default. *)
Lemma calculators_claim_fails :
  (List.length short_window < 14)%nat /\
  calculateADX short_window short_window short_window 14 =
    {| adx_value := 20; adx_trend := "Weak Trend"; adx_strength := "Weak" |} /\
  (adx_value (calculateADX short_window short_window short_window 14) === 50) = false /\
  (adx_value (calculateADX short_window short_window short_window 14) === 0) = false /\
  calculateEMA short_window 9 = Ok 3.
Proof.
  split; [vm_compute; lia|]. run_all.
Qed.

Lemma sqrt_approx_0 (q : Q) : (q == 0)%Q -> (sqrt_approx q == 0)%Q.
Proof.
  intros E. unfold sqrt_approx.
  assert (Hn : Qnum q = 0%Z).
  { unfold Qeq in E. simpl in E. lia. }
  rewrite Hn. reflexivity.
Qed.

(** Witness for C4: the eight-decimal square root maps 0 to 0. *)
Lemma calculateBollingerBands_flat_witness :
  calculateBollingerBands sqrt_approx flat_window 20 2 =
  Ok {| bollinger_upper := 100; bollinger_lower := 100; bollinger_middle := 100;
        bollinger_position := "Upper Band (Overbought)" |}.
Proof. exact (calculateBollingerBands_flat sqrt_approx sqrt_approx_0). Defined.

(** C4 as worded fails in its last part: on the flat window the position is
    "Upper Band (Overbought)", not "Middle"; no input is classified
    "Middle". *)
Lemma calculateBollingerBands_claim_fails :
  exists b : BollingerResult,
    calculateBollingerBands sqrt_approx flat_window 20 2 = Ok b /\
    bollinger_upper b = 100 /\ bollinger_lower b = 100 /\ bollinger_middle b = 100 /\
    bollinger_position b = "Upper Band (Overbought)" /\
    bollinger_position b <> "Middle".
Proof.
  eexists. split; [vm_compute; reflexivity|].
  repeat match goal with |- _ /\ _ => split end; try reflexivity.
  discriminate.
Qed.

(** Witness for C3: two random sources that agree on their first hundred
    draws give the same analysis of a two-sample history. *)
Lemma analyzeIndicators_determinism_witness :
  two_prices <> [] /\
  same_draws (2 * List.length two_prices) sample_rng other_rng /\
  analysis_of (analyzeIndicators sqrt_approx sample_metrics two_prices sample_rng) =
  analysis_of (analyzeIndicators sqrt_approx sample_metrics two_prices other_rng).
Proof.
  assert (H1 : two_prices <> []) by discriminate.
  assert (H2 : same_draws (2 * List.length two_prices) sample_rng other_rng).
  { intros i Hi. simpl in Hi.
    destruct i as [|[|[|[|i]]]]; [reflexivity .. | exfalso; lia]. }
  split; [exact H1|]. split; [exact H2|].
  exact (proj1 (analyzeIndicators_determinism sqrt_approx sample_metrics two_prices H1)
               sample_rng other_rng H2).
Defined.

(** C3 as worded fails for the aggregator: [analyzeIndicators] draws its
    volume history from [Math.random] even when a price history is supplied.
    Two consecutive calls on the same metrics and the same two-sample history
    (the second continuing the random stream where the first left it) return
    different records: VWAP 101.05 "Above VWAP (Bullish)" with score 58, then
    VWAP 101.25983197 "Near VWAP (Consolidation)" with score 50. *)
Lemma analyzeIndicators_claim_fails :
  exists a1 a2 : IndicatorAnalysis,
    analysis_of first_call = Ok a1 /\ analysis_of second_call = Ok a2 /\
    vwap a1 = {| vwap_level := Fin (2021 # 20);
                 vwap_price_vs_vwap := "Above VWAP (Bullish)" |} /\
    vwap a2 = {| vwap_level := Fin (10125983197 # 100000000);
                 vwap_price_vs_vwap := "Near VWAP (Consolidation)" |} /\
    overall_score (overall a1) = 58 /\ overall_score (overall a2) = 50 /\
    a1 <> a2.
Proof.
  eexists. eexists.
  split; [vm_compute; reflexivity|]. split; [vm_compute; reflexivity|].
  split; [reflexivity|]. split; [reflexivity|].
  split; [reflexivity|]. split; [reflexivity|].
  intros H. apply (f_equal overall) in H. discriminate H.
Qed.

End IndicatorExamples.

(* ================================================================== *)
(** * More on the win-rate tracker *)
(* ================================================================== *)

Section MapLookup.
Import WinRate.
Variable V : Type.
Implicit Types (m : Map V) (k : string) (v : V).

Lemma Map_get_set_same k v m : Map_get k (Map_set k v m) = Some v.
Proof.
  induction m as [|[k' v'] m IH]; simpl.
  - rewrite String.eqb_refl. reflexivity.
  - destruct (String.eqb k' k) eqn:E; simpl.
    + rewrite String.eqb_refl. reflexivity.
    + rewrite E. exact IH.
Qed.

Lemma Map_get_set_other k k' v m :
  k' <> k -> Map_get k' (Map_set k v m) = Map_get k' m.
Proof.
  intros Hne. induction m as [|[k1 v1] m IH]; simpl.
  - apply String.eqb_neq in Hne. rewrite String.eqb_sym, Hne. reflexivity.
  - destruct (String.eqb k1 k) eqn:E; simpl.
    + apply String.eqb_eq in E. subst k1.
      apply String.eqb_neq in Hne. rewrite String.eqb_sym, Hne. reflexivity.
    + destruct (String.eqb k1 k'); [reflexivity | exact IH].
Qed.

Lemma Map_set_set k v1 v2 m : Map_set k v2 (Map_set k v1 m) = Map_set k v2 m.
Proof.
  induction m as [|[k' v'] m IH]; simpl.
  - rewrite String.eqb_refl. reflexivity.
  - destruct (String.eqb k' k) eqn:E; simpl.
    + rewrite String.eqb_refl. reflexivity.
    + rewrite E, IH. reflexivity.
Qed.

Lemma Map_set_size k v m :
  Map_size (Map_set k v m) = if Map_has k m then Map_size m else S (Map_size m).
Proof.
  unfold Map_size, Map_has. induction m as [|[k' v'] m IH]; simpl; [reflexivity|].
  destruct (String.eqb k' k); simpl; [reflexivity|].
  rewrite IH. destruct (existsb _ m); reflexivity.
Qed.

Lemma Map_get_None_has k m : Map_get k m = None <-> Map_has k m = false.
Proof.
  unfold Map_has. induction m as [|[k' v'] m IH]; simpl; [tauto|].
  destruct (String.eqb k' k); simpl; [split; discriminate | exact IH].
Qed.

Lemma Map_get_In k v m : Map_get k m = Some v -> In (k, v) m.
Proof.
  induction m as [|[k' v'] m IH]; simpl; [discriminate|].
  destruct (String.eqb k' k) eqn:E.
  - apply String.eqb_eq in E. intros H. injection H as <-. subst. auto.
  - auto.
Qed.

Lemma In_Map_set (e : string * V) k v m :
  In e (Map_set k v m) -> e = (k, v) \/ In e m.
Proof.
  induction m as [|[k' v'] m IH]; simpl.
  - intros [H|[]]; auto.
  - destruct (String.eqb k' k); simpl; intros [H|H]; auto.
    destruct (IH H); auto.
Qed.

End MapLookup.

Section SortedFacts.
Import WinRate.
Variable A : Type.
Variable before : A -> A -> bool.
Variable le : A -> A -> Prop.
Hypothesis le_trans : forall a b c, le a b -> le b c -> le a c.
Hypothesis before_le : forall a b, before a b = true -> le a b.
Hypothesis not_before_le : forall a b, before a b = false -> le b a.

Lemma insert_sorted_sorted (x : A) (l : list A) :
  StronglySorted le l -> StronglySorted le (insert_sorted before x l).
Proof.
  induction 1 as [|y l Hs IH Hall]; simpl.
  - constructor; constructor.
  - destruct (before y x) eqn:E.
    + constructor; [exact IH|].
      apply Forall_forall. intros z Hz. apply In_insert_sorted in Hz.
      destruct Hz as [->|Hz]; [apply before_le; exact E|].
      rewrite Forall_forall in Hall. auto.
    + pose proof (not_before_le _ _ E) as Hxy.
      constructor; [constructor; assumption|].
      constructor; [exact Hxy|].
      rewrite Forall_forall in *. intros z Hz. eapply le_trans; eauto.
Qed.

(** The stable sort of the model sorts. *)
Lemma sort_by_sorted (l : list A) : StronglySorted le (sort_by before l).
Proof.
  induction l as [|x l IH]; simpl; [constructor|].
  apply insert_sorted_sorted. exact IH.
Qed.

End SortedFacts.

Section LedgerMore.
Import WinRate LedgerSamples LedgerSamplesMore.
Local Open Scope list_scope.
Implicit Types (t : Tracker) (s r : SignalRecord).

(** Below capacity, or under an id that is already stored, [recordSignal]
    evicts nothing. *)
Lemma recordSignal_no_eviction s t :
  (Map_size t < MAX_SIGNALS)%nat \/
  ((Map_size t <= MAX_SIGNALS)%nat /\ Map_has (id s) t = true) ->
  recordSignal s t = Map_set (id s) s t.
Proof.
  intros H. unfold recordSignal. cbv zeta.
  replace (MAX_SIGNALS <? Map_size (Map_set (id s) s t))%nat with false; [reflexivity|].
  symmetry. apply Nat.ltb_ge. rewrite Map_set_size.
  destruct H as [H|[H Hhas]]; [destruct (Map_has (id s) t); lia | rewrite Hhas; exact H].
Qed.

(** X1.  Record, then look up.  Below capacity, or when the id is already
    stored, the recorded signal is what its id now maps to (an earlier record
    under that id is overwritten), every other id maps to what it did, and
    the size grows by one exactly when the id is new. *)
Theorem recordSignal_lookup s t :
  (Map_size t < MAX_SIGNALS)%nat \/
  ((Map_size t <= MAX_SIGNALS)%nat /\ Map_has (id s) t = true) ->
  Map_get (id s) (recordSignal s t) = Some s /\
  (forall k, k <> id s -> Map_get k (recordSignal s t) = Map_get k t) /\
  Map_size (recordSignal s t) =
  (if Map_has (id s) t then Map_size t else S (Map_size t)).
Proof.
  intros H. rewrite (recordSignal_no_eviction _ _ H).
  split; [apply Map_get_set_same|].
  split; [intros k Hk; apply Map_get_set_other; exact Hk | apply Map_set_size].
Qed.

(** Witness for X1: a first signal into an empty tracker. *)
Lemma recordSignal_lookup_witness :
  (Map_size new_tracker < MAX_SIGNALS)%nat /\
  Map_get (id fresh_signal) (recordSignal fresh_signal new_tracker) = Some fresh_signal.
Proof.
  assert (H : (Map_size new_tracker < MAX_SIGNALS)%nat) by (vm_compute; lia).
  split; [exact H|].
  exact (proj1 (recordSignal_lookup fresh_signal new_tracker (or_introl H))).
Defined.

(** The record that [updateSignalExit] writes back. *)
Lemma updateSignalExit_known i price time n t r :
  Map_get i t = Some r ->
  exists r',
    updateSignalExit i price time n t = Map_set i r' t /\
    id r' = id r /\ timestamp r' = timestamp r /\ symbol r' = symbol r /\
    entryPrice r' = entryPrice r /\ patternDetected r' = patternDetected r /\
    confidence r' = confidence r /\
    exitPrice r' = Some price /\ exitTime r' = Some time /\ notes r' = n /\
    profitLoss r' = Some (price ⊖ entryPrice r) /\
    profitLossPercent r' = Some ((price ⊖ entryPrice r) ⊘ entryPrice r ⊗ 100) /\
    outcome r' =
      Some (if price ⊖ entryPrice r >? F64.double (1 # 100) then win
            else if price ⊖ entryPrice r <? F64.double (-1 # 100) then loss
            else breakeven).
Proof.
  intros H. unfold updateSignalExit. rewrite H. cbv zeta.
  eexists. split; [reflexivity|]. repeat split.
Qed.

(** X2.  Closing out touches one record only.  [updateSignalExit] keeps the
    ids and their order, leaves every record stored under another id as it
    is, and changes nothing at all when the id is unknown; under a known id
    it stores the exit price, time and notes and sets an outcome, keeping the
    record's id, timestamp and entry price. *)
Theorem updateSignalExit_effect i price time n t :
  map fst (updateSignalExit i price time n t) = map fst t /\
  (forall k, k <> i ->
             Map_get k (updateSignalExit i price time n t) = Map_get k t) /\
  (Map_get i t = None -> updateSignalExit i price time n t = t) /\
  (forall r, Map_get i t = Some r ->
             exists r',
               Map_get i (updateSignalExit i price time n t) = Some r' /\
               id r' = id r /\ timestamp r' = timestamp r /\
               entryPrice r' = entryPrice r /\
               exitPrice r' = Some price /\ exitTime r' = Some time /\
               notes r' = n /\ profitLoss r' = Some (price ⊖ entryPrice r) /\
               outcome r' <> None).
Proof.
  split; [apply updateSignalExit_keys|].
  split; [|split].
  - intros k Hk. unfold updateSignalExit.
    destruct (Map_get i t) as [r|]; [|reflexivity].
    cbv zeta. apply Map_get_set_other. exact Hk.
  - intros H. unfold updateSignalExit. rewrite H. reflexivity.
  - intros r H.
    destruct (updateSignalExit_known i price time n t r H)
      as [r' [E [H1 [H2 [_ [H4 [_ [_ [H7 [H8 [H9 [H10 [_ H12]]]]]]]]]]]]].
    exists r'. rewrite E, Map_get_set_same.
    repeat split; try assumption. rewrite H12. discriminate.
Qed.

(** Witness for X2: closing out signal A of a two-signal tracker at 105. *)
Lemma updateSignalExit_effect_witness :
  Map_get "A" two_open = Some (open_signal "A" 1000 100) /\
  (exists r',
      Map_get "A" (updateSignalExit "A" 105 3000 None two_open) = Some r' /\
      id r' = "A" /\ timestamp r' = 1000%Q /\ entryPrice r' = 100 /\
      exitPrice r' = Some 105 /\ exitTime r' = Some 3000 /\ notes r' = None /\
      profitLoss r' = Some (105 ⊖ 100) /\ outcome r' <> None) /\
  Map_get "B" (updateSignalExit "A" 105 3000 None two_open) = Map_get "B" two_open /\
  (Map_get "Z" two_open = None /\
   updateSignalExit "Z" 105 3000 None two_open = two_open).
Proof.
  assert (HA : Map_get "A" two_open = Some (open_signal "A" 1000 100))
    by (vm_compute; reflexivity).
  assert (HZ : Map_get "Z" two_open = None) by (vm_compute; reflexivity).
  pose proof (updateSignalExit_effect "A" 105 3000 None two_open) as [_ [Ho [_ Hk]]].
  pose proof (updateSignalExit_effect "Z" 105 3000 None two_open) as [_ [_ [Hu _]]].
  split; [exact HA|]. split; [exact (Hk _ HA)|].
  split; [apply Ho; discriminate|]. split; [exact HZ | exact (Hu HZ)].
Defined.

(** The literal 0.01 of the source and its neighbours among the doubles. *)
Lemma cent_values :
  F64.double (1 # 100) = Fin cent /\ F64.double (-1 # 100) = Fin (- cent) /\
  (Fin cent <? F64.round64 deadband) = true /\
  (deadband == cent + (1 # 1152921504606846976))%Q.
Proof. repeat split; vm_compute; reflexivity. Qed.

Lemma cent_representable : F64.representable cent.
Proof. reflexivity. Qed.

(** A computed move is above the double 0.01 exactly when the move itself
    reaches the midpoint to the next double. *)
Lemma above_cent (d : Q) :
  (F64.round64 d >? F64.double (1 # 100)) = true <-> (deadband <= d)%Q.
Proof.
  destruct cent_values as [-> [_ [Eup _]]]. split.
  - intros G. destruct (Qlt_le_dec d deadband) as [L|L]; [exfalso | exact L].
    destruct (Qlt_le_dec d cent) as [C|C].
    + pose proof (round64_le cent d cent_representable (Qlt_le_weak _ _ C)) as H.
      destruct (F64.round64 d) as [v| | |];
        [| discriminate H | discriminate G | discriminate H].
      apply le_Fin in H. apply gt_Fin in G. lra.
    + assert (Ec : (inject_Z 5764607523034235 * 2 ^ (-59) == cent)%Q)
        by (vm_compute; reflexivity).
      assert (Ed : ((inject_Z 5764607523034235 + (1 # 2)) * 2 ^ (-59) == deadband)%Q)
        by (vm_compute; reflexivity).
      assert (Hm : (2 ^ 52 <= 5764607523034235 < 2 ^ 53)%Z)
        by (split; [apply Z.leb_le | apply Z.ltb_lt]; vm_compute; reflexivity).
      assert (Hr : F64.round64 d = Fin cent).
      { rewrite (round64_down 5764607523034235 (-59) d Hm);
          [ f_equal; vm_compute; reflexivity | lia
          | rewrite Ec; exact C | rewrite Ed; exact L ]. }
      rewrite Hr in G. apply gt_Fin in G. lra.
  - intros L. apply lt_le_trans with (F64.round64 deadband).
    + exact Eup.
    + apply round64_mono. exact L.
Qed.

Lemma below_minus_cent (d : Q) :
  (F64.round64 d <? F64.double (-1 # 100)) = true <-> (d <= - deadband)%Q.
Proof.
  assert (E : (F64.round64 d <? F64.double (-1 # 100))
              = (F64.round64 (- d) >? F64.double (1 # 100))).
  { rewrite round64_opp. destruct cent_values as [-> [-> _]].
    destruct (F64.round64 d) as [v| | |]; try reflexivity.
    cbn [neg]. apply eq_true_iff_eq. rewrite lt_Fin, gt_Fin. split; intros H; lra. }
  rewrite E, above_cent. split; intros H; lra.
Qed.



(** Under a cent nothing is ever won or lost: a token entered at 0.00000002
    that triples is closed as break-even, and so is a move from the double
    0.01 to the double 0.02, which is the double 0.01 exactly. *)
Example updateSignalExit_small_moves :
  (exists r',
      Map_get "M" (updateSignalExit "M" (F64.double (3 # 50000000)) 4000 None
                     (recordSignal micro_signal new_tracker)) = Some r' /\
      outcome r' = Some breakeven) /\
  (exists r',
      Map_get "C" (updateSignalExit "C" (F64.double (2 # 100)) 4000 None
                     (recordSignal (open_signal "C" 1000 (F64.double (1 # 100)))
                        new_tracker)) = Some r' /\
      profitLoss r' = Some (F64.double (1 # 100)) /\
      outcome r' = Some breakeven).
Proof. split; eexists; repeat split; vm_compute; reflexivity. Qed.

(** X4.  Closing out twice: the second call overwrites the first, as if the
    first had not happened. *)
Theorem updateSignalExit_twice i p1 when1 n1 p2 when2 n2 t :
  updateSignalExit i p2 when2 n2 (updateSignalExit i p1 when1 n1 t) =
  updateSignalExit i p2 when2 n2 t.
Proof.
  destruct (Map_get i t) as [r|] eqn:H.
  - unfold updateSignalExit at 2. rewrite H. cbv zeta.
    unfold updateSignalExit at 1. rewrite Map_get_set_same. cbv zeta.
    rewrite Map_set_set. unfold updateSignalExit. rewrite H. cbv zeta.
    cbn [id timestamp symbol entryPrice takeProfitPrice stopLossPrice signalType
         confidence confluencePercent patternDetected adxValue rsiValue macdSignal].
    reflexivity.
  - unfold updateSignalExit at 2. rewrite H. reflexivity.
Qed.

End LedgerMore.

Section PermutationFacts.
Import WinRate.
Variable A : Type.
Variable before : A -> A -> bool.

Lemma insert_sorted_perm (x : A) (l : list A) :
  Permutation (insert_sorted before x l) (x :: l).
Proof.
  induction l as [|y l IH]; simpl; [reflexivity|].
  destruct (before y x); [|reflexivity].
  rewrite IH. apply perm_swap.
Qed.

(** The sort neither drops nor duplicates. *)
Lemma sort_by_perm (l : list A) : Permutation (sort_by before l) l.
Proof.
  induction l as [|x l IH]; simpl; [reflexivity|].
  rewrite insert_sorted_perm. constructor. exact IH.
Qed.

End PermutationFacts.

Section PercentFacts.

(** [Math.round(w / n * 100)] for counts [w <= n], [n > 0]: a whole number of
    percent. *)
Lemma round_percent_range (w n : nat) :
  (w <= n)%nat -> (0 < n)%nat ->
  exists z, round (of_nat w / of_nat n * 100) = of_Z z /\ (0 <= z <= 100)%Z.
Proof.
  intros Hw Hn. unfold of_nat. cbn [div].
  assert (Hn' : (0 < inject_Z (Z.of_nat n))%Q).
  { change 0%Q with (inject_Z 0). rewrite <- Zlt_Qlt. lia. }
  destruct (Qeq_bool (inject_Z (Z.of_nat n)) 0) eqn:E.
  { apply Qeq_bool_iff in E. rewrite E in Hn'. exfalso. revert Hn'. apply Qlt_irrefl. }
  cbn [mul round].
  set (v := Qred (Qred (inject_Z (Z.of_nat w) / inject_Z (Z.of_nat n)) * _)).
  assert (Hv : (v == inject_Z (Z.of_nat w) / inject_Z (Z.of_nat n) * 100)%Q).
  { unfold v. rewrite !Qred_correct. reflexivity. }
  clearbody v.
  assert (H0 : (0 <= inject_Z (Z.of_nat w) / inject_Z (Z.of_nat n))%Q).
  { apply Qle_shift_div_l; [exact Hn'|]. rewrite Qmult_0_l.
    change 0%Q with (inject_Z 0). rewrite <- Zle_Qle. lia. }
  assert (H1 : (inject_Z (Z.of_nat w) / inject_Z (Z.of_nat n) <= 1)%Q).
  { apply Qle_shift_div_r; [exact Hn'|]. rewrite Qmult_1_l.
    rewrite <- Zle_Qle. lia. }
  revert Hv H0 H1. generalize (inject_Z (Z.of_nat w) / inject_Z (Z.of_nat n))%Q.
  intros x Hv H0 H1.
  exists (Qfloor (v + (1 # 2))). split; [reflexivity|]. split.
  - change 0%Z with (Qfloor 0). apply Qfloor_resp_le. rewrite Hv. lra.
  - change 100%Z with (Qfloor (100 + (1 # 2))%Q).
    apply Qfloor_resp_le. rewrite Hv. lra.
Qed.

(** The same in the arithmetic of the ledger: the quotient of two counts
    rounds within [0, 1], and its hundredfold within [0, 100]. *)
Lemma round_percent_range64 (w n : nat) :
  (w <= n)%nat -> (0 < n)%nat ->
  exists z, round (of_nat w ⊘ of_nat n ⊗ 100) = of_Z z /\ (0 <= z <= 100)%Z.
Proof.
  intros Hw Hn. unfold of_nat. cbn [F64.div].
  assert (Hn' : (0 < inject_Z (Z.of_nat n))%Q).
  { change 0%Q with (inject_Z 0). rewrite <- Zlt_Qlt. lia. }
  destruct (Qeq_bool (inject_Z (Z.of_nat n)) 0) eqn:E.
  { apply Qeq_bool_iff in E. rewrite E in Hn'. exfalso. revert Hn'. apply Qlt_irrefl. }
  assert (R0 : F64.representable 0) by reflexivity.
  assert (R1 : F64.representable 1) by (vm_compute; reflexivity).
  assert (R100 : F64.representable 100) by (vm_compute; reflexivity).
  destruct (round64_between 0 1 (inject_Z (Z.of_nat w) / inject_Z (Z.of_nat n)) R0 R1)
    as [x [-> [Hx0 Hx1]]].
  { split.
    - apply Qle_shift_div_l; [exact Hn'|]. rewrite Qmult_0_l.
      change 0%Q with (inject_Z 0). rewrite <- Zle_Qle. lia.
    - apply Qle_shift_div_r; [exact Hn'|]. rewrite Qmult_1_l.
      rewrite <- Zle_Qle. lia. }
  change (Fin x ⊗ 100) with (F64.round64 (x * 100)).
  destruct (round64_between 0 100 (x * 100) R0 R100) as [v [-> [Hv0 Hv1]]]; [lra|].
  cbn [round]. exists (Qfloor (v + (1 # 2))). split; [reflexivity|]. split.
  - change 0%Z with (Qfloor 0). apply Qfloor_resp_le. lra.
  - change 100%Z with (Qfloor (100 + (1 # 2))%Q). apply Qfloor_resp_le. lra.
Qed.

End PercentFacts.

Section QueryMore.
Import WinRate LedgerSamples LedgerSamplesMore.
Local Open Scope list_scope.
Variable sqrtQ : Q -> Q.
Implicit Types (t : Tracker) (s r : SignalRecord).

Lemma newer_true a b : newer a b = true -> (timestamp b <= timestamp a)%Q.
Proof.
  unfold newer. destruct (timestamp b ?= timestamp a)%Q eqn:E; try discriminate.
  intros _. apply Qlt_le_weak. apply Qlt_alt. exact E.
Qed.

Lemma newer_false a b : newer a b = false -> (timestamp a <= timestamp b)%Q.
Proof.
  unfold newer. destruct (timestamp b ?= timestamp a)%Q eqn:E; try discriminate; intros _.
  - apply Qeq_alt in E. rewrite E. apply Qle_refl.
  - apply Qlt_le_weak. apply Qgt_alt in E. exact E.
Qed.

Lemma sort_newer_sorted (l : list SignalRecord) : newest_first (sort_by newer l).
Proof.
  unfold newest_first.
  apply (sort_by_sorted _ newer (fun a b => (timestamp b <= timestamp a)%Q)).
  - intros a b c Hab Hbc. eapply Qle_trans; eassumption.
  - apply newer_true.
  - apply newer_false.
Qed.

(** X5.  [getSignalsBySymbol] returns the stored records of that symbol and
    nothing else, each as often as it is stored, newest first. *)
Theorem getSignalsBySymbol_spec sym t :
  (forall r, In r (getSignalsBySymbol sym t) <->
             In r (Map_values t) /\ symbol r = sym) /\
  Permutation (getSignalsBySymbol sym t)
              (filter (fun s => String.eqb (symbol s) sym) (Map_values t)) /\
  newest_first (getSignalsBySymbol sym t).
Proof.
  unfold getSignalsBySymbol. split; [|split].
  - intros r. rewrite In_sort_by, filter_In, String.eqb_eq. reflexivity.
  - apply sort_by_perm.
  - apply sort_newer_sorted.
Qed.

Lemma outcome_partition (l : list SignalRecord) :
  Forall (fun s => has_outcome s = true) l ->
  (List.length (filter (is_outcome win) l) + List.length (filter (is_outcome loss) l)
   + List.length (filter (is_outcome breakeven) l) = List.length l)%nat.
Proof.
  induction 1 as [|s l Hs _ IH]; [reflexivity|].
  unfold has_outcome in Hs. cbn [filter].
  assert (Hw : is_outcome win s = match outcome s with Some win => true | _ => false end)
    by (unfold is_outcome; destruct (outcome s) as [[| |]|]; reflexivity).
  assert (Hl : is_outcome loss s = match outcome s with Some loss => true | _ => false end)
    by (unfold is_outcome; destruct (outcome s) as [[| |]|]; reflexivity).
  assert (Hb : is_outcome breakeven s
               = match outcome s with Some breakeven => true | _ => false end)
    by (unfold is_outcome; destruct (outcome s) as [[| |]|]; reflexivity).
  rewrite Hw, Hl, Hb.
  destruct (outcome s) as [[| |]|]; try discriminate; cbn [List.length]; lia.
Qed.

Lemma allSignals_of_closed now days t :
  Forall (fun s => has_outcome s = true) (allSignals_of now days t).
Proof.
  apply Forall_forall. intros s Hs. unfold allSignals_of in Hs. cbv zeta in Hs.
  apply In_sort_by in Hs. apply filter_In in Hs. destruct Hs as [_ Hs].
  unfold in_window in Hs. apply andb_true_iff in Hs. apply Hs.
Qed.

Lemma allSignals_of_length now days t :
  List.length (allSignals_of now days t) = List.length (closed_in_window now days t).
Proof. unfold allSignals_of, closed_in_window. cbv zeta. apply sort_by_length. Qed.

Lemma filter_length_le (A : Type) (f : A -> bool) (l : list A) :
  (List.length (filter f l) <= List.length l)%nat.
Proof.
  induction l as [|x l IH]; simpl; [lia|]. destruct (f x); simpl; lia.
Qed.

(** X6.  The counts of a win-rate query add up: wins, losses and break-evens
    partition the closed signals of the window, whose number is the total
    reported (at most the number of stored records), and at most five
    patterns are listed. *)
Theorem analyzeWinRate_counts now days t :
  let a := analyzeWinRate sqrtQ now days t in
  (winningSignals a + losingSignals a + breakevenSignals a = totalSignals a)%nat /\
  totalSignals a = List.length (closed_in_window now days t) /\
  (totalSignals a <= Map_size t)%nat /\
  (List.length (topPatterns a) <= 5)%nat.
Proof.
  cbv zeta. unfold analyzeWinRate. cbv zeta.
  pose proof (allSignals_of_length now days t) as HL.
  destruct (List.length (allSignals_of now days t) =? 0)%nat eqn:E.
  - apply Nat.eqb_eq in E. cbn [winningSignals losingSignals breakevenSignals
                                totalSignals topPatterns List.length].
    repeat split; try lia.
  - cbn [winningSignals losingSignals breakevenSignals totalSignals topPatterns].
    split; [apply outcome_partition, allSignals_of_closed|].
    split; [exact HL|]. split.
    + rewrite HL. unfold closed_in_window, Map_size, Map_values.
      rewrite <- (length_map snd t). apply filter_length_le.
    + rewrite length_firstn. apply Nat.le_min_l.
Qed.

Lemma bump_invariant won p (stats : Map (nat * nat)) :
  Forall (fun e => (fst (snd e) <= snd (snd e))%nat /\ (0 < snd (snd e))%nat) stats ->
  Forall (fun e => (fst (snd e) <= snd (snd e))%nat /\ (0 < snd (snd e))%nat)
         (bump won p stats).
Proof.
  intros H. unfold bump.
  assert (Hg : match Map_get p stats with Some wc => wc | None => (0, 0)%nat end
               = (fst match Map_get p stats with Some wc => wc | None => (0, 0)%nat end,
                  snd match Map_get p stats with Some wc => wc | None => (0, 0)%nat end))
    by apply surjective_pairing.
  assert (Hle : (fst match Map_get p stats with Some wc => wc | None => (0, 0)%nat end
                 <= snd match Map_get p stats with Some wc => wc | None => (0, 0)%nat end)%nat).
  { destruct (Map_get p stats) as [wc|] eqn:G; [|simpl; lia].
    apply Map_get_In in G. rewrite Forall_forall in H. apply (H _ G). }
  rewrite Hg. clear Hg.
  set (w := fst _) in *. set (c := snd _) in *. clearbody w c.
  apply Forall_forall. intros [k [w' c']] Hin.
  apply In_Map_set in Hin. destruct Hin as [Hin|Hin].
  - injection Hin as _ -> ->. simpl. destruct won; lia.
  - rewrite Forall_forall in H. apply (H _ Hin).
Qed.

Lemma patternStats_of_invariant (l : list SignalRecord) :
  Forall (fun e => (fst (snd e) <= snd (snd e))%nat /\ (0 < snd (snd e))%nat)
         (patternStats_of l).
Proof.
  unfold patternStats_of.
  assert (G : forall acc,
             Forall (fun e => (fst (snd e) <= snd (snd e))%nat /\ (0 < snd (snd e))%nat) acc ->
             Forall (fun e => (fst (snd e) <= snd (snd e))%nat /\ (0 < snd (snd e))%nat)
                    (fold_left
                       (fun stats s =>
                          match patternDetected s with
                          | Some p => if String.eqb p "" then stats
                                      else bump (is_outcome win s) p stats
                          | None => stats
                          end) l acc)).
  { induction l as [|s l IH]; intros acc Hacc; [exact Hacc|].
    cbn [fold_left]. apply IH.
    destruct (patternDetected s) as [p|]; [|exact Hacc].
    destruct (String.eqb p ""); [exact Hacc|]. apply bump_invariant. exact Hacc. }
  apply G. constructor.
Qed.

Lemma In_firstn (A : Type) (n : nat) (x : A) (l : list A) : In x (firstn n l) -> In x l.
Proof.
  intros H. rewrite <- (firstn_skipn n l). apply in_or_app. left. exact H.
Qed.

(** X7.  The rates of a win-rate query are whole percentages: [winRate] is an
    integer between 0 and 100, and so is the win rate of every listed
    pattern, each of which was seen at least once. *)
Theorem analyzeWinRate_percentages now days t :
  let a := analyzeWinRate sqrtQ now days t in
  (exists z, winRate a = of_Z z /\ (0 <= z <= 100)%Z) /\
  Forall (fun p => (0 < count p)%nat /\
                   exists z, patternWinRate p = of_Z z /\ (0 <= z <= 100)%Z)
         (topPatterns a).
Proof.
  cbv zeta. unfold analyzeWinRate. cbv zeta.
  destruct (List.length (allSignals_of now days t) =? 0)%nat eqn:E.
  - cbn [winRate topPatterns]. split; [|constructor].
    exists 0%Z. split; [reflexivity | lia].
  - apply Nat.eqb_neq in E. cbn [winRate topPatterns]. split.
    + apply round_percent_range64; [apply filter_length_le | lia].
    + apply Forall_forall. intros p Hp.
      apply In_firstn in Hp. apply In_sort_by in Hp. apply in_map_iff in Hp.
      destruct Hp as [e [<- He]]. cbn [count patternWinRate].
      pose proof (patternStats_of_invariant (allSignals_of now days t)) as Hinv.
      rewrite Forall_forall in Hinv. destruct (Hinv _ He) as [Hle Hpos].
      split; [exact Hpos|]. apply round_percent_range64; assumption.
Qed.

Lemma allSignals_of_open now days s t :
  outcome s = None ->
  allSignals_of now days (t ++ [(id s, s)]) = allSignals_of now days t.
Proof.
  intros Ho. unfold allSignals_of, Map_values. cbv zeta.
  rewrite map_app, filter_app. cbn [map filter snd].
  unfold in_window at 2, has_outcome. rewrite Ho, andb_false_r, app_nil_r.
  reflexivity.
Qed.

(** X8.  A signal that is still open does not count.  Recording an open
    signal under a new id, below capacity, leaves every figure of a win-rate
    query as it was. *)
Theorem analyzeWinRate_ignores_open now days s t :
  outcome s = None -> Map_has (id s) t = false ->
  (Map_size t < MAX_SIGNALS)%nat ->
  analyzeWinRate sqrtQ now days (recordSignal s t) = analyzeWinRate sqrtQ now days t.
Proof.
  intros Ho Hf Hs.
  rewrite (recordSignal_no_eviction s t (or_introl Hs)), (Map_set_fresh _ _ _ _ Hf).
  unfold analyzeWinRate. rewrite (allSignals_of_open now days s t Ho). reflexivity.
Qed.

End QueryMore.

Section QueryMoreExamples.
Import WinRate LedgerSamples LedgerSamplesMore.

(** Witness for X8: a third, open signal next to one closed win and one
    closed loss. *)
Lemma analyzeWinRate_ignores_open_witness :
  outcome fresh_signal = None /\ Map_has (id fresh_signal) ledger_scenario = false /\
  (Map_size ledger_scenario < MAX_SIGNALS)%nat /\
  analyzeWinRate sqrt_approx day_one 30 (recordSignal fresh_signal ledger_scenario)
  = analyzeWinRate sqrt_approx day_one 30 ledger_scenario.
Proof.
  assert (H1 : outcome fresh_signal = None) by reflexivity.
  assert (H2 : Map_has (id fresh_signal) ledger_scenario = false)
    by (vm_compute; reflexivity).
  assert (H3 : (Map_size ledger_scenario < MAX_SIGNALS)%nat) by (vm_compute; lia).
  split; [exact H1|]. split; [exact H2|]. split; [exact H3|].
  exact (analyzeWinRate_ignores_open sqrt_approx day_one 30%Q fresh_signal
           ledger_scenario H1 H2 H3).
Defined.

End QueryMoreExamples.

(* ================================================================== *)
(** * More on the indicators *)
(* ================================================================== *)

Ltac nsimpl :=
  cbn [Ranges.at_least Ranges.between add sub neg mul div abs inf_of_sign mul_sign sign
       toFixed round].

Section RangeFacts.
Import Ranges.

Lemma at_least_step (b : Q) (s d : number) :
  at_least b s -> at_least 0 d -> at_least b (s + d).
Proof.
  destruct s as [x| | |], d as [y| | |]; nsimpl; try tauto.
  intros Hx Hy. rewrite Qred_correct. lra.
Qed.

Lemma at_least_weaken (a b : Q) (x : number) :
  (a <= b)%Q -> at_least b x -> at_least a x.
Proof. destruct x; nsimpl; try tauto. intros; lra. Qed.

Lemma at_least_shift (a : Q) (x : number) :
  at_least 0 x -> at_least a (Fin a + x).
Proof.
  destruct x as [y| | |]; nsimpl; try tauto. intros Hy. rewrite Qred_correct. lra.
Qed.

Lemma abs_at_least (x : number) : x <> NaN -> at_least 0 (abs x).
Proof.
  destruct x; nsimpl; try tauto. intros _. apply Qabs_nonneg.
Qed.

(** [Math.abs(x || 0)] is never [NaN] and never negative. *)
Lemma abs_or_0 (x : number) : at_least 0 (abs (x ||| 0)).
Proof.
  unfold or_else. destruct (truthy x) eqn:T.
  - apply abs_at_least. intros ->. discriminate T.
  - nsimpl. apply Qabs_nonneg.
Qed.

Lemma at_least_scale (c : Q) (x : number) :
  (0 < c)%Q -> at_least 0 x -> at_least 0 (x * Fin c).
Proof.
  intros Hc. destruct x as [y| | |]; nsimpl; try tauto.
  - intros Hy. rewrite Qred_correct. apply Qmult_le_0_compat; lra.
  - intros _. unfold sign.
    replace (c ?= 0)%Q with Gt by (symmetry; apply Qgt_alt; exact Hc). exact I.
Qed.

Lemma at_least_quot (c : Q) (x : number) :
  (0 < c)%Q -> at_least 0 x -> at_least 0 (x / Fin c).
Proof.
  intros Hc. assert (E : Qeq_bool c 0 = false).
  { destruct (Qeq_bool c 0) eqn:E; [|reflexivity].
    apply Qeq_bool_iff in E. lra. }
  destruct x as [y| | |]; nsimpl; try tauto; rewrite E.
  - nsimpl. intros Hy. rewrite Qred_correct. apply Qle_shift_div_l; lra.
  - intros _. replace (c ?= 0)%Q with Gt by (symmetry; apply Qgt_alt; exact Hc). exact I.
Qed.

Lemma of_nat_pos (n : nat) : (0 < n)%nat -> (0 < inject_Z (Z.of_nat n))%Q.
Proof. intros H. change 0%Q with (inject_Z 0). rewrite <- Zlt_Qlt. lia. Qed.

(** [Math.min(b, x)] of a number that is at least [a <= b]. *)
Lemma min_between (a b : Q) (x : number) :
  (a <= b)%Q -> at_least a x -> between a b (min (Fin b) x).
Proof.
  intros Hab. destruct x as [y| | |]; nsimpl; try tauto.
  - intros Hy. unfold min, compare.
    destruct (b ?= y)%Q eqn:E; nsimpl.
    + lra.
    + lra.
    + apply Qgt_alt in E. lra.
  - intros _. unfold min, compare. nsimpl. lra.
Qed.

(** Rounding to [d] decimals is monotone. *)
Lemma round_dec_mono (d : nat) (x y : Q) :
  (x <= y)%Q -> (round_dec d x <= round_dec d y)%Q.
Proof.
  intros Hxy. unfold round_dec. cbv zeta. rewrite !Qred_correct.
  pose proof (pow10_pos d) as Hs. set (s := inject_Z (10 ^ Z.of_nat d)) in *.
  assert (Hinv : (0 < / s)%Q) by (apply Qinv_lt_0_compat; exact Hs).
  assert (Hdiv : forall a b : Z, (a <= b)%Z -> (inject_Z a / s <= inject_Z b / s)%Q).
  { intros a b Hab. unfold Qdiv. apply Qmult_le_compat_r; [|lra].
    rewrite <- Zle_Qle. exact Hab. }
  assert (Hpos : forall q : Q, (0 <= q)%Q -> (0 <= inject_Z (Qfloor (q * s + (1 # 2))) / s)%Q).
  { intros q Hq. apply Qle_shift_div_l; [exact Hs|]. rewrite Qmult_0_l.
    change 0%Q with (inject_Z 0). rewrite <- Zle_Qle.
    change 0%Z with (Qfloor 0). apply Qfloor_resp_le.
    assert (0 <= q * s)%Q by (apply Qmult_le_0_compat; lra). lra. }
  destruct (Qle_bool 0 x) eqn:Ex, (Qle_bool 0 y) eqn:Ey.
  - apply Hdiv, Qfloor_resp_le.
    assert (x * s <= y * s)%Q by (apply Qmult_le_compat_r; lra). lra.
  - apply Qle_bool_iff in Ex. apply Qle_bool_false in Ey. lra.
  - apply Qle_bool_false in Ex. apply Qle_bool_iff in Ey.
    pose proof (Hpos (- x)%Q ltac:(lra)). pose proof (Hpos y Ey). lra.
  - apply Qle_bool_false in Ex. apply Qle_bool_false in Ey.
    assert (inject_Z (Qfloor (- y * s + (1 # 2))) / s
            <= inject_Z (Qfloor (- x * s + (1 # 2))) / s)%Q.
    { apply Hdiv, Qfloor_resp_le.
      assert (- y * s <= - x * s)%Q by (apply Qmult_le_compat_r; lra). lra. }
    lra.
Qed.

(** Rounding to [d] decimals keeps a value between two bounds that are
    themselves multiples of [10^-d]. *)
Lemma toFixed_between (d : nat) (a b : Q) (x : number) :
  (round_dec d a == a)%Q -> (round_dec d b == b)%Q ->
  between a b x -> between a b (toFixed x d).
Proof.
  intros Ha Hb. destruct x as [q| | |]; nsimpl; try tauto. intros [H1 H2].
  split.
  - apply Qle_trans with (round_dec d a); [rewrite Ha; apply Qle_refl|].
    apply round_dec_mono. exact H1.
  - apply Qle_trans with (round_dec d b); [|rewrite Hb; apply Qle_refl].
    apply round_dec_mono. exact H2.
Qed.

End RangeFacts.

Section IndicatorMore.
Import Indicators IndicatorSamples Ranges.
Variable sqrtQ : Q -> Q.

Lemma rsi_bonus (v : number) :
  (v >? 60) || (v <? 40) = true -> at_least 0 (abs (v - 50) / 5 * 2).
Proof.
  intros H. apply (at_least_scale 2); [reflexivity|].
  apply (at_least_quot 5); [reflexivity|].
  apply abs_at_least. destruct v; discriminate.
Qed.

Lemma score_final (T : Type) (A B C D E : T) (s : number) :
  at_least 50 s ->
  (exists z, round (min 100 s) = of_Z z /\ (50 <= z <= 100)%Z) /\
  let r := if min 100 s >=? 75 then A
           else if min 100 s >=? 60 then B
           else if min 100 s <=? 25 then C
           else if min 100 s <=? 40 then D
           else E in
  r = A \/ r = B \/ r = E.
Proof.
  intros H. pose proof (min_between 50 100 s ltac:(discriminate) H) as Hm.
  change (Fin 100) with (100 : number) in Hm.
  destruct (min 100 s) as [q| | |]; cbn [between] in Hm; try contradiction.
  split.
  - exists (Qfloor (q + (1 # 2))). split; [reflexivity|]. split.
    + change 50%Z with (Qfloor (50 + (1 # 2))). apply Qfloor_resp_le. lra.
    + change 100%Z with (Qfloor (100 + (1 # 2))). apply Qfloor_resp_le. lra.
  - cbv zeta. destruct (Fin q >=? 75); [auto|]. destruct (Fin q >=? 60); [auto|].
    destruct (Fin q <=? 25) eqn:E1; [apply le_Fin in E1; lra|].
    destruct (Fin q <=? 40) eqn:E2; [apply le_Fin in E2; lra|]. auto.
Qed.

(** X9.  The overall score starts at 50 and only ever gains: whatever the
    calculators return, [overall.score] is a whole number between 50 and 100
    and the recommendation is BUY SIGNAL, CAUTIOUS BUY or NEUTRAL.  The two
    SELL recommendations cannot be produced. *)
Theorem overall_assessment_never_sells
    (r : RsiResult) (m : MacdResult) (e : EmaResult) (b : BollingerResult)
    (v : VwapResult) (a : AdxResult) :
  let o := overall_assessment r m e b v a in
  (exists z, overall_score o = of_Z z /\ (50 <= z <= 100)%Z) /\
  (overall_recommendation o = "🟢 BUY SIGNAL" \/
   overall_recommendation o = "🟡 CAUTIOUS BUY" \/
   overall_recommendation o = "NEUTRAL").
Proof.
  cbv zeta. unfold overall_assessment. cbv zeta.
  assert (H0 : at_least 50 50) by (nsimpl; lra).
  assert (C : forall q : Q, (0 <= q)%Q -> at_least 0 (Fin q)) by (intros q Hq; exact Hq).
  destruct ((rsi_value r >? 60) || (rsi_value r <? 40)) eqn:E1;
    destruct (String.eqb (ema_alignment e) "Bullish"
              || String.eqb (ema_alignment e) "Bearish");
    destruct (String.eqb (macd_momentum m) "Very Strong");
    destruct (String.eqb (macd_momentum m) "Strong");
    destruct (includes (bollinger_position b) "Overbought"
              || includes (bollinger_position b) "Oversold");
    destruct (includes (vwap_price_vs_vwap v) "Above"
              || includes (vwap_price_vs_vwap v) "Below");
    destruct (String.eqb (adx_strength a) "Very Strong");
    destruct (String.eqb (adx_strength a) "Strong");
    cbv beta iota; cbn [overall_score overall_recommendation];
    apply score_final;
    repeat (apply at_least_step; [|first [apply rsi_bonus; exact E1
                                        | apply C; discriminate]]);
    exact H0.
Qed.

Lemma fold_abs_at_least (f : nat -> number) (l : list nat) (a : number) :
  at_least 0 a ->
  at_least 0 (fold_left (fun (a : number) (n : nat) => a + abs (f n ||| 0)) l a).
Proof.
  revert a. induction l as [|n l IH]; intros a Ha; [exact Ha|].
  cbn [fold_left]. apply IH. apply at_least_step; [exact Ha | apply abs_or_0].
Qed.

(** X10.  With a period of at least 1, the ADX value is always a finite
    number between 20 and 50, whatever the input arrays hold ([NaN] and
    infinities included). *)
Theorem calculateADX_range (high low close : list number) (period : nat) :
  (1 <= period)%nat ->
  between 20 50 (adx_value (calculateADX high low close period)).
Proof.
  intros Hp. unfold calculateADX.
  destruct (List.length high <? period)%nat.
  { cbn [adx_value between]. lra. }
  cbv zeta.
  set (recent := slice_last period high).
  set (total := fold_left _ (seq 0 (List.length recent)) 0).
  assert (Ht : at_least 0 total).
  { unfold total.
    apply (fold_abs_at_least
             (fun n => get recent (Z.of_nat n) - get recent (Z.of_nat n - 1))).
    nsimpl. lra. }
  assert (Ha : at_least 0 (total / of_nat period)).
  { apply at_least_quot; [apply of_nat_pos; lia | exact Ht]. }
  assert (Hm : between 20 50 (min 50 (20 + total / of_nat period * 5))).
  { apply (min_between 20 50); [discriminate|].
    apply (at_least_shift 20). apply (at_least_scale 5); [reflexivity | exact Ha]. }
  assert (H20 : between 20 50 20) by (cbn [between]; lra).
  destruct (last_elem high >? get high (len high - 2));
    [|destruct (last_elem low <? get low (len low - 2))];
    cbn [adx_value]; apply toFixed_between;
      try (vm_compute; reflexivity); assumption.
Qed.

(** A positive period never raises. *)
Lemma calculateEMA_Ok (prices : list number) (period : nat) :
  (0 < period)%nat -> exists v : number, calculateEMA prices period = Ok v.
Proof.
  intros Hp. destruct (Nat.lt_ge_cases (List.length prices) period) as [H|H].
  - eexists. apply calculateEMA_short. exact H.
  - apply calculateEMA_full; assumption.
Qed.

(** X11.  The period as a natural number 0, 1, 2, ..., which is how every
    caller passes it (9, 12, 21, 26); fractional and negative periods are
    outside the statement.  [calculateEMA] raises exactly when that period is
    0: it then reduces an empty slice without an initial value.  With a
    period of 1 or more nothing is raised, on any list; on the empty list
    what comes back is the read [prices[-1]], which is [undefined] ([NaN]
    here) and not a number. *)
Theorem calculateEMA_raises (prices : list number) (period : nat) :
  ((exists e, calculateEMA prices period = Throw e) <-> period = 0%nat) /\
  calculateEMA [] (S period) = Ok NaN.
Proof.
  split; [|reflexivity]. split.
  - intros [e He]. destruct period as [|p]; [reflexivity|].
    destruct (calculateEMA_Ok prices (S p) (Nat.lt_0_succ p)) as [v Hv].
    rewrite Hv in He. discriminate He.
  - intros ->. eexists. unfold calculateEMA. cbn. reflexivity.
Qed.

Lemma calculateMACD_Ok (h : list number) : exists r, calculateMACD h = Ok r.
Proof.
  unfold calculateMACD. destruct (List.length h <? 26)%nat; [eexists; reflexivity|].
  destruct (calculateEMA_Ok h 12 ltac:(lia)) as [a ->].
  destruct (calculateEMA_Ok h 26 ltac:(lia)) as [b ->]. cbn [bind].
  destruct (mapM_Ok _ _
              (fun i : nat =>
                 a <- calculateEMA (slice i (i + 26) h) 12 ;;
                 b <- calculateEMA (slice i (i + 26) h) 26 ;;
                 Ok (a - b))
              (seq 0 (List.length h - 26))) as [ys [Hys _]].
  { intros i _.
    destruct (calculateEMA_Ok (slice i (i + 26) h) 12 ltac:(lia)) as [x ->].
    destruct (calculateEMA_Ok (slice i (i + 26) h) 26 ltac:(lia)) as [y ->].
    eexists. reflexivity. }
  unfold macdHistory_of. rewrite Hys. cbn [bind].
  destruct (calculateEMA_Ok ys 9 ltac:(lia)) as [s ->]. cbn [bind].
  eexists. reflexivity.
Qed.

Lemma calculateEMACross_Ok (h : list number) : exists r, calculateEMACross h = Ok r.
Proof.
  unfold calculateEMACross. destruct (List.length h <? 21)%nat; [eexists; reflexivity|].
  destruct (calculateEMA_Ok h 9 ltac:(lia)) as [a ->].
  destruct (calculateEMA_Ok h 21 ltac:(lia)) as [b ->]. cbn [bind].
  destruct (if (a >? b) && (last_elem h >? b) then _ else _) as [al si].
  eexists. reflexivity.
Qed.

Lemma slice_last_nonempty (A : Type) (n : nat) (l : list A) :
  l <> [] -> slice_last n l <> [].
Proof.
  intros Hl. unfold slice_last. destruct n as [|n]; [exact Hl|].
  intros H. apply (f_equal (@List.length A)) in H.
  rewrite length_skipn in H. cbn [List.length] in H.
  destruct l; [contradiction | cbn [List.length] in H; lia].
Qed.

(** [calculateBollingerBands] raises only when asked for period 0 on an
    empty history. *)
Lemma calculateBollingerBands_Ok (h : list number) (period : nat) (k : number) :
  (0 < period)%nat -> exists r, calculateBollingerBands sqrtQ h period k = Ok r.
Proof.
  intros Hp. unfold calculateBollingerBands.
  destruct (List.length h <? period)%nat eqn:E; [eexists; reflexivity|].
  apply Nat.ltb_ge in E. cbv zeta.
  assert (Hne : slice_last period h <> []).
  { apply slice_last_nonempty. intros ->. cbn [List.length] in E. lia. }
  destruct (slice_last period h) as [|x rest]; [contradiction|].
  cbn [sum1 bind]. eexists. reflexivity.
Qed.

(** X12.  [analyzeIndicators] never raises: for every metrics record, every
    price history (the empty one included) and every sequence of random
    draws it returns an analysis. *)
Theorem analyzeIndicators_never_raises
    (m : TokenMetrics) (h : list number) (g : Rng) :
  exists (a : IndicatorAnalysis) (g' : Rng), analyzeIndicators sqrtQ m h g = Ok (a, g').
Proof.
  unfold analyzeIndicators.
  destruct (if (List.length h =? 0)%nat then generatePriceHistory m 50 g else (h, g))
    as [ph g0].
  destruct (calculateMACD_Ok ph) as [r1 ->].
  destruct (calculateEMACross_Ok ph) as [r2 ->].
  destruct (calculateBollingerBands_Ok ph 20 2 ltac:(lia)) as [r3 ->].
  cbn [bind].
  destruct (generateVolumeHistory m (List.length ph) g0) as [v1 g1].
  destruct (generateVolumeHistory m (List.length ph) g1) as [v2 g2].
  eexists. eexists. reflexivity.
Qed.

Lemma fold_left_ext_in (A B : Type) (f g : A -> B -> A) (l : list B) (a : A) :
  (forall x, In x l -> forall acc, f acc x = g acc x) ->
  fold_left f l a = fold_left g l a.
Proof.
  revert a. induction l as [|x l IH]; intros a H; [reflexivity|].
  cbn [fold_left]. rewrite (H x (or_introl eq_refl)).
  apply IH. intros y Hy. apply H. right. exact Hy.
Qed.

Lemma get_app_l (l more : list number) (i : nat) :
  (i < List.length l)%nat -> get (l ++ more) (Z.of_nat i) = get l (Z.of_nat i).
Proof.
  intros H. unfold get.
  replace (Z.of_nat i <? 0)%Z with false by (symmetry; apply Z.ltb_ge; lia).
  rewrite Nat2Z.id. apply app_nth1. exact H.
Qed.

Lemma get_finite (qs : list Q) (i : nat) :
  (i < List.length qs)%nat -> get (finite_list qs) (Z.of_nat i) = Fin (nth i qs 0%Q).
Proof.
  intros H. unfold get, finite_list.
  replace (Z.of_nat i <? 0)%Z with false by (symmetry; apply Z.ltb_ge; lia).
  rewrite Nat2Z.id. rewrite (nth_indep _ NaN (Fin 0%Q)) by (rewrite length_map; exact H).
  apply (map_nth Fin).
Qed.

(** X13.  [calculateRSI] reads the oldest [period + 1] samples only: its loop
    runs over indices 1 .. period from the start of the array.  Once that
    many samples are there, appending newer prices never changes the
    result. *)
Theorem calculateRSI_prefix (l more : list number) (period : nat) :
  (period + 1 <= List.length l)%nat ->
  calculateRSI (l ++ more) period = calculateRSI l period.
Proof.
  intros H. unfold calculateRSI. rewrite length_app.
  replace (List.length l + List.length more <? period + 1)%nat with false
    by (symmetry; apply Nat.ltb_ge; lia).
  replace (List.length l <? period + 1)%nat with false
    by (symmetry; apply Nat.ltb_ge; lia).
  rewrite (fold_left_ext_in _ _ _
             (fun (acc : number * number) (i : nat) =>
                let '(gains, losses) := acc in
                let change := get l (Z.of_nat i) - get l (Z.of_nat i - 1) in
                if change >? 0 then (gains + change, losses)
                else (gains, losses + abs change))); [reflexivity|].
  intros i Hi [gains losses]. apply in_seq in Hi. cbv zeta.
  replace (Z.of_nat i - 1)%Z with (Z.of_nat (i - 1)) by lia.
  rewrite !get_app_l by lia. reflexivity.
Qed.

Lemma div_Fin_nz (x y : Q) : ~ (y == 0)%Q -> Fin x / Fin y = Fin (Qred (x / y)).
Proof.
  intros H. cbn [div]. destruct (Qeq_bool y 0) eqn:E; [|reflexivity].
  apply Qeq_bool_iff in E. contradiction.
Qed.

Lemma div_Fin_z (x y : Q) : (y == 0)%Q -> Fin x / Fin y = inf_of_sign (x ?= 0)%Q.
Proof.
  intros H. cbn [div]. destruct (Qeq_bool y 0) eqn:E; [reflexivity|].
  apply Qeq_bool_iff in H. rewrite H in E. discriminate E.
Qed.

(** The sums of the RSI loop when no step loses: the gains add up to the
    rise, the losses stay 0. *)
Lemma rsi_sums_no_loss (qs : list Q) (k : nat) :
  (k < List.length qs)%nat ->
  (forall i, (i < k)%nat -> (nth i qs 0 <= nth (S i) qs 0)%Q) ->
  exists g l : Q,
    fold_left
      (fun (acc : number * number) (i : nat) =>
         let '(gains, losses) := acc in
         let change :=
           get (finite_list qs) (Z.of_nat i) - get (finite_list qs) (Z.of_nat i - 1) in
         if change >? 0 then (gains + change, losses)
         else (gains, losses + abs change))
      (seq 1 k) (0, 0) = (Fin g, Fin l) /\
    (g == nth k qs 0 - nth 0 qs 0)%Q /\ (l == 0)%Q.
Proof.
  induction k as [|k IH]; intros Hk Hmono.
  - exists 0%Q, 0%Q. split; [reflexivity|]. split; [ring | reflexivity].
  - destruct IH as [g [l [E [Hg Hl]]]]; [lia | intros i Hi; apply Hmono; lia |].
    rewrite seq_S, fold_left_app, E. cbn [fold_left Nat.add]. cbv zeta.
    replace (Z.of_nat (S k) - 1)%Z with (Z.of_nat k) by lia.
    rewrite !get_finite by lia.
    pose proof (Hmono k (Nat.lt_succ_diag_r k)) as Hstep.
    cbn [sub neg add].
    set (c := Qred (nth (S k) qs 0 + - nth k qs 0)%Q).
    assert (Hc : (c == nth (S k) qs 0 - nth k qs 0)%Q) by (unfold c; apply Qred_correct).
    destruct (Fin c >? 0) eqn:G.
    + exists (Qred (g + c)), l. split; [reflexivity|].
      split; [rewrite Qred_correct, Hg, Hc; ring | exact Hl].
    + apply lt_Fin_false in G. assert (Hc0 : (c == 0)%Q) by lra.
      exists g, (Qred (l + Qabs c)). split; [reflexivity|]. split.
      * rewrite Hg. lra.
      * rewrite Qred_correct, Hl, Hc0. reflexivity.
Qed.


End IndicatorMore.

Section IndicatorMoreExamples.
Import Indicators IndicatorSamples IndicatorSamplesMore Ranges.

(** Witness for X10: the ramp 100 .. 129 with the default period. *)
Lemma calculateADX_range_witness :
  (1 <= 14)%nat /\ between 20 50 (adx_value (calculateADX ramp ramp ramp 14)).
Proof.
  assert (H : (1 <= 14)%nat) by lia.
  split; [exact H | exact (calculateADX_range ramp ramp ramp 14 H)].
Defined.

(** Witness for X11: period 0 on the ramp raises. *)
Lemma calculateEMA_raises_witness : exists e, calculateEMA ramp 0 = Throw e.
Proof. exact (proj2 (proj1 (calculateEMA_raises ramp 0)) eq_refl). Defined.

(** Witness for X13: two newer prices after the thirty of the ramp. *)
Lemma calculateRSI_prefix_witness :
  (14 + 1 <= List.length ramp)%nat /\
  calculateRSI (ramp ++ [1; 2]) 14 = calculateRSI ramp 14.
Proof.
  assert (H : (14 + 1 <= List.length ramp)%nat) by (vm_compute; lia).
  split; [exact H | exact (calculateRSI_prefix ramp [1; 2] 14 H)].
Defined.


(** A flat window: fifteen samples of 100 give [NaN]. *)
Example calculateRSI_flat :
  calculateRSI (finite_list flat_prices) 14 =
  {| rsi_value := NaN; rsi_signal := "Neutral"; rsi_strength := "Weak" |}.
Proof. vm_compute. reflexivity. Qed.

End IndicatorMoreExamples.

Section VolumeFacts.
Import Indicators IndicatorSamples IndicatorSamplesMore Ranges.
Variable sqrtQ : Q -> Q.

Lemma Qred_0_mul (x : Q) : Qred (0 * x) = 0%Q.
Proof. change 0%Q with (Qred 0) at 2. apply Qred_complete. ring. Qed.

(** Without volume every synthetic sample is 0, whatever is drawn. *)
Lemma generateVolumeHistory_zero (m : TokenMetrics) (n : nat) (g : Rng) :
  volume24h m = 0 -> fst (generateVolumeHistory m n g) = repeat (0 : number) n.
Proof.
  intros H. revert g. induction n as [|n IH]; intros g; [reflexivity|].
  cbn [generateVolumeHistory]. cbv zeta. unfold Math_random.
  specialize (IH {| draws := draws g; cursor := S (cursor g) |}).
  destruct (generateVolumeHistory m n _) as [hist g2].
  cbn [fst] in *. rewrite IH, H. cbn [repeat]. f_equal.
Qed.

Lemma get_repeat (x : number) (k i : nat) :
  (i < k)%nat -> get (repeat x k) (Z.of_nat i) = x.
Proof.
  intros H. unfold get.
  replace (Z.of_nat i <? 0)%Z with false by (symmetry; apply Z.ltb_ge; lia).
  rewrite Nat2Z.id. apply nth_repeat_lt. exact H.
Qed.

Lemma vwap_sums_zero (h vols : list number) (l : list nat) (a : number) :
  (forall i, In i l -> get vols (Z.of_nat i) = 0) ->
  snd (fold_left
         (fun (acc : number * number) (n : nat) =>
            let '(typicalPriceVolume, volumeSum) := acc in
            let i := Z.of_nat n in
            (typicalPriceVolume + get h i * get vols i, volumeSum + get vols i))
         l (a, 0)) = 0.
Proof.
  revert a. induction l as [|n l IH]; intros a H; [reflexivity|].
  cbn [fold_left]. cbv zeta. rewrite (H n (or_introl eq_refl)).
  change (0 + 0) with (0 : number). apply IH. intros i Hi. apply H. right. exact Hi.
Qed.

(** [(c - c) / c * 100] is 0 or [NaN], never beyond 1 either way. *)
Lemma self_diff (c : number) :
  ((c - c) / c * 100 >? 1) = false /\ ((c - c) / c * 100 <? -1) = false.
Proof.
  destruct c as [q| | |]; try (split; reflexivity).
  cbn [sub neg add].
  replace (Qred (q + - q)) with 0%Q
    by (change 0%Q with (Qred 0) at 1; apply Qred_complete; ring).
  cbn [div]. destruct (Qeq_bool q 0); [split; reflexivity|].
  unfold Qdiv. rewrite Qred_0_mul. split; reflexivity.
Qed.

(** VWAP over volumes that are all 0: the level is the last close and the
    label is "Near VWAP". *)
Lemma calculateVWAP_zero (h : list number) :
  h <> [] ->
  calculateVWAP h (repeat (0 : number) (List.length h)) =
  {| vwap_level := toFixed (last_elem h) 8;
     vwap_price_vs_vwap := "Near VWAP (Consolidation)" |}.
Proof.
  intros Hne. unfold calculateVWAP.
  destruct (List.length h =? 0)%nat eqn:E.
  { apply Nat.eqb_eq in E. destruct h; [contradiction | discriminate E]. }
  pose proof (vwap_sums_zero h (repeat (0 : number) (List.length h))
                (seq 0 (List.length h)) 0) as Hs.
  cbv zeta in Hs.
  destruct (fold_left _ (seq 0 (List.length h)) (0, 0)) as [tpv vs].
  cbn [snd] in Hs. rewrite Hs.
  2:{ intros i Hi. apply in_seq in Hi. apply get_repeat. lia. }
  change (0 === 0) with true. cbv iota.
  destruct (self_diff (last_elem h)) as [H1 H2]. rewrite H1, H2. reflexivity.
Qed.

(** X15.  A token without volume gets a reproducible analysis: with
    [volume24h = 0] and a supplied price history, [analyzeIndicators] returns
    the same record whatever [Math.random] draws, and its VWAP is the last
    price, labelled "Near VWAP (Consolidation)". *)
Theorem analyzeIndicators_zero_volume (m : TokenMetrics) (h : list number) (g : Rng) :
  volume24h m = 0 -> h <> [] ->
  exists a : IndicatorAnalysis,
    vwap a = {| vwap_level := toFixed (last_elem h) 8;
                vwap_price_vs_vwap := "Near VWAP (Consolidation)" |} /\
    forall g' : Rng, analysis_of (analyzeIndicators sqrtQ m h g') = Ok a.
Proof.
  intros Hv Hne.
  assert (Hlen : (List.length h =? 0)%nat = false).
  { destruct h; [contradiction | reflexivity]. }
  destruct (calculateMACD_Ok h) as [r1 E1].
  destruct (calculateEMACross_Ok h) as [r2 E2].
  destruct (calculateBollingerBands_Ok sqrtQ h 20 2 ltac:(lia)) as [r3 E3].
  eexists. split.
  2:{ intros g'. unfold analyzeIndicators. rewrite Hlen, E1, E2, E3. cbn [bind].
      pose proof (generateVolumeHistory_zero m (List.length h) g' Hv) as Z1.
      destruct (generateVolumeHistory m (List.length h) g') as [v1 g1].
      pose proof (generateVolumeHistory_zero m (List.length h) g1 Hv) as Z2.
      destruct (generateVolumeHistory m (List.length h) g1) as [v2 g2].
      cbn [fst] in Z1, Z2. subst v1 v2. cbn [analysis_of]. reflexivity. }
  cbn [vwap]. apply calculateVWAP_zero. exact Hne.
Qed.


End VolumeFacts.

Section VolumeExamples.
Import Indicators IndicatorSamples IndicatorSamplesMore Ranges.

(** Witness for X15: the idle token on the two-sample history. *)
Lemma analyzeIndicators_zero_volume_witness :
  volume24h idle_metrics = 0 /\ two_prices <> [] /\
  exists a : IndicatorAnalysis,
    vwap a = {| vwap_level := toFixed (last_elem two_prices) 8;
                vwap_price_vs_vwap := "Near VWAP (Consolidation)" |} /\
    forall g' : Rng,
      analysis_of (analyzeIndicators sqrt_approx idle_metrics two_prices g') = Ok a.
Proof.
  assert (H1 : volume24h idle_metrics = 0) by reflexivity.
  assert (H2 : two_prices <> []) by discriminate.
  split; [exact H1|]. split; [exact H2|].
  exact (analyzeIndicators_zero_volume sqrt_approx idle_metrics two_prices sample_rng
           H1 H2).
Defined.


End VolumeExamples.

Section WindowFacts.
Import Indicators IndicatorSamples IndicatorSamplesMore Ranges.
Variable sqrtQ : Q -> Q.
Local Open Scope list_scope.

Lemma fold_min_finite (qs : list Q) (a : Q) :
  exists m : Q,
    fold_left min (finite_list qs) (Fin a) = Fin m /\ (m <= a)%Q /\
    forall q, In q qs -> (m <= q)%Q.
Proof.
  revert a. induction qs as [|q qs IH]; intros a.
  - exists a. split; [reflexivity|]. split; [apply Qle_refl | intros ? []].
  - cbn [finite_list map fold_left]. unfold min at 2, compare.
    destruct (a ?= q)%Q eqn:E.
    + apply Qeq_alt in E. destruct (IH a) as [m [H1 [H2 H3]]].
      exists m. split; [exact H1|]. split; [exact H2|].
      intros x [<-|Hx]; [lra | auto].
    + apply Qlt_alt in E. destruct (IH a) as [m [H1 [H2 H3]]].
      exists m. split; [exact H1|]. split; [exact H2|].
      intros x [<-|Hx]; [lra | auto].
    + apply Qgt_alt in E. destruct (IH q) as [m [H1 [H2 H3]]].
      exists m. split; [exact H1|]. split; [lra|].
      intros x [<-|Hx]; [lra | auto].
Qed.

Lemma fold_max_finite (qs : list Q) (a : Q) :
  exists m : Q,
    fold_left max (finite_list qs) (Fin a) = Fin m /\ (a <= m)%Q /\
    forall q, In q qs -> (q <= m)%Q.
Proof.
  revert a. induction qs as [|q qs IH]; intros a.
  - exists a. split; [reflexivity|]. split; [apply Qle_refl | intros ? []].
  - cbn [finite_list map fold_left]. unfold max at 2, compare.
    destruct (a ?= q)%Q eqn:E.
    + apply Qeq_alt in E. destruct (IH a) as [m [H1 [H2 H3]]].
      exists m. split; [exact H1|]. split; [exact H2|].
      intros x [<-|Hx]; [lra | auto].
    + apply Qlt_alt in E. destruct (IH q) as [m [H1 [H2 H3]]].
      exists m. split; [exact H1|]. split; [lra|].
      intros x [<-|Hx]; [lra | auto].
    + apply Qgt_alt in E. destruct (IH a) as [m [H1 [H2 H3]]].
      exists m. split; [exact H1|]. split; [exact H2|].
      intros x [<-|Hx]; [lra | auto].
Qed.

(** [Math.min(...l)] and [Math.max(...l)] of finite numbers, at least one. *)
Lemma min_list_finite (qs : list Q) :
  qs <> [] ->
  exists m : Q, min_list (finite_list qs) = Fin m /\ forall q, In q qs -> (m <= q)%Q.
Proof.
  destruct qs as [|q qs]; [contradiction|]. intros _.
  destruct (fold_min_finite qs q) as [m [H1 [H2 H3]]].
  exists m. split; [exact H1|]. intros x [<-|Hx]; auto.
Qed.

Lemma max_list_finite (qs : list Q) :
  qs <> [] ->
  exists m : Q, max_list (finite_list qs) = Fin m /\ forall q, In q qs -> (q <= m)%Q.
Proof.
  destruct qs as [|q qs]; [contradiction|]. intros _.
  destruct (fold_max_finite qs q) as [m [H1 [H2 H3]]].
  exists m. split; [exact H1|]. intros x [<-|Hx]; auto.
Qed.

Lemma slice_last_finite (n : nat) (qs : list Q) :
  slice_last n (finite_list qs) = finite_list (slice_last n qs).
Proof.
  unfold slice_last, finite_list. destruct n; [reflexivity|].
  rewrite length_map. apply skipn_map.
Qed.

Lemma last_finite (qs : list Q) :
  qs <> [] -> last_elem (finite_list qs) = Fin (List.last qs 0%Q).
Proof.
  intros H. rewrite last_elem_last.
  - unfold finite_list. destruct qs as [|q qs]; [contradiction|]. clear H.
    revert q. induction qs as [|q' qs IH]; intros q; [reflexivity|]. apply (IH q').
  - destruct qs; [contradiction | discriminate].
Qed.

Lemma In_last (A : Type) (l : list A) (d : A) : l <> [] -> In (List.last l d) l.
Proof.
  induction l as [|x l IH]; intros H; [contradiction|].
  destruct l as [|y l]; [left; reflexivity|].
  right. apply IH. discriminate.
Qed.

Lemma last_skipn (A : Type) (k : nat) (l : list A) (d : A) :
  (k < List.length l)%nat -> List.last (skipn k l) d = List.last l d.
Proof.
  revert l. induction k as [|k IH]; intros l H; [reflexivity|].
  destruct l as [|x l]; [cbn in H; lia|]. cbn [skipn].
  rewrite IH by (cbn in H; lia).
  destruct l; [cbn in H; lia | reflexivity].
Qed.

(** The current price is part of the window. *)
Lemma last_in_slice_last (n : nat) (qs : list Q) :
  qs <> [] -> In (List.last qs 0%Q) (slice_last n qs).
Proof.
  intros H. unfold slice_last. destruct n as [|n]; [apply In_last; exact H|].
  assert (Hk : (List.length qs - S n < List.length qs)%nat).
  { destruct qs; [contradiction | cbn; lia]. }
  rewrite <- (last_skipn _ (List.length qs - S n) qs 0%Q Hk).
  apply In_last. intros E. apply (f_equal (@List.length Q)) in E.
  rewrite length_skipn in E. cbn in E. lia.
Qed.


Lemma fold_add_finite (qs : list Q) (a : Q) :
  exists t : Q, fold_left add (finite_list qs) (Fin a) = Fin t.
Proof.
  revert a. induction qs as [|q qs IH]; intros a; [exists a; reflexivity|].
  cbn [finite_list map fold_left add]. apply IH.
Qed.

Lemma fold_sq_finite (mid : Q) (qs : list Q) (a : Q) :
  (0 <= a)%Q ->
  exists s : Q,
    fold_left (fun sum price => sum + sq (price - Fin mid)) (finite_list qs) (Fin a)
    = Fin s /\ (0 <= s)%Q.
Proof.
  revert a. induction qs as [|q qs IH]; intros a Ha.
  - exists a. split; [reflexivity | exact Ha].
  - cbn [finite_list map fold_left]. unfold sq. cbn [sub neg add mul].
    apply IH. set (y := Qred (q + - mid)). clearbody y. rewrite !Qred_correct.
    assert (0 <= y * y)%Q.
    { destruct (Qlt_le_dec y 0) as [G|G].
      - setoid_replace (y * y)%Q with ((- y) * (- y))%Q by ring.
        apply Qmult_le_0_compat; lra.
      - apply Qmult_le_0_compat; exact G. }
    lra.
Qed.


End WindowFacts.

Section WindowExamples.
Import Indicators IndicatorSamples IndicatorSamplesMore Ranges.

Lemma closes_nonneg : nonneg closes.
Proof.
  apply Forall_forall. intros q Hq. unfold closes in Hq.
  apply in_map_iff in Hq. destruct Hq as [n [<- _]].
  change 0%Q with (inject_Z 0). rewrite <- Zle_Qle. lia.
Defined.

Lemma closes_moderate : moderate closes.
Proof.
  apply Forall_forall. intros q Hq. unfold closes in Hq.
  apply in_map_iff in Hq. destruct Hq as [n [<- Hn]]. apply in_seq in Hn.
  rewrite Qabs_pos by (change 0%Q with (inject_Z 0); rewrite <- Zle_Qle; lia).
  unfold huge. rewrite <- Zle_Qle.
  apply Z.le_trans with 200%Z; [lia|]. apply Z.leb_le. vm_compute. reflexivity.
Defined.


Lemma sqrt_approx_nonneg (q : Q) : (0 <= q)%Q -> (0 <= sqrt_approx q)%Q.
Proof.
  intros _. unfold sqrt_approx, Qle. cbn [Qnum Qden].
  rewrite Z.mul_1_r. change (0 * _)%Z with 0%Z. apply Z.sqrt_nonneg.
Qed.


End WindowExamples.

(* ================================================================== *)
(** * The remaining rules of the advanced analysis *)
(* ================================================================== *)

Section RegimeFacts.
Import AdvancedAnalysis AnalysisRules Samples RuleSamples.

(** X19.  The regime of an empty price history, which is what the bot passes:
    with ADX above 25 the call raises (it reduces the empty window without
    an initial value); otherwise it returns "ranging", never "reversal". *)
Theorem determineMarketRegime_empty (adx atrPercent : number) :
  match determineMarketRegime adx atrPercent [] with
  | Throw e =>
      (adx >? 25) = true /\
      e = "TypeError: Reduce of empty array with no initial value"
  | Ok r =>
      (adx >? 25) = false /\ regime r = ranging /\ adxValue r = adx /\
      recommendation r = "Trade support/resistance bounces, avoid breakouts"
  end.
Proof.
  unfold determineMarketRegime. cbv zeta.
  destruct (adx >? 25); cbn; repeat split; reflexivity.
Qed.

(** X20.  On a non-empty price history [determineMarketRegime] never raises,
    hands the ADX value back, and picks the regime by the ADX threshold
    alone: trending or breakout above 25, ranging or reversal otherwise. *)
Theorem determineMarketRegime_nonempty (adx atrPercent : number) (h : list number) :
  h <> [] ->
  exists r : MarketRegime,
    determineMarketRegime adx atrPercent h = Ok r /\ adxValue r = adx /\
    if adx >? 25 then regime r = trending \/ regime r = breakout
    else regime r = ranging \/ regime r = reversal.
Proof.
  intros Hne. unfold determineMarketRegime. cbv zeta.
  destruct (adx >? 25) eqn:E.
  - pose proof (slice_last_nonempty _ 5 h Hne) as Hw.
    destruct (slice_last 5 h) as [|x rest]; [contradiction|].
    cbn [sum1 bind].
    destruct (_ / _ >? Fin (1 # 50)); eexists;
      (split; [reflexivity|]); (split; [reflexivity|]); auto.
  - cbn [bind].
    destruct (_ / _ <? Fin (1 # 100)); eexists;
      (split; [reflexivity|]); (split; [reflexivity|]); auto.
Qed.

End RegimeFacts.

Section PatternFacts.
Import AdvancedAnalysis AnalysisRules Samples RuleSamples.
Local Open Scope list_scope.

Lemma triangle_of_shape (recent : list number) :
  triangle_of recent = [] \/
  exists p, triangle_of recent = [p] /\ pattern p = "triangle" /\
            pattern_confidence p = 75.
Proof.
  unfold triangle_of. cbv zeta. destruct (swings recent) as [hs ls].
  destruct ((2 <=? List.length hs)%nat && (2 <=? List.length ls)%nat); [|auto].
  destruct ((last_elem hs <? get hs 0) && (last_elem ls >? get ls 0)); [|auto].
  right. eexists. split; [reflexivity|]. split; reflexivity.
Qed.

Lemma cup_handle_of_shape (recent : list number) :
  cup_handle_of recent = [] \/
  exists p, cup_handle_of recent = [p] /\ pattern p = "cup_handle" /\
            pattern_confidence p = 80 /\ direction p = dir_bullish.
Proof.
  unfold cup_handle_of. cbv zeta.
  destruct (8 <=? List.length recent)%nat; [|auto].
  match goal with |- context [if ?c then _ else _] => destruct c end; [|auto].
  right. eexists. split; [reflexivity|]. repeat split.
Qed.

Lemma double_bottom_of_shape (recent : list number) :
  double_bottom_of recent = [] \/
  exists p, double_bottom_of recent = [p] /\ pattern p = "double_bottom" /\
            pattern_confidence p = 70 /\ direction p = dir_bullish.
Proof.
  unfold double_bottom_of. cbv zeta.
  match goal with |- context [if ?c then _ else _] => destruct c end; [|auto].
  right. eexists. split; [reflexivity|]. repeat split.
Qed.

(** X21.  [recognizePatterns] reports nothing on fewer than ten samples, and
    on any history at most one triangle, one cup and handle and one double
    bottom, in this order; whatever is not a triangle is bullish. *)
Theorem recognizePatterns_shape (h : list number) :
  ((List.length h < 10)%nat -> recognizePatterns h = []) /\
  (exists b1 b2 b3 : bool,
      map pattern (recognizePatterns h) =
      (if b1 then ["triangle"] else []) ++ (if b2 then ["cup_handle"] else [])
      ++ (if b3 then ["double_bottom"] else [])) /\
  Forall (fun p => pattern p = "triangle" \/ direction p = dir_bullish)
         (recognizePatterns h).
Proof.
  unfold recognizePatterns. split.
  { intros H. apply Nat.ltb_lt in H. rewrite H. reflexivity. }
  destruct (List.length h <? 10)%nat.
  { split; [exists false, false, false; reflexivity | constructor]. }
  cbv zeta.
  destruct (triangle_of_shape (slice_last 20 h)) as [->|[p1 [-> [N1 _]]]];
    destruct (cup_handle_of_shape (slice_last 20 h)) as [->|[p2 [-> [N2 [_ D2]]]]];
    destruct (double_bottom_of_shape (slice_last 20 h)) as [->|[p3 [-> [N3 [_ D3]]]]];
    cbn [app map]; try rewrite N1; try rewrite N2; try rewrite N3;
    (split;
     [ first [ exists false, false, false; reflexivity
             | exists false, false, true; reflexivity
             | exists false, true, false; reflexivity
             | exists false, true, true; reflexivity
             | exists true, false, false; reflexivity
             | exists true, false, true; reflexivity
             | exists true, true, false; reflexivity
             | exists true, true, true; reflexivity ]
     | repeat (apply Forall_cons; [first [left; assumption | right; assumption]|]);
       apply Forall_nil ]).
Qed.

End PatternFacts.

Section TimeframeFacts.
Import AdvancedAnalysis AnalysisRules Samples RuleSamples.

Lemma filter_all (A : Type) (f : A -> bool) (l : list A) :
  List.length (filter f l) = List.length l <-> Forall (fun x => f x = true) l.
Proof.
  induction l as [|x l IH]; [split; [constructor | reflexivity]|].
  cbn [filter]. destruct (f x) eqn:E; cbn [List.length].
  - split.
    + intros H. constructor; [exact E | apply IH; lia].
    + intros H. inversion H as [|? ? _ Hl]; subst. f_equal. apply IH. exact Hl.
  - pose proof (filter_length_le _ f l) as Hle. split; [lia|].
    intros H. inversion H as [|? ? Hx _]; subst. congruence.
Qed.

Lemma up_down_disjoint (l : list TimeframeData) :
  (List.length (filter is_up l) + List.length (filter is_down l) <= List.length l)%nat.
Proof.
  induction l as [|x l IH]; [reflexivity|].
  cbn [filter]. unfold is_up at 1, is_down at 1.
  destruct (trendDirection x); cbn [List.length]; lia.
Qed.

(** X22.  The alignment is "strong-bullish" exactly when there is at least
    one timeframe and every one trends up, and "strong-bearish" exactly when
    there is at least one and every one trends down. *)
Theorem analyzeMultiTimeframe_strong (tfs : list TimeframeData) :
  (analyzeMultiTimeframe tfs = "strong-bullish" <->
   tfs <> [] /\ Forall (fun tf => trendDirection tf = up) tfs) /\
  (analyzeMultiTimeframe tfs = "strong-bearish" <->
   tfs <> [] /\ Forall (fun tf => trendDirection tf = down) tfs).
Proof.
  assert (Hu : Forall (fun tf => trendDirection tf = up) tfs <->
               List.length (filter is_up tfs) = List.length tfs).
  { rewrite filter_all. split; apply Forall_impl; intros tf; unfold is_up;
      destruct (trendDirection tf); congruence. }
  assert (Hd : Forall (fun tf => trendDirection tf = down) tfs <->
               List.length (filter is_down tfs) = List.length tfs).
  { rewrite filter_all. split; apply Forall_impl; intros tf; unfold is_down;
      destruct (trendDirection tf); congruence. }
  pose proof (up_down_disjoint tfs) as Hdis.
  rewrite Hu, Hd. unfold analyzeMultiTimeframe. cbv zeta.
  destruct tfs as [|tf tfs].
  { cbn. split; split; try discriminate; intros [H _]; contradiction. }
  set (l := tf :: tfs) in *.
  assert (Hl : (0 < List.length l)%nat) by (cbn; lia).
  assert (Hne : l <> []) by discriminate.
  replace (List.length l =? 0)%nat with false by (symmetry; apply Nat.eqb_neq; lia).
  clearbody l.
  destruct (List.length (filter is_up l) =? List.length l)%nat eqn:E1.
  - apply Nat.eqb_eq in E1. split; split; try discriminate; try tauto.
    intros [_ H]. lia.
  - apply Nat.eqb_neq in E1.
    destruct (List.length (filter is_down l) =? List.length l)%nat eqn:E2.
    + apply Nat.eqb_eq in E2. split; split; try discriminate; tauto.
    + apply Nat.eqb_neq in E2.
      destruct (_ + 1 <? _)%nat; [|destruct (_ + 1 <? _)%nat];
        split; split; try discriminate; tauto.
Qed.

Lemma filter_flip_up (l : list TimeframeData) :
  List.length (filter is_up (map flip_tf l)) = List.length (filter is_down l).
Proof.
  induction l as [|x l IH]; [reflexivity|].
  cbn [map filter]. unfold is_up at 1, is_down at 1. cbn [flip_tf trendDirection].
  destruct (trendDirection x); cbn [flip_direction List.length]; rewrite ?IH; reflexivity.
Qed.

Lemma filter_flip_down (l : list TimeframeData) :
  List.length (filter is_down (map flip_tf l)) = List.length (filter is_up l).
Proof.
  induction l as [|x l IH]; [reflexivity|].
  cbn [map filter]. unfold is_up at 1, is_down at 1. cbn [flip_tf trendDirection].
  destruct (trendDirection x); cbn [flip_direction List.length]; rewrite ?IH; reflexivity.
Qed.

(** X23.  The alignment treats both directions alike: exchanging up and down
    on every timeframe exchanges "bullish" and "bearish" in the answer. *)
Theorem analyzeMultiTimeframe_mirror (tfs : list TimeframeData) :
  analyzeMultiTimeframe (map flip_tf tfs) = flip_label (analyzeMultiTimeframe tfs).
Proof.
  pose proof (up_down_disjoint tfs) as Hdis.
  unfold analyzeMultiTimeframe. cbv zeta.
  rewrite filter_flip_up, filter_flip_down, length_map.
  destruct (List.length tfs =? 0)%nat eqn:E0; [reflexivity|].
  apply Nat.eqb_neq in E0.
  destruct (List.length (filter is_up tfs) =? List.length tfs)%nat eqn:E1;
    destruct (List.length (filter is_down tfs) =? List.length tfs)%nat eqn:E2;
    try (apply Nat.eqb_eq in E1); try (apply Nat.eqb_eq in E2);
    try reflexivity; try (exfalso; lia).
  destruct (List.length (filter is_down tfs) + 1 <? List.length (filter is_up tfs))%nat
    eqn:E3;
    destruct (List.length (filter is_up tfs) + 1 <? List.length (filter is_down tfs))%nat
      eqn:E4;
    try (apply Nat.ltb_lt in E3); try (apply Nat.ltb_lt in E4);
    try reflexivity; exfalso; lia.
Qed.

End TimeframeFacts.

Section RegimeExamples.
Import AdvancedAnalysis AnalysisRules Samples RuleSamples.

(** Witness for X20: the bot's four samples as the history. *)
Lemma determineMarketRegime_nonempty_witness :
  bot_window <> [] /\
  exists r : MarketRegime,
    determineMarketRegime 30 2 bot_window = Ok r /\ adxValue r = 30 /\
    (regime r = trending \/ regime r = breakout).
Proof.
  assert (H : bot_window <> []) by discriminate.
  split; [exact H|].
  exact (determineMarketRegime_nonempty 30 2 bot_window H).
Defined.

(** Witness for X22: 1h and 4h both up. *)
Lemma analyzeMultiTimeframe_strong_witness :
  analyzeMultiTimeframe [tf_of "1h" up; tf_of "4h" up] = "strong-bullish".
Proof.
  apply (proj1 (analyzeMultiTimeframe_strong [tf_of "1h" up; tf_of "4h" up])).
  split; [discriminate | repeat constructor].
Defined.

(** Witness for X21: the four samples the bot passes give no pattern. *)
Lemma recognizePatterns_shape_witness :
  (List.length bot_window < 10)%nat /\ recognizePatterns bot_window = [].
Proof.
  assert (H : (List.length bot_window < 10)%nat) by (vm_compute; lia).
  split; [exact H|].
  exact (proj1 (recognizePatterns_shape bot_window) H).
Defined.

End RegimeExamples.

Section EntryFacts.
Import AdvancedAnalysis AnalysisRules Samples RuleSamples.

Lemma ge_weaken (x : number) (a b : Q) :
  (b <= a)%Q -> (x >=? Fin a) = true -> (x >=? Fin b) = true.
Proof.
  intros Hab. destruct x as [q| | |]; try (intros H; exact H).
  intros H. apply ge_Fin in H. apply ge_Fin. lra.
Qed.

(** X24.  When [determineSmartEntry] says enter, the overall score is at
    least 60 or the entry is a bounce off the lower Bollinger band, the only
    rule that ignores the score.  Without a recognised pattern only the
    candle confirmation and the band bounce can fire.  When it says do not
    enter, the entry price it reports is the last price. *)
Theorem determineSmartEntry_rules
    (ind : EntryIndicators) (h : list number) (pats : list PatternSignal) :
  let r := determineSmartEntry ind h pats in
  (shouldEnter r = true ->
   (entry_score ind >=? 60) = true \/ entryType r = support_bounce) /\
  (pats = [] -> shouldEnter r = true ->
   entryType r = candle_confirmation \/ entryType r = support_bounce) /\
  (shouldEnter r = false -> entryType r = immediate /\ smartEntryPrice r = last_elem h).
Proof.
  cbv zeta. unfold determineSmartEntry. cbv zeta.
  assert (W80 : (entry_score ind >=? 80) = true -> (entry_score ind >=? 60) = true)
    by (apply ge_weaken; discriminate).
  assert (W70 : (entry_score ind >=? 70) = true -> (entry_score ind >=? 60) = true)
    by (apply ge_weaken; discriminate).
  assert (P : pats = [] -> (0 <? List.length pats)%nat = false) by (intros ->; reflexivity).
  destruct (entry_score ind >=? 80) eqn:E80;
    destruct (0 <? List.length pats)%nat eqn:Ep;
    destruct (entry_score ind >=? 70) eqn:E70;
    destruct (negb (last_elem h >? get h (len h - 2)));
    destruct (match entry_bollinger ind with
              | Some band => includes (band_position band) "Lower"
              | None => false
              end);
    destruct (entry_score ind >=? 60) eqn:E60;
    cbn [andb shouldEnter entryType smartEntryPrice];
    (split; [|split]);
    try (intros; discriminate);
    try (intros; left; reflexivity);
    try (intros; right; reflexivity);
    try (intros; split; reflexivity);
    try (intros H; specialize (P H); discriminate P);
    try (intros; exfalso; first [specialize (W80 eq_refl) | specialize (W70 eq_refl)];
         discriminate).
Qed.

(** X25.  [detectDivergence] either reports nothing (type none, indicator
    price, strength weak) or a strong divergence on the RSI; and it reports
    nothing on fewer than five prices or fewer than two RSI samples. *)
Theorem detectDivergence_shape (ph rsi : list number) :
  let r := detectDivergence ph rsi in
  ((div_type r = div_none /\ div_indicator r = on_price /\ div_strength r = div_weak) \/
   (div_type r <> div_none /\ div_indicator r = on_rsi /\ div_strength r = div_strong)) /\
  ((List.length ph < 5)%nat \/ (List.length rsi <= 1)%nat -> div_type r = div_none).
Proof.
  cbv zeta. unfold detectDivergence. cbv zeta. split.
  - destruct (List.length ph <? 5)%nat; [left; repeat split|].
    match goal with |- context [if ?c then _ else _] => destruct c end;
      [right; repeat split; discriminate|].
    match goal with |- context [if ?c then _ else _] => destruct c end;
      [right; repeat split; discriminate | left; repeat split].
  - intros [H|H].
    + apply Nat.ltb_lt in H. rewrite H. reflexivity.
    + destruct (List.length ph <? 5)%nat; [reflexivity|].
      assert (Hr : rsi = [] \/ exists x, rsi = [x]).
      { destruct rsi as [|x [|y rest]]; [left; reflexivity | right; eexists; reflexivity|].
        cbn in H. lia. }
      destruct Hr as [->|[x ->]].
      * cbn. rewrite !andb_false_r. reflexivity.
      * assert (E1 : (last_elem (slice_last 5 [x])
                        >? min_list (removelast (slice_last 5 [x])) + 5) = false)
          by (destruct x; reflexivity).
        assert (E2 : (last_elem (slice_last 5 [x])
                        <? max_list (removelast (slice_last 5 [x])) - 5) = false)
          by (destruct x; reflexivity).
        rewrite E1, E2, !andb_false_r. reflexivity.
Qed.

End EntryFacts.

Section HistoryFacts.
Import AdvancedAnalysis AnalysisRules Samples RuleSamples LedgerSamples.
Local Open Scope list_scope.

Lemma In_Map_set_keys (V : Type) (p k : string) (v : V) (m : WinRate.Map V) :
  In p (map fst (WinRate.Map_set k v m)) <-> In p (map fst m) \/ p = k.
Proof.
  rewrite Map_set_keys. destruct (WinRate.Map_has k m) eqn:E.
  - split; [auto|]. intros [H| ->]; [exact H|].
    destruct (in_dec string_dec k (map fst m)) as [I|N]; [exact I|].
    apply Map_has_false in N. rewrite N in E. discriminate E.
  - rewrite in_app_iff. cbn [In]. split; intros [H|H]; auto.
    + destruct H as [<-|[]]. auto.
Qed.

Lemma patternWinRates_of_tally (h : list Trade) :
  patternWinRates_of h = fold_left tally h [].
Proof. reflexivity. Qed.

(** The keys of [patternWinRates] are the non-empty pattern names. *)
Lemma tally_keys (h : list Trade) (acc : WinRate.Map nat) (p : string) :
  In p (map fst (fold_left tally h acc)) <->
  In p (map fst acc) \/ In p (named_patterns h).
Proof.
  revert acc. induction h as [|t h IH]; intros acc.
  - cbn. tauto.
  - cbn [fold_left named_patterns flat_map]. rewrite IH, in_app_iff.
    fold (named_patterns h). unfold tally.
    destruct (trade_pattern t) as [q|]; [|cbn [In]; tauto].
    destruct (String.eqb q ""); [cbn [In]; tauto|].
    cbv zeta. rewrite In_Map_set_keys. cbn [In]. split.
    + intros [[H| ->]|H]; auto.
    + intros [H|[[<-|[]]|H]]; auto.
Qed.

Lemma tally_unique (h : list Trade) (acc : WinRate.Map nat) :
  keys_unique acc -> keys_unique (fold_left tally h acc).
Proof.
  revert acc. induction h as [|t h IH]; intros acc Hacc; [exact Hacc|].
  cbn [fold_left]. apply IH. unfold tally.
  destruct (trade_pattern t) as [q|]; [|exact Hacc].
  destruct (String.eqb q ""); [exact Hacc|].
  apply Map_set_unique. exact Hacc.
Qed.

Lemma filter_split_length (A : Type) (f : A -> bool) (l : list A) :
  (List.length (filter f l) + List.length (filter (fun x => negb (f x)) l)
   = List.length l)%nat.
Proof.
  induction l as [|x l IH]; [reflexivity|].
  cbn [filter]. destruct (f x); cbn [negb List.length]; lia.
Qed.

Lemma NoDup_firstn (A : Type) (n : nat) (l : list A) : NoDup l -> NoDup (firstn n l).
Proof.
  intros H. rewrite <- (firstn_skipn n l) in H. apply NoDup_app_remove_r in H. exact H.
Qed.

(** X26.  The statistics of a trading history add up: every trade is a win
    or a loss, the win rate is a whole percentage between 0 and 100, and the
    best patterns are at most three distinct names, each the non-empty
    pattern name of some trade. *)
Theorem calculateWinRateStats_counts (h : list Trade) :
  let s := calculateWinRateStats h in
  (winningSignals s + losingSignals s = totalSignals s)%nat /\
  totalSignals s = List.length h /\
  (exists z, winRate s = of_Z z /\ (0 <= z <= 100)%Z) /\
  (List.length (bestPatterns s) <= 3)%nat /\
  NoDup (bestPatterns s) /\
  incl (bestPatterns s) (named_patterns h).
Proof.
  cbv zeta. unfold calculateWinRateStats.
  destruct (List.length h =? 0)%nat eqn:E.
  { apply Nat.eqb_eq in E. cbn [winningSignals losingSignals totalSignals winRate
                                bestPatterns List.length].
    repeat split; try lia.
    - exists 0%Z. split; [reflexivity | lia].
    - constructor.
    - intros p []. }
  apply Nat.eqb_neq in E. cbv zeta.
  cbn [winningSignals losingSignals totalSignals winRate bestPatterns].
  split; [apply filter_split_length|]. split; [reflexivity|].
  split; [apply round_percent_range; [apply filter_length_le | lia]|].
  split; [rewrite length_map, length_firstn; apply Nat.le_min_l|].
  split.
  - rewrite <- firstn_map. apply NoDup_firstn.
    apply (Permutation_NoDup
             (l := map fst (patternWinRates_of h))).
    + apply Permutation_map. symmetry. apply sort_by_perm.
    + rewrite patternWinRates_of_tally. apply tally_unique. constructor.
  - intros p Hp. apply in_map_iff in Hp. destruct Hp as [e [<- He]].
    apply In_firstn in He. apply In_sort_by in He.
    assert (Hk : In (fst e) (map fst (patternWinRates_of h))) by (apply in_map; exact He).
    rewrite patternWinRates_of_tally in Hk. apply tally_keys in Hk.
    destruct Hk as [[]|Hk]. exact Hk.
Qed.

(** X27.  "Best" does not mean winning.  When the history names at most
    three patterns, every one of them is listed among the best patterns,
    also one whose trades all lost. *)
Theorem calculateWinRateStats_lists_all (h : list Trade) (names : list string) (p : string) :
  incl (named_patterns h) names -> (List.length names <= 3)%nat ->
  In p (named_patterns h) ->
  In p (bestPatterns (calculateWinRateStats h)).
Proof.
  intros Hincl Hlen Hp. unfold calculateWinRateStats.
  destruct (List.length h =? 0)%nat eqn:E.
  { apply Nat.eqb_eq in E. destruct h; [contradiction | discriminate E]. }
  cbv zeta. cbn [bestPatterns].
  assert (Hu : keys_unique (patternWinRates_of h))
    by (rewrite patternWinRates_of_tally; apply tally_unique; constructor).
  assert (Hk : (List.length (patternWinRates_of h) <= 3)%nat).
  { rewrite <- (length_map fst). apply Nat.le_trans with (List.length names); [|exact Hlen].
    apply NoDup_incl_length; [exact Hu|].
    intros k Hk. apply Hincl. rewrite patternWinRates_of_tally in Hk.
    apply tally_keys in Hk. destruct Hk as [[]|Hk]. exact Hk. }
  rewrite firstn_all2 by (rewrite sort_by_length; exact Hk).
  assert (Hin : In p (map fst (patternWinRates_of h))).
  { rewrite patternWinRates_of_tally. apply tally_keys. right. exact Hp. }
  apply in_map_iff in Hin. destruct Hin as [e [<- He]].
  apply in_map. apply In_sort_by. exact He.
Qed.

End HistoryFacts.

Section HistoryExamples.
Import AdvancedAnalysis AnalysisRules Samples RuleSamples.

(** Witness for X24: score 85, no pattern, the last candle closed lower. *)
Lemma determineSmartEntry_rules_witness :
  let r := determineSmartEntry (entry_input 85 "Upper Half") [100; 99] [] in
  shouldEnter r = true /\ entryType r = candle_confirmation /\
  ((entry_score (entry_input 85 "Upper Half") >=? 60) = true \/
   entryType r = support_bounce).
Proof.
  cbv zeta.
  assert (H : shouldEnter (determineSmartEntry (entry_input 85 "Upper Half") [100; 99] [])
              = true) by reflexivity.
  split; [exact H|]. split; [reflexivity|].
  exact (proj1 (determineSmartEntry_rules (entry_input 85 "Upper Half") [100; 99] []) H).
Defined.

(** Witness for X25: the bot's four samples are too few. *)
Lemma detectDivergence_shape_witness :
  (List.length bot_window < 5)%nat /\
  div_type (detectDivergence bot_window [30; 40; 50; 60; 70]) = div_none.
Proof.
  assert (H : (List.length bot_window < 5)%nat) by (vm_compute; lia).
  split; [exact H|].
  exact (proj2 (detectDivergence_shape bot_window [30; 40; 50; 60; 70]) (or_introl H)).
Defined.

(** Witness for X27: the cup and handle lost its only trade and is listed. *)
Lemma calculateWinRateStats_lists_all_witness :
  incl (named_patterns three_trades) ["triangle"; "cup_handle"] /\
  (List.length ["triangle"; "cup_handle"] <= 3)%nat /\
  In "cup_handle" (named_patterns three_trades) /\
  In "cup_handle" (bestPatterns (calculateWinRateStats three_trades)).
Proof.
  assert (H1 : incl (named_patterns three_trades) ["triangle"; "cup_handle"]).
  { intros x Hx. vm_compute in Hx. cbn [In].
    destruct Hx as [<-|[<-|[<-|[]]]]; auto. }
  assert (H2 : (List.length ["triangle"; "cup_handle"] <= 3)%nat) by (cbn; lia).
  assert (H3 : In "cup_handle" (named_patterns three_trades))
    by (vm_compute; auto).
  split; [exact H1|]. split; [exact H2|]. split; [exact H3|].
  exact (calculateWinRateStats_lists_all three_trades ["triangle"; "cup_handle"]
           "cup_handle" H1 H2 H3).
Defined.

End HistoryExamples.

Section SignalFacts.
Import AdvancedAnalysis AnalysisRules Samples RuleSamples.

(** Case analysis on a counter that is at most 8. *)
Ltac at_most_8 n :=
  destruct n as [|[|[|[|[|[|[|[|[|n]]]]]]]]]; [..| exfalso; lia].

(** The percentage that [calculateConfluenceScore] returns is the share of
    the larger side, so it never falls below 50. *)
Lemma confluencePercent_range (i : ConfluenceInput) :
  exists p : Z, confluencePercent (calculateConfluenceScore i) = of_Z p /\
                (50 <= p <= 100)%Z.
Proof.
  unfold calculateConfluenceScore. cbv zeta. cbn [confluencePercent].
  pose proof (count_true_le (bullishSignals i)) as Hb.
  pose proof (count_true_le (bearishSignals i)) as Hr.
  change (List.length (bullishSignals i)) with 8%nat in Hb.
  change (List.length (bearishSignals i)) with 8%nat in Hr.
  set (b := count_true (bullishSignals i)) in *.
  set (e := count_true (bearishSignals i)) in *.
  clearbody b e.
  at_most_8 b; at_most_8 e; clear Hb Hr; eexists; (split; [vm_compute; reflexivity | lia]).
Qed.

(** X28.  The confluence percentage is the share of the larger side: it is
    never below 50, so the level "very-low" is never reported; the score is
    tradeable exactly when the level is above "low"; and "very-high" means
    unanimity, one side firing and the other silent. *)
Theorem calculateConfluenceScore_levels (i : ConfluenceInput) :
  let s := calculateConfluenceScore i in
  (exists p : Z, confluencePercent s = of_Z p /\ (50 <= p <= 100)%Z) /\
  confidenceLevel s <> very_low /\
  (tradeable s = true <-> confidenceLevel s <> low) /\
  (confidenceLevel s = very_high <->
   (bullishCount s = 0%nat /\ (0 < bearishCount s)%nat) \/
   (bearishCount s = 0%nat /\ (0 < bullishCount s)%nat)).
Proof.
  cbv zeta. split; [apply confluencePercent_range|].
  unfold calculateConfluenceScore. cbv zeta.
  cbn [confidenceLevel tradeable bullishCount bearishCount].
  pose proof (count_true_le (bullishSignals i)) as Hb.
  pose proof (count_true_le (bearishSignals i)) as Hr.
  change (List.length (bullishSignals i)) with 8%nat in Hb.
  change (List.length (bearishSignals i)) with 8%nat in Hr.
  set (b := count_true (bullishSignals i)) in *.
  set (e := count_true (bearishSignals i)) in *.
  clearbody b e.
  at_most_8 b; at_most_8 e; clear Hb Hr;
    match goal with
    | |- ?l <> _ /\ (?t = true <-> _) /\ _ =>
        let l' := eval vm_compute in l in
        let t' := eval vm_compute in t in
        change l with l'; change t with t'
    end;
    (split; [discriminate|]);
    (split; [first [ split; [intros _; discriminate | intros _; reflexivity]
                   | split; [discriminate | intros H; exfalso; apply H; reflexivity] ]|]);
    (split; [intros H; first [discriminate H | (left; split; [reflexivity | lia])
                              | (right; split; [reflexivity | lia])]
            | intros [[H1 H2]|[H1 H2]]; first [reflexivity | discriminate | lia]]).
Qed.

(** X29.  The outcomes of [generateFinalSignal]: SKIP at confidence 0 or 40,
    NEUTRAL at 60, BUY at 80, STRONG-BUY at 100.  SELL and STRONG-SELL are
    never returned, nor is a confidence of 20. *)
Theorem generateFinalSignal_outcomes (r : AdvancedAnalysisResult) :
  let f := generateFinalSignal r in
  (signal f = SKIP /\ confidence f = 0) \/
  (signal f = SKIP /\ confidence f = 40) \/
  (signal f = NEUTRAL /\ confidence f = 60) \/
  (signal f = BUY /\ confidence f = 80) \/
  (signal f = STRONG_BUY /\ confidence f = 100).
Proof.
  cbv zeta. unfold generateFinalSignal. cbv zeta. unfold checks_values.
  generalize (truthy_value (confluencePass (checks_of r))), (timeframePass (checks_of r)),
    (riskRewardPass (checks_of r)), (entryReady (checks_of r)),
    (regimeAccepts (checks_of r)).
  intros [] [] [] [] []; vm_compute; tauto.
Qed.

(** The [checks] object once the confluence entry is truthy. *)
Lemma checks_values_truthy (r : AdvancedAnalysisResult) :
  truthy_value (confluencePass (checks_of r)) = true ->
  checks_values (checks_of r) =
  [true; gate_timeframe r; gate_riskReward r; gate_entry r; gate_regime r].
Proof.
  intros Ht. unfold checks_values. rewrite Ht, riskRewardPass_gate.
  unfold checks_of, gate_timeframe, gate_entry, gate_regime.
  cbn [timeframePass entryReady regimeAccepts].
  repeat f_equal.
  - destruct (timeframeAlignment r); [apply orb_comm | reflexivity].
  - destruct (smartEntry r) as [e|]; cbn; [destruct (shouldEnter e)|]; reflexivity.
  - destruct (marketRegime r) as [m|]; cbn; [destruct (regime m)|]; reflexivity.
Qed.

(** X30.  A score from [calculateConfluenceScore] always passes the
    confluence check of [generateFinalSignal], tradeable or not: the check
    reads [confluencePercent || 0 >= 60], and the percentage is at least 50,
    hence truthy.  With a valid risk/reward setup the signal then depends on
    the three remaining gates only. *)
Theorem generateFinalSignal_scored (r : AdvancedAnalysisResult) (i : ConfluenceInput) :
  confluence r = Some (calculateConfluenceScore i) ->
  gate_riskReward r = true ->
  signal (generateFinalSignal r) = classify (2 + passedOthers r) /\
  confidence (generateFinalSignal r) = of_nat (20 * (2 + passedOthers r)).
Proof.
  intros Hc Hr.
  assert (Ht : truthy_value (confluencePass (checks_of r)) = true).
  { unfold checks_of. cbn [confluencePass]. rewrite Hc. cbn [option_map num_or_bool].
    destruct (confluencePercent_range i) as [p [-> Hp]].
    assert (T : truthy (of_Z p) = true).
    { unfold of_Z. apply truthy_Fin. intros E.
      unfold Qeq in E. cbn [Qnum Qden inject_Z] in E. lia. }
    rewrite T. exact T. }
  unfold generateFinalSignal. cbv zeta.
  rewrite (checks_values_truthy r Ht), Ht, riskRewardPass_gate, Hr.
  unfold passedOthers.
  destruct (gate_timeframe r), (gate_entry r), (gate_regime r);
    split; vm_compute; reflexivity.
Qed.

End SignalFacts.

Section SignalExamples.
Import AdvancedAnalysis AnalysisRules Samples RuleSamples.

(** Witness for X30: nothing fires (50%, not tradeable), the setup is valid
    and the three other gates are open: STRONG-BUY at confidence 100. *)
Lemma generateFinalSignal_scored_witness :
  let r := {| confluence := Some (calculateConfluenceScore labels_quiet);
              timeframeAlignment := Some "bullish";
              riskReward := Some (setup_of true);
              marketRegime := Some (regime_of trending);
              smartEntry := Some (entry_of true) |} in
  tradeable (calculateConfluenceScore labels_quiet) = false /\
  signal (generateFinalSignal r) = STRONG_BUY /\
  confidence (generateFinalSignal r) = 100.
Proof.
  cbv zeta. split; [reflexivity|].
  exact (generateFinalSignal_scored
           {| confluence := Some (calculateConfluenceScore labels_quiet);
              timeframeAlignment := Some "bullish";
              riskReward := Some (setup_of true);
              marketRegime := Some (regime_of trending);
              smartEntry := Some (entry_of true) |}
           labels_quiet eq_refl eq_refl).
Defined.

End SignalExamples.
